(** * SAMFormer: the forecasting network and its sklearn-style trainer

    A shallow embedding of [samformer/samformer.py]:
    - [SAMFormerArchitecture] ([__init__], [forward]),
    - [SAMFormer] ([__init__], [fit], [forecast], [predict], and the
      methods that look inside the network: [extract_matrices],
      [extract_weight_matrices], [plot_heatmap], [generate_heatmaps]).

    Conventions.
    - Tensor entries are real numbers: float32 arithmetic is idealised, so
      nothing below speaks about rounding.
    - Python methods mutate [self] and may raise.  They are written in a
      small monad over the mutated object: a computation maps a state to a
      result (a value or the exception raised), the state it leaves behind
      and the calls it made on its collaborators.  A raised exception keeps
      the side effects that happened before it.
    - [.to(device)], [.cpu()] and the tqdm bar only move or display data;
      they are identities here. *)

From Stdlib Require Import String ZArith Reals Lia Lra Bool Arith List.
Import ListNotations.

Set Implicit Arguments.

(* ------------------------------------------------------------------ *)
(** * Exceptions and the state/exception/trace monad *)
(* ------------------------------------------------------------------ *)

Inductive exn : Type :=
| ZeroDivisionError
| IndexError
| AttributeError (type_name attr : string)
| TypeError (msg : string)
| RuntimeError (msg : string)
| ValueError (msg : string).

Inductive result (A : Type) : Type :=
| Ok (a : A)
| Raise (e : exn).
Arguments Ok {A} a.
Arguments Raise {A} e.

Definition is_ok {A} (r : result A) : bool :=
  match r with Ok _ => true | Raise _ => false end.

(** The calls the trainer makes on torch, on the network and on the
    optimizer, in the order in which it makes them. *)
Inductive event : Type :=
| ManualSeed (s : Z)                 (* torch.manual_seed(s) *)
| RandomSeed (s : Z)                 (* random.seed(s) *)
| NumpySeed (s : Z)                  (* np.random.seed(s) *)
| CudaSeedAll (s : Z)                (* torch.cuda.manual_seed_all(s) *)
| Allocate (num_channels seq_len hid_dim pred_horizon : nat) (use_revin : bool)
                                     (* SAMFormerArchitecture(...) *)
| Train                              (* network.train() *)
| Eval                               (* network.eval() *)
| Forward (grad_enabled : bool)      (* network(x) *)
| Loss                               (* criterion(out, y) *)
| Backward                           (* loss.backward() *)
| FirstStep (zero_grad : bool)       (* optimizer.first_step(zero_grad) *)
| SecondStep (zero_grad : bool)      (* optimizer.second_step(zero_grad) *)
| ZeroGrad                           (* optimizer.zero_grad() *)
| Step                               (* optimizer.step() *)
| SetDescription (epoch : nat) (train_loss : R).
                                     (* progress_bar.set_description(...) *)

Record outcome (S A : Type) : Type := Outcome {
  value : result A;
  final : S;
  events : list event
}.

Definition M (S A : Type) : Type := S -> outcome S A.

Definition ret {S A} (a : A) : M S A :=
  fun s => Outcome (Ok a) s [].

Definition bind {S A B} (m : M S A) (k : A -> M S B) : M S B :=
  fun s =>
    match m s with
    | Outcome (Ok a) s1 ev1 =>
        match k a s1 with
        | Outcome r s2 ev2 => Outcome r s2 (ev1 ++ ev2)
        end
    | Outcome (Raise e) s1 ev1 => Outcome (Raise e) s1 ev1
    end.

Definition raise {S A} (e : exn) : M S A :=
  fun s => Outcome (Raise e) s [].

Definition get {S} : M S S :=
  fun s => Outcome (Ok s) s [].

Definition put {S} (s : S) : M S unit :=
  fun _ => Outcome (Ok tt) s [].

Definition emit {S} (e : event) : M S unit :=
  fun s => Outcome (Ok tt) s [e].

Definition lift_result {S A} (r : result A) : M S A :=
  fun s => Outcome r s [].

(** Run a computation on a component of the state ([view], [update]). *)
Definition zoom {S T A} (view : S -> T) (update : T -> S -> S) (m : M T A) : M S A :=
  fun s =>
    match m (view s) with
    | Outcome r t ev => Outcome r (update t s) ev
    end.

Declare Scope monad_scope.
Delimit Scope monad_scope with monad.
Notation "x <- m ;; k" := (bind m (fun x => k))
  (at level 61, m at next level, right associativity) : monad_scope.
Notation "m ;; k" := (bind m (fun _ => k))
  (at level 61, right associativity) : monad_scope.
Notation "' pat <- m ;; k" := (bind m (fun x => match x with pat => k end))
  (at level 61, pat pattern, m at next level, right associativity) : monad_scope.

(** A python [for] loop whose body updates local variables [B]. *)
Fixpoint for_each {S A B} (l : list A) (body : B -> A -> M S B) (b : B) : M S B :=
  match l with
  | [] => ret b
  | a :: l' => bind (body b a) (fun b' => for_each l' body b')
  end.

(* ------------------------------------------------------------------ *)
(** * Tensors *)
(* ------------------------------------------------------------------ *)

(** A 3-D tensor of shape [(length items, dim1, dim2)]: one entry of
    [items] per sample, each sample stored contiguously in row-major
    order ([dim1 * dim2] numbers).  A 2-D tensor has shape
    [(length rows, width)]. *)
Record tensor3 : Type := Tensor3 {
  dim1 : nat;
  dim2 : nat;
  items : list (list R)
}.

Record tensor2 : Type := Tensor2 {
  width : nat;
  rows : list (list R)
}.

Definition shape3 (t : tensor3) : nat * nat * nat :=
  (length (items t), dim1 t, dim2 t).

Definition shape2 (t : tensor2) : nat * nat :=
  (length (rows t), width t).

Definition well_formed3 (t : tensor3) : Prop :=
  Forall (fun s => length s = dim1 t * dim2 t) (items t).

Definition well_formed2 (t : tensor2) : Prop :=
  Forall (fun r => length r = width t) (rows t).

Section Arrays.
Local Open Scope R_scope.

(** Entry [(i, j)] of a sample with [c] columns. *)
Definition entry (c : nat) (s : list R) (i j : nat) : R :=
  nth (i * c + j) s 0.

Definition row_of (c : nat) (f : nat -> R) : list R :=
  map f (seq 0 c).

(** The [r] by [c] sample whose entry [(i, j)] is [f i j]. *)
Definition tabulate (r c : nat) (f : nat -> nat -> R) : list R :=
  flat_map (fun i => row_of c (f i)) (seq 0 r).

Definition sum_list (l : list R) : R := fold_right Rplus 0 l.

(** Sum of [f k] for [k < n]. *)
Definition sum_upto (n : nat) (f : nat -> R) : R :=
  sum_list (map f (seq 0 n)).

Definition zip_with {A B C} (f : A -> B -> C) (l1 : list A) (l2 : list B) : list C :=
  map (fun p => f (fst p) (snd p)) (combine l1 l2).

(** [t.transpose(1, 2)] *)
Definition transpose_sample (r c : nat) (s : list R) : list R :=
  tabulate c r (fun j i => entry c s i j).

Definition transpose12 (t : tensor3) : tensor3 :=
  {| dim1 := dim2 t;
     dim2 := dim1 t;
     items := map (transpose_sample (dim1 t) (dim2 t)) (items t) |}.

(** [a + b] for tensors of one shape.  torch broadcasts operands of
    different shapes; [forward] never adds such operands (its two
    summands always have the shape of the normalised input), so that
    case is reported as an error instead of being modelled. *)
Definition add_entries (a b : tensor3) : tensor3 :=
  {| dim1 := dim1 a;
     dim2 := dim2 a;
     items := zip_with (zip_with Rplus) (items a) (items b) |}.

Definition tensor_add (a b : tensor3) : result tensor3 :=
  if (dim1 a =? dim1 b)%nat && (dim2 a =? dim2 b)%nat
     && (length (items a) =? length (items b))%nat
  then Ok (add_entries a b)
  else Raise (RuntimeError "operands of different shapes").

(** [t.reshape([t.shape[0], t.shape[1] * t.shape[2]])]: the samples are
    already contiguous, only the shape changes. *)
Definition flatten12 (t : tensor3) : tensor2 :=
  {| width := dim1 t * dim2 t; rows := items t |}.

(** [torch.cat(outs)] along dimension 0.  An empty list is refused;
    with which exception depends on the release of torch
    ([if_empty]). *)
Definition torch_cat (if_empty : exn) (outs : list tensor2) : result tensor2 :=
  match outs with
  | [] => Raise if_empty
  | t :: _ =>
      if forallb (fun u => (width u =? width t)%nat) outs
      then Ok {| width := width t; rows := concat (map rows outs) |}
      else Raise (RuntimeError "Sizes of tensors must match except in dimension 0")
  end.
End Arrays.

(* ------------------------------------------------------------------ *)
(** * nn.Linear *)
(* ------------------------------------------------------------------ *)

(** [weight] has shape [(out_features, in_features)], stored row-major. *)
Record Linear : Type := {
  in_features : nat;
  out_features : nat;
  weight : list R;
  bias : list R
}.

Section LinearLayer.
Local Open Scope R_scope.

(** Row [i] of the input times the transposed weight, plus the bias. *)
Definition linear_sample (l : Linear) (r : nat) (s : list R) : list R :=
  tabulate r (out_features l)
    (fun i o =>
       sum_upto (in_features l)
         (fun k => entry (in_features l) s i k * entry (in_features l) (weight l) o k)
       + nth o (bias l) 0).

(** [l(t)]: the layer acts on the last axis, which must have
    [in_features] entries. *)
Definition linear_map (l : Linear) (t : tensor3) : tensor3 :=
  {| dim1 := dim1 t;
     dim2 := out_features l;
     items := map (linear_sample l (dim1 t)) (items t) |}.

Definition Linear_call (l : Linear) (t : tensor3) : result tensor3 :=
  if (dim2 t =? in_features l)%nat
  then Ok (linear_map l t)
  else Raise (RuntimeError "mat1 and mat2 shapes cannot be multiplied").
End LinearLayer.

(* ------------------------------------------------------------------ *)
(** * Scaled dot-product attention *)
(* ------------------------------------------------------------------ *)

Section Attention.
Local Open Scope R_scope.

Definition softmax (l : list R) : list R :=
  map (fun s => exp s / sum_list (map exp l)) l.

(** One sample: [q] is [n] by [e], [k] is [m] by [e], [v] is [m] by [c];
    the result is [n] by [c]. *)
Definition attention_sample (n m e c : nat) (q k v : list R) : list R :=
  tabulate n c
    (fun i j =>
       let scores :=
         row_of m (fun t => sum_upto e (fun a => entry e q i a * entry e k t a)
                            / sqrt (INR e)) in
       sum_upto m (fun t => nth t (softmax scores) 0 * entry c v t j)).

Definition zip3 {A B C} (a : list A) (b : list B) (c : list C) : list (A * (B * C)) :=
  combine a (combine b c).

(** [softmax(queries . keys^T / sqrt(hid_dim)) . values], sample by
    sample; no mask, no dropout. *)
Definition attention_map (queries keys values : tensor3) : tensor3 :=
  {| dim1 := dim1 queries;
     dim2 := dim2 values;
     items :=
       map (fun qkv =>
              attention_sample (dim1 queries) (dim1 keys)
                (dim2 queries) (dim2 values)
                (fst qkv) (fst (snd qkv)) (snd (snd qkv)))
           (zip3 (items queries) (items keys) (items values)) |}.

Definition attention (queries keys values : tensor3) : result tensor3 :=
  if (dim2 queries =? dim2 keys)%nat && (dim1 keys =? dim1 values)%nat
     && (length (items queries) =? length (items keys))%nat
     && (length (items keys) =? length (items values))%nat
  then Ok (attention_map queries keys values)
  else Raise (RuntimeError "attention: incompatible shapes").

(** [nn.functional.scaled_dot_product_attention] with its default
    arguments. *)
Definition F_scaled_dot_product_attention := attention.

(** Modelled from the spec: [utils/attention.py] is not among the
    sources.  The fallback is the explicit softmax of the scaled scores
    times the values, the same function of real numbers as the fused
    kernel. *)
Definition scaled_dot_product_attention := attention.
End Attention.

(* ------------------------------------------------------------------ *)
(** * RevIN *)
(* ------------------------------------------------------------------ *)

(** Modelled from the spec: [utils/revin.py] is not among the sources.
    The normaliser holds learned affine parameters, one pair per
    channel, and the statistics of the most recent [norm] call.  It is
    called on tensors of shape (batch, length, channels). *)
Record RevIN : Type := {
  num_features : nat;
  eps : R;
  affine_weight : list R;
  affine_bias : list R;
  mean : option tensor3;
  stdev : option tensor3
}.

Inductive revin_mode : Type := norm | denorm.

Section Normaliser.
Local Open Scope R_scope.

Definition set_statistics (m s : option tensor3) (r : RevIN) : RevIN :=
  {| num_features := num_features r;
     eps := eps r;
     affine_weight := affine_weight r;
     affine_bias := affine_bias r;
     mean := m;
     stdev := s |}.

(** Mean and standard deviation over the time axis, for each channel
    of one sample with [len] time steps and [ch] channels. *)
Definition sample_mean (len ch : nat) (s : list R) : list R :=
  row_of ch (fun c => sum_upto len (fun t => entry ch s t c) / INR len).

Definition sample_stdev (len ch : nat) (s : list R) : list R :=
  row_of ch
    (fun c =>
       let mu := nth c (sample_mean len ch s) 0 in
       sqrt (sum_upto len (fun t => (entry ch s t c - mu) * (entry ch s t c - mu))
             / INR len)).

(** Modelled from the spec: [(x - mean) / (std + eps)], scaled and
    shifted by the affine parameters. *)
Definition normalize_sample (r : RevIN) (len ch : nat) (s mu sigma : list R) : list R :=
  tabulate len ch
    (fun t c =>
       (entry ch s t c - nth c mu 0) / (nth c sigma 0 + eps r)
       * nth c (affine_weight r) 0 + nth c (affine_bias r) 0).

(** Modelled from the spec: the inverse affine transform, then times
    the stored std, plus the stored mean. *)
Definition denormalize_sample (r : RevIN) (len ch : nat) (s mu sigma : list R) : list R :=
  tabulate len ch
    (fun t c =>
       (entry ch s t c - nth c (affine_bias r) 0) / nth c (affine_weight r) 0
       * nth c sigma 0 + nth c mu 0).

Definition statistics_of (x : tensor3) : tensor3 * tensor3 :=
  ({| dim1 := 1; dim2 := dim2 x;
      items := map (sample_mean (dim1 x) (dim2 x)) (items x) |},
   {| dim1 := 1; dim2 := dim2 x;
      items := map (sample_stdev (dim1 x) (dim2 x)) (items x) |}).

Definition apply_statistics (f : list R -> list R -> list R -> list R)
    (x mu sigma : tensor3) : tensor3 :=
  {| dim1 := dim1 x;
     dim2 := dim2 x;
     items := map (fun p => f (fst p) (fst (snd p)) (snd (snd p)))
                  (zip3 (items x) (items mu) (items sigma)) |}.

Definition normalize (r : RevIN) (x mu sigma : tensor3) : tensor3 :=
  apply_statistics (normalize_sample r (dim1 x) (dim2 x)) x mu sigma.

Definition denormalize (r : RevIN) (x mu sigma : tensor3) : tensor3 :=
  apply_statistics (denormalize_sample r (dim1 x) (dim2 x)) x mu sigma.

(** Modelled from the spec: [norm] computes the statistics of its
    argument, stores them and normalises with them; [denorm] uses
    whatever statistics are stored.  The affine parameters hold one
    value per channel, so the argument must have [num_features]
    channels (broadcasting of a one-channel operand is left out).  The
    spec leaves [denorm] without stored statistics, or with statistics
    of another shape, undefined; [forward] reaches neither case, and
    both are errors here. *)
Definition RevIN_call (x : tensor3) (mode : revin_mode) : M RevIN tensor3 :=
  (match mode with
   | norm =>
       self <- get ;;
       let (mu, sigma) := statistics_of x in
       put (set_statistics (Some mu) (Some sigma) self) ;;
       if (dim2 x =? num_features self)%nat
       then ret (normalize self x mu sigma)
       else raise (RuntimeError "channels differ from num_features")
   | denorm =>
       self <- get ;;
       match mean self, stdev self with
       | Some mu, Some sigma =>
           if (dim2 x =? num_features self)%nat
              && (dim2 mu =? dim2 x)%nat && (dim2 sigma =? dim2 x)%nat
              && (length (items mu) =? length (items x))%nat
              && (length (items sigma) =? length (items x))%nat
           then ret (denormalize self x mu sigma)
           else raise (RuntimeError "statistics of another shape")
       | _, _ => raise (AttributeError "RevIN" "mean")
       end
   end)%monad.
End Normaliser.

(* ------------------------------------------------------------------ *)
(** * SAMFormerArchitecture *)
(* ------------------------------------------------------------------ *)

(** The fields assigned by [__init__], the [training] flag every
    [nn.Module] carries, and [grads]: the [.grad] of each parameter, in
    the order of [parameters]. *)
Record SAMFormerArchitecture : Type := {
  revin : RevIN;
  compute_keys : Linear;
  compute_queries : Linear;
  compute_values : Linear;
  linear_forecaster : Linear;
  use_revin : bool;
  training : bool;
  grads : list (list R)
}.

Definition set_revin (r : RevIN) (net : SAMFormerArchitecture) : SAMFormerArchitecture :=
  {| revin := r;
     compute_keys := compute_keys net;
     compute_queries := compute_queries net;
     compute_values := compute_values net;
     linear_forecaster := linear_forecaster net;
     use_revin := use_revin net;
     training := training net;
     grads := grads net |}.

Definition set_training (b : bool) (net : SAMFormerArchitecture) : SAMFormerArchitecture :=
  {| revin := revin net;
     compute_keys := compute_keys net;
     compute_queries := compute_queries net;
     compute_values := compute_values net;
     linear_forecaster := linear_forecaster net;
     use_revin := use_revin net;
     training := b;
     grads := grads net |}.

Definition set_grads (g : list (list R)) (net : SAMFormerArchitecture) : SAMFormerArchitecture :=
  {| revin := revin net;
     compute_keys := compute_keys net;
     compute_queries := compute_queries net;
     compute_values := compute_values net;
     linear_forecaster := linear_forecaster net;
     use_revin := use_revin net;
     training := training net;
     grads := g |}.

(** [self.revin(x, mode=...)] inside a method of the network. *)
Definition self_revin (x : tensor3) (mode : revin_mode) : M SAMFormerArchitecture tensor3 :=
  zoom revin set_revin (RevIN_call x mode).

(** What [forward] returns: a 2-D tensor when [flatten_output], the 3-D
    one otherwise. *)
Definition forward_output (flatten_output : bool) : Type :=
  if flatten_output then tensor2 else tensor3.

(** [SAMFormerArchitecture.forward].  [fused] is
    [hasattr(nn.functional, 'scaled_dot_product_attention')]. *)
Definition forward (fused : bool) (x : tensor3) (flatten_output : bool)
  : M SAMFormerArchitecture (forward_output flatten_output) :=
  (self <- get ;;
   (* RevIN Normalization *)
   x_norm <- (if use_revin self
              then t <- self_revin (transpose12 x) norm ;; ret (transpose12 t)
              else ret x) ;;
   (* Channel-Wise Attention *)
   queries <- lift_result (Linear_call (compute_queries self) x_norm) ;;
   keys <- lift_result (Linear_call (compute_keys self) x_norm) ;;
   values <- lift_result (Linear_call (compute_values self) x_norm) ;;
   att_score <- lift_result
                  (if fused
                   then F_scaled_dot_product_attention queries keys values
                   else scaled_dot_product_attention queries keys values) ;;
   out <- lift_result (tensor_add x_norm att_score) ;;
   (* Linear Forecasting *)
   out <- lift_result (Linear_call (linear_forecaster self) out) ;;
   (* RevIN Denormalization *)
   out <- (if use_revin self
           then t <- self_revin (transpose12 out) denorm ;; ret (transpose12 t)
           else ret out) ;;
   match flatten_output return M _ (forward_output flatten_output) with
   | true => ret (flatten12 out)
   | false => ret out
   end)%monad.

(** [nn.Module.parameters()]: the parameter tensors in registration
    order, each one flattened. *)
Definition parameters (net : SAMFormerArchitecture) : list (list R) :=
  [ affine_weight (revin net); affine_bias (revin net);
    weight (compute_keys net); bias (compute_keys net);
    weight (compute_queries net); bias (compute_queries net);
    weight (compute_values net); bias (compute_values net);
    weight (linear_forecaster net); bias (linear_forecaster net) ].

Definition set_weight (w b : list R) (l : Linear) : Linear :=
  {| in_features := in_features l;
     out_features := out_features l;
     weight := w;
     bias := b |}.

(** In-place assignment of new values to the parameter tensors, as the
    optimizers do it: the network and the optimizer share them. *)
Definition assign_parameters (p : list (list R)) (net : SAMFormerArchitecture)
  : SAMFormerArchitecture :=
  {| revin :=
       {| num_features := num_features (revin net);
          eps := eps (revin net);
          affine_weight := nth 0 p [];
          affine_bias := nth 1 p [];
          mean := mean (revin net);
          stdev := stdev (revin net) |};
     compute_keys := set_weight (nth 2 p []) (nth 3 p []) (compute_keys net);
     compute_queries := set_weight (nth 4 p []) (nth 5 p []) (compute_queries net);
     compute_values := set_weight (nth 6 p []) (nth 7 p []) (compute_values net);
     linear_forecaster := set_weight (nth 8 p []) (nth 9 p []) (linear_forecaster net);
     use_revin := use_revin net;
     training := training net;
     grads := grads net |}.

(* ------------------------------------------------------------------ *)
(** * What the trainer takes from torch *)
(* ------------------------------------------------------------------ *)

(** The output of a network call: the numbers and, when gradients are
    tracked, the graph that produced them (the network as it was, and
    the input). *)
Record traced : Type := {
  data : tensor2;
  grad_fn : option (SAMFormerArchitecture * tensor3)
}.

(** The loss tensor: its value and the graph [backward] walks. *)
Record loss_t : Type := {
  item : R;
  loss_graph : option (SAMFormerArchitecture * tensor3 * tensor2)
}.

(** The parts of torch and of the absent [utils] modules that no
    statement below looks into: random generators and what draws from
    them, automatic differentiation, the base optimizers, and the
    constants the spec leaves unnamed. *)
Class Torch : Type := {
  generator : Type;
  (** the generator right after seeding it *)
  manual_seed : Z -> generator;
  (** [nn.Linear(in_features, out_features)] draws its weight and bias *)
  linear_init : nat -> nat -> generator -> list R * list R * generator;
  (** a shuffling loader draws the order of one pass over [n] samples *)
  shuffled : nat -> generator -> list nat * generator;
  (** [hasattr(nn.functional, 'scaled_dot_product_attention')] *)
  has_fused_attention : bool;
  (** gradient of [criterion(network(x), y)] in the parameters *)
  gradient : SAMFormerArchitecture -> tensor3 -> tensor2 -> list (list R);
  (** [torch.optim.Adam] and the like: constructor and [step] *)
  optimizer_class : Type;
  optimizer_state : Type;
  optimizer_init : optimizer_class -> list (list R) -> R -> R -> optimizer_state;
  optimizer_update : optimizer_class -> optimizer_state -> list (list R) ->
                     list (list R) -> list (list R) * optimizer_state;
  (** what [torch.cat] raises for an empty list: RuntimeError in some
      releases, ValueError in others *)
  cat_empty_error : exn;
  (** defaults of [RevIN(num_features)] and the epsilon of [SAM] *)
  revin_eps : R;
  revin_weight : R;
  revin_bias : R;
  sam_eps : R
}.

(* ------------------------------------------------------------------ *)
(** * SAMFormer: state *)
(* ------------------------------------------------------------------ *)

Inductive criterion_t : Type := MSELoss.

Section Trainer.
Context {torch : Torch}.
Local Open Scope R_scope.

(** The attributes set by [SAMFormer.__init__]. *)
Record SAMFormer : Type := {
  network : option SAMFormerArchitecture;
  criterion : criterion_t;
  device : string;
  num_epochs : nat;
  batch_size : nat;
  base_optimizer : optimizer_class;
  learning_rate : R;
  weight_decay : R;
  rho : R;
  self_use_revin : bool;      (* [self.use_revin] *)
  random_state : option Z
}.

(** [SAMFormer.__init__]; the python defaults are those of the caller. *)
Definition SAMFormer_init (device : string) (num_epochs batch_size : nat)
    (base_optimizer : optimizer_class) (learning_rate weight_decay rho : R)
    (use_revin : bool) (random_state : option Z) : SAMFormer :=
  {| network := None;
     criterion := MSELoss;
     device := device;
     num_epochs := num_epochs;
     batch_size := batch_size;
     base_optimizer := base_optimizer;
     learning_rate := learning_rate;
     weight_decay := weight_decay;
     rho := rho;
     self_use_revin := use_revin;
     random_state := random_state |}.

(** The global generators [fit] seeds. *)
Record generators : Type := {
  torch_rng : generator;
  python_rng : generator;
  numpy_rng : generator;
  cuda_rng : generator
}.

(** What a method of the trainer can change: the object and the global
    generators. *)
Record world : Type := {
  this : SAMFormer;
  rng : generators
}.

Definition set_network (n : option SAMFormerArchitecture) (w : world) : world :=
  {| this :=
       {| network := n;
          criterion := criterion (this w);
          device := device (this w);
          num_epochs := num_epochs (this w);
          batch_size := batch_size (this w);
          base_optimizer := base_optimizer (this w);
          learning_rate := learning_rate (this w);
          weight_decay := weight_decay (this w);
          rho := rho (this w);
          self_use_revin := self_use_revin (this w);
          random_state := random_state (this w) |};
     rng := rng w |}.

Definition set_rng (g : generators) (w : world) : world :=
  {| this := this w; rng := g |}.

Definition set_torch_rng (g : generator) (w : world) : world :=
  set_rng {| torch_rng := g;
             python_rng := python_rng (rng w);
             numpy_rng := numpy_rng (rng w);
             cuda_rng := cuda_rng (rng w) |} w.

(** [self.network.<attr>...]: the method [m] of the network, or the
    exception python raises when [self.network] is still [None]. *)
Definition self_network {A} (if_none : exn) (m : M SAMFormerArchitecture A) : M world A :=
  fun w =>
    match network (this w) with
    | None => Outcome (Raise if_none) w []
    | Some net =>
        match m net with
        | Outcome r net' ev => Outcome r (set_network (Some net') w) ev
        end
    end.

Definition not_callable : exn := TypeError "'NoneType' object is not callable".

Definition get_self : M world SAMFormer :=
  (w <- get ;; ret (this w))%monad.

(** [self.network = n] *)
Definition assign_network (n : SAMFormerArchitecture) : M world unit :=
  (w <- get ;; put (set_network (Some n) w))%monad.

(* ---------------------------------------------------------------- *)
(** ** Seeding *)

(** [torch.manual_seed(s)] takes a seed from -2**63 to 2**64 - 1 and
    raises RuntimeError for any other. *)
Definition torch_manual_seed (s : Z) : M world unit :=
  (emit (ManualSeed s) ;;
   if ((-9223372036854775808 <=? s) && (s <=? 18446744073709551615))%Z
   then w <- get ;;
        put (set_torch_rng (manual_seed s) w)
   else raise (RuntimeError "Overflow when unpacking long"))%monad.

(** [random.seed(s)] takes every integer. *)
Definition random_seed (s : Z) : M world unit :=
  (emit (RandomSeed s) ;;
   w <- get ;;
   put (set_rng {| torch_rng := torch_rng (rng w);
                   python_rng := manual_seed s;
                   numpy_rng := numpy_rng (rng w);
                   cuda_rng := cuda_rng (rng w) |} w))%monad.

(** [np.random.seed(s)] takes a seed from 0 to 2**32 - 1 and raises
    ValueError for any other. *)
Definition np_random_seed (s : Z) : M world unit :=
  (emit (NumpySeed s) ;;
   if ((0 <=? s) && (s <=? 4294967295))%Z
   then w <- get ;;
        put (set_rng {| torch_rng := torch_rng (rng w);
                        python_rng := python_rng (rng w);
                        numpy_rng := manual_seed s;
                        cuda_rng := cuda_rng (rng w) |} w)
   else raise (ValueError "Seed must be between 0 and 2**32 - 1"))%monad.

(** [torch.cuda.manual_seed_all(s)]: [fit] reaches it only with a
    seed that numpy has accepted, which every generator takes. *)
Definition torch_cuda_manual_seed_all (s : Z) : M world unit :=
  (emit (CudaSeedAll s) ;;
   w <- get ;;
   put (set_rng {| torch_rng := torch_rng (rng w);
                   python_rng := python_rng (rng w);
                   numpy_rng := numpy_rng (rng w);
                   cuda_rng := manual_seed s |} w))%monad.

(* ---------------------------------------------------------------- *)
(** ** Building the network *)

(** [nn.Linear(in_features, out_features)]: the initial values come
    from torch's global generator. *)
Definition Linear_init (in_f out_f : nat) : M world Linear :=
  (w <- get ;;
   let '(wt, b, g) := linear_init in_f out_f (torch_rng (rng w)) in
   put (set_torch_rng g w) ;;
   ret {| in_features := in_f; out_features := out_f; weight := wt; bias := b |})%monad.

(** Modelled from the spec: [RevIN(num_features)] of the absent
    [utils/revin.py] holds one affine pair per channel and no
    statistics yet. *)
Definition RevIN_init (n : nat) : RevIN :=
  {| num_features := n;
     eps := revin_eps;
     affine_weight := repeat revin_weight n;
     affine_bias := repeat revin_bias n;
     mean := None;
     stdev := None |}.

Definition zeros_like (p : list (list R)) : list (list R) :=
  map (map (fun _ => 0)) p.

(** [SAMFormerArchitecture.__init__].  A fresh module is in training
    mode and its parameters have no gradient yet (a zero one here:
    gradients are only ever accumulated into). *)
Definition SAMFormerArchitecture_init (num_channels seq_len hid_dim pred_horizon : nat)
    (use_revin : bool) : M world SAMFormerArchitecture :=
  (emit (Allocate num_channels seq_len hid_dim pred_horizon use_revin) ;;
   let revin := RevIN_init num_channels in
   compute_keys <- Linear_init seq_len hid_dim ;;
   compute_queries <- Linear_init seq_len hid_dim ;;
   compute_values <- Linear_init seq_len seq_len ;;
   linear_forecaster <- Linear_init seq_len pred_horizon ;;
   let net := {| revin := revin;
                 compute_keys := compute_keys;
                 compute_queries := compute_queries;
                 compute_values := compute_values;
                 linear_forecaster := linear_forecaster;
                 use_revin := use_revin;
                 training := true;
                 grads := [] |} in
   ret (set_grads (zeros_like (parameters net)) net))%monad.

(** [self.network.train()] and [self.network.eval()] *)
Definition network_train : M world unit :=
  self_network (AttributeError "NoneType" "train")
    (emit Train ;; net <- get ;; put (set_training true net))%monad.

Definition network_eval : M world unit :=
  self_network (AttributeError "NoneType" "eval")
    (emit Eval ;; net <- get ;; put (set_training false net))%monad.

(** [self.network(x)], inside [torch.no_grad()] or not. *)
Definition network_call (grad_enabled : bool) (x : tensor3) : M world traced :=
  self_network not_callable
    (emit (Forward grad_enabled) ;;
     net <- get ;;
     out <- forward has_fused_attention x true ;;
     ret {| data := out;
            grad_fn := if grad_enabled then Some (net, x) else None |})%monad.

(* ---------------------------------------------------------------- *)
(** ** Loss and gradients *)

Definition cell (t : tensor2) (i j : nat) : R :=
  nth j (nth i (rows t) []) 0.

Definition broadcastable (n m : nat) : bool :=
  (n =? m)%nat || (n =? 1)%nat || (m =? 1)%nat.

Definition broadcast_dim (n m : nat) : nat :=
  if (n =? 1)%nat then m else n.

Definition broadcast_index (n i : nat) : nat :=
  if (n =? 1)%nat then 0%nat else i.

Definition mean_squared_error (out y : tensor2) : R :=
  let '(n, a) := shape2 out in
  let '(m, b) := shape2 y in
  let rows_ := broadcast_dim n m in
  let cols_ := broadcast_dim a b in
  sum_upto rows_
    (fun i => sum_upto cols_
       (fun j =>
          let d := cell out (broadcast_index n i) (broadcast_index a j)
                   - cell y (broadcast_index m i) (broadcast_index b j) in
          d * d))
  / INR (rows_ * cols_).

(** [nn.MSELoss()(out, y)]: the mean of the squared differences, the
    two operands broadcast against each other. *)
Definition mse_loss (out y : tensor2) : result R :=
  if broadcastable (length (rows out)) (length (rows y))
     && broadcastable (width out) (width y)
  then Ok (mean_squared_error out y)
  else Raise (RuntimeError "The size of tensor a must match the size of tensor b").

(** [self.criterion(out_batch, y_batch)] *)
Definition criterion_call (out : traced) (y : tensor2) : M world loss_t :=
  (emit Loss ;;
   v <- lift_result (mse_loss (data out) y) ;;
   ret {| item := v;
          loss_graph := match grad_fn out with
                        | Some (net, x) => Some (net, x, y)
                        | None => None
                        end |})%monad.

(** [p] combined entry by entry with [g]; an entry [g] lacks counts as
    zero, as a missing [.grad] does.  The result has the shape of [p]. *)
Fixpoint pointwise1 (f : R -> R -> R) (p g : list R) : list R :=
  match p with
  | [] => []
  | v :: p' => f v (hd 0 g) :: pointwise1 f p' (tl g)
  end.

Fixpoint pointwise (f : R -> R -> R) (p g : list (list R)) : list (list R) :=
  match p with
  | [] => []
  | v :: p' => pointwise1 f v (hd [] g) :: pointwise f p' (tl g)
  end.

(** The parameter tensors are those of the network in [self.network];
    [fit] touches them only after it has assigned that attribute. *)
Definition update_parameters (f : SAMFormerArchitecture -> SAMFormerArchitecture)
  : M world unit :=
  (w <- get ;;
   match network (this w) with
   | Some net => put (set_network (Some (f net)) w)
   | None => ret tt
   end)%monad.

Definition current_network : M world SAMFormerArchitecture :=
  (w <- get ;;
   match network (this w) with
   | Some net => ret net
   | None => raise (AttributeError "NoneType" "parameters")
   end)%monad.

(** [loss.backward()]: the gradient of the loss, taken where the
    forward pass ran, is accumulated into the [.grad] of the
    parameters. *)
Definition backward (loss : loss_t) : M world unit :=
  (emit Backward ;;
   match loss_graph loss with
   | Some (net, x, y) =>
       update_parameters
         (fun cur => set_grads (pointwise Rplus (grads cur) (gradient net x y)) cur)
   | None =>
       raise (RuntimeError "element 0 of tensors does not require grad")
   end)%monad.

(* ---------------------------------------------------------------- *)
(** ** The optimizer *)

(** The optimizer object [fit] trains with.  [e_w] is the cached
    displacement of the ascent step; [base_state] is the wrapped base
    optimizer. *)
Record Optimizer : Type := {
  class_name : string;              (* [optimizer.__class__.__name__] *)
  sam_rho : R;
  e_w : option (list (list R));
  base_class : optimizer_class;
  base_state : optimizer_state
}.

(** Modelled from the spec: [SAM(params, base_optimizer, rho, **kwargs)]
    of the absent [utils/sam.py] wraps a base optimizer built on the
    same parameters; its class is the [SAM] imported by the trainer. *)
Definition SAM (params : list (list R)) (base_optimizer : optimizer_class)
    (rho lr weight_decay : R) : Optimizer :=
  {| class_name := "SAM";
     sam_rho := rho;
     e_w := None;
     base_class := base_optimizer;
     base_state := optimizer_init base_optimizer params lr weight_decay |}.

Definition tensor_norm (g : list R) : R :=
  sqrt (sum_list (map (fun v => v * v) g)).

(** Modelled from the spec: the norm of the stack of per-tensor norms. *)
Definition grad_norm (g : list (list R)) : R :=
  tensor_norm (map tensor_norm g).

(** Modelled from the spec: [rho * gradient / (global_gradient_norm + eps)]. *)
Definition displacement (rho : R) (g : list (list R)) : list (list R) :=
  map (map (fun v => rho * v / (grad_norm g + sam_eps))) g.

Definition zero_gradients (net : SAMFormerArchitecture) : SAMFormerArchitecture :=
  set_grads (zeros_like (grads net)) net.

(** Modelled from the spec ([ascent_step]): move every parameter by the
    displacement, cache the displacement, optionally zero the
    gradients. *)
Definition SAM_first_step (opt : Optimizer) (zero_grad : bool) : M world Optimizer :=
  (emit (FirstStep zero_grad) ;;
   net <- current_network ;;
   let e := displacement (sam_rho opt) (grads net) in
   update_parameters (assign_parameters (pointwise Rplus (parameters net) e)) ;;
   (if zero_grad then update_parameters zero_gradients else ret tt) ;;
   ret {| class_name := class_name opt;
          sam_rho := sam_rho opt;
          e_w := Some e;
          base_class := base_class opt;
          base_state := base_state opt |})%monad.

(** Modelled from the spec ([descent_step]): take the cached
    displacement back out (nothing to take out when none is cached),
    then let the base optimizer update the parameters with the
    gradient at hand; the cache is cleared; optionally zero the
    gradients. *)
Definition SAM_second_step (opt : Optimizer) (zero_grad : bool) : M world Optimizer :=
  (emit (SecondStep zero_grad) ;;
   net <- current_network ;;
   let restored := match e_w opt with
                   | Some e => pointwise Rminus (parameters net) e
                   | None => parameters net
                   end in
   let '(p, st) := optimizer_update (base_class opt) (base_state opt)
                     restored (grads net) in
   update_parameters (assign_parameters p) ;;
   (if zero_grad then update_parameters zero_gradients else ret tt) ;;
   ret {| class_name := class_name opt;
          sam_rho := sam_rho opt;
          e_w := None;
          base_class := base_class opt;
          base_state := st |})%monad.

(** [optimizer.zero_grad()] and [optimizer.step()] of an optimizer
    that is not sharpness-aware. *)
Definition optimizer_zero_grad (opt : Optimizer) : M world unit :=
  (emit ZeroGrad ;; update_parameters zero_gradients)%monad.

Definition optimizer_step (opt : Optimizer) : M world Optimizer :=
  (emit Step ;;
   net <- current_network ;;
   let '(p, st) := optimizer_update (base_class opt) (base_state opt)
                     (parameters net) (grads net) in
   update_parameters (assign_parameters p) ;;
   ret {| class_name := class_name opt;
          sam_rho := sam_rho opt;
          e_w := e_w opt;
          base_class := base_class opt;
          base_state := st |})%monad.

(* ---------------------------------------------------------------- *)
(** ** Datasets and loaders *)

(** [l[i] for i in idxs] *)
Fixpoint gather {A} (l : list A) (idxs : list nat) : result (list A) :=
  match idxs with
  | [] => Ok []
  | i :: idxs' =>
      match nth_error l i with
      | None => Raise IndexError
      | Some a =>
          match gather l idxs' with
          | Ok r => Ok (a :: r)
          | Raise e => Raise e
          end
      end
  end.

(** Modelled from the spec: [LabeledDataset(x, y)] of the absent
    [utils/dataset.py] pairs sample [i] of [x] with target [i] of [y];
    it has as many items as [x] has samples. *)
Record LabeledDataset : Type := {
  examples : tensor3;
  labels : tensor2
}.

Definition dataset_len (d : LabeledDataset) : nat := length (items (examples d)).

(** The batch a loader collates from the items [idxs]. *)
Definition fetch (d : LabeledDataset) (idxs : list nat) : result (tensor3 * tensor2) :=
  match gather (items (examples d)) idxs with
  | Raise e => Raise e
  | Ok xs =>
      match gather (rows (labels d)) idxs with
      | Raise e => Raise e
      | Ok ys =>
          Ok ({| dim1 := dim1 (examples d); dim2 := dim2 (examples d); items := xs |},
              {| width := width (labels d); rows := ys |})
      end
  end.

(** Consecutive pieces of [bs] elements, the last one possibly shorter;
    [fuel] bounds the number of pieces. *)
Fixpoint chunks_upto {A} (fuel bs : nat) (l : list A) : list (list A) :=
  match fuel with
  | O => []
  | S fuel' =>
      match l with
      | [] => []
      | _ :: _ => firstn bs l :: chunks_upto fuel' bs (skipn bs l)
      end
  end.

Definition chunks {A} (bs : nat) (l : list A) : list (list A) :=
  chunks_upto (length l) bs l.

Record DataLoader : Type := {
  dataset_size : nat;
  loader_batch_size : nat;
  shuffle : bool
}.

(** [DataLoader(dataset, batch_size=bs, shuffle=...)]: a shuffling
    loader refuses an empty dataset, every loader a batch size of 0. *)
Definition DataLoader_init (n bs : nat) (shuffle : bool) : result DataLoader :=
  if shuffle && (n =? 0)%nat
  then Raise (ValueError "num_samples should be a positive integer value")
  else if (bs =? 0)%nat
  then Raise (ValueError "batch_size should be a positive integer value")
  else Ok {| dataset_size := n; loader_batch_size := bs; shuffle := shuffle |}.

(** Starting one pass over the loader: the indices of every batch, in
    a fresh random order when shuffling, in order otherwise. *)
Definition batches_of (d : DataLoader) : M world (list (list nat)) :=
  (if shuffle d
   then
     w <- get ;;
     let '(order, g) := shuffled (dataset_size d) (torch_rng (rng w)) in
     put (set_torch_rng g w) ;;
     ret (chunks (loader_batch_size d) order)
   else ret (chunks (loader_batch_size d) (seq 0 (dataset_size d))))%monad.

(* ---------------------------------------------------------------- *)
(** ** SAMFormer.fit *)

(** [a // b] on sizes *)
Definition floor_div (a b : nat) : result nat :=
  if (b =? 0)%nat then Raise ZeroDivisionError else Ok (a / b)%nat.

Definition np_mean (l : list R) : R :=
  sum_list l / INR (length l).

(** The body of the batch loop, from the forward pass to the optimizer
    update (lines 97-113).  The optimizer is a local variable: the
    step returns it as it has become, with the loss that
    [loss_list.append(loss.item())] then reads. *)
Definition train_step (optimizer : Optimizer) (x_batch : tensor3) (y_batch : tensor2)
  : M world (Optimizer * loss_t) :=
  ((* =============== forward =============== *)
   out_batch <- network_call true x_batch ;;
   loss <- criterion_call out_batch y_batch ;;
   (* =============== backward =============== *)
   if (class_name optimizer =? "SAM")%string
   then
     backward loss ;;
     optimizer <- SAM_first_step optimizer true ;;

     out_batch <- network_call true x_batch ;;
     loss <- criterion_call out_batch y_batch ;;

     backward loss ;;
     optimizer <- SAM_second_step optimizer true ;;
     ret (optimizer, loss)
   else
     optimizer_zero_grad optimizer ;;
     backward loss ;;
     optimizer <- optimizer_step optimizer ;;
     ret (optimizer, loss))%monad.

(** The body of the batch loop (lines 94-114); [loss_list] is the
    other local variable it updates. *)
Definition batch_body (train_dataset : LabeledDataset) (locals : Optimizer * list R)
    (idxs : list nat) : M world (Optimizer * list R) :=
  let (optimizer, loss_list) := locals in
  ('(x_batch, y_batch) <- lift_result (fetch train_dataset idxs) ;;
   '(optimizer, loss) <- train_step optimizer x_batch y_batch ;;
   ret (optimizer, loss_list ++ [item loss]))%monad.

(** One pass over the loader (lines 93-114). *)
Definition train_epoch (train_dataset : LabeledDataset) (batches : list (list nat))
    (optimizer : Optimizer) : M world (Optimizer * list R) :=
  for_each batches (batch_body train_dataset) (optimizer, []).

Definition seed_everything (random_state : option Z) : M world unit :=
  match random_state with
  | Some s =>
      (torch_manual_seed s ;;
       random_seed s ;;
       np_random_seed s ;;
       torch_cuda_manual_seed_all s)%monad
  | None => ret tt
  end.

(** Lines 79-90: the network, the optimizer and the loader. *)
Definition fit_setup (x : tensor3) (y : tensor2)
  : M world (Optimizer * LabeledDataset * DataLoader) :=
  (self <- get_self ;;
   pred_horizon <- lift_result (floor_div (width y) (dim1 x)) ;;
   net <- SAMFormerArchitecture_init (dim1 x) (dim2 x) 16 pred_horizon
            (self_use_revin self) ;;
   assign_network net ;;
   network_train ;;

   net <- current_network ;;
   let optimizer := SAM (parameters net) (base_optimizer self) (rho self)
                        (learning_rate self) (weight_decay self) in

   let train_dataset := {| examples := x; labels := y |} in
   data_loader_train <- lift_result
                          (DataLoader_init (dataset_len train_dataset)
                                           (batch_size self) true) ;;
   ret (optimizer, train_dataset, data_loader_train))%monad.

(** The body of the epoch loop (lines 93-118). *)
Definition epoch_body (train_dataset : LabeledDataset) (data_loader_train : DataLoader)
    (optimizer : Optimizer) (epoch : nat) : M world Optimizer :=
  (batches <- batches_of data_loader_train ;;
   '(optimizer, loss_list) <- train_epoch train_dataset batches optimizer ;;
   (* =============== save model / update log =============== *)
   let train_loss := np_mean loss_list in
   network_train ;;
   emit (SetDescription epoch train_loss) ;;
   ret optimizer)%monad.

(** Lines 91-118: the epoch loop. *)
Definition fit_loop (num_epochs : nat) (train_dataset : LabeledDataset)
    (data_loader_train : DataLoader) (optimizer : Optimizer) : M world Optimizer :=
  for_each (seq 0 num_epochs) (epoch_body train_dataset data_loader_train) optimizer.

(** [SAMFormer.fit] *)
Definition fit (x : tensor3) (y : tensor2) : M world unit :=
  (self <- get_self ;;
   seed_everything (random_state self) ;;
   '(optimizer, train_dataset, data_loader_train) <- fit_setup x y ;;
   _ <- fit_loop (num_epochs self) train_dataset data_loader_train optimizer ;;
   ret tt)%monad.

(* ---------------------------------------------------------------- *)
(** ** SAMFormer.forecast and SAMFormer.predict *)

(** [SAMFormer.forecast] *)
Definition forecast (x : tensor3) (batch_size : nat) : M world tensor2 :=
  (network_eval ;;
   let dataset := x in
   dataloader <- lift_result (DataLoader_init (length (items dataset)) batch_size false) ;;
   batches <- batches_of dataloader ;;
   outs <- for_each batches
             (fun outs idxs =>
                xs <- lift_result (gather (items dataset) idxs) ;;
                let x := {| dim1 := dim1 dataset; dim2 := dim2 dataset; items := xs |} in
                out <- network_call false x ;;
                ret (outs ++ [data out]))
             [] ;;
   outs <- lift_result (torch_cat cat_empty_error outs) ;;
   ret outs)%monad.

(** [SAMFormer.predict] *)
Definition predict (x : tensor3) (batch_size : nat) : M world tensor2 :=
  forecast x batch_size.
End Trainer.

(* ------------------------------------------------------------------ *)
(** * The forward pass, step by step *)
(* ------------------------------------------------------------------ *)

(** The six steps of the forward pass as the specification words them,
    as pure functions: no hidden state, the statistics are handed from
    the normalisation to the denormalisation. *)
Section ForwardSteps.
Variable net : SAMFormerArchitecture.

(** Step 1: normalise along the time axis, between two transposes. *)
Definition step_normalise (x : tensor3) : tensor3 * option (tensor3 * tensor3) :=
  if use_revin net
  then
    let (mu, sigma) := statistics_of (transpose12 x) in
    (transpose12 (normalize (revin net) (transpose12 x) mu sigma), Some (mu, sigma))
  else (x, None).

(** Step 2: projections and scaled dot-product attention. *)
Definition step_attention (x_norm : tensor3) : tensor3 :=
  attention_map (linear_map (compute_queries net) x_norm)
                (linear_map (compute_keys net) x_norm)
                (linear_map (compute_values net) x_norm).

(** Step 3: residual sum. *)
Definition step_residual (x_norm att : tensor3) : tensor3 :=
  add_entries x_norm att.

(** Step 4: forecast head. *)
Definition step_head (t : tensor3) : tensor3 :=
  linear_map (linear_forecaster net) t.

(** Step 5: denormalise with the statistics of step 1. *)
Definition step_denormalise (stats : option (tensor3 * tensor3)) (out : tensor3) : tensor3 :=
  match stats with
  | Some (mu, sigma) =>
      transpose12 (denormalize (revin net) (transpose12 out) mu sigma)
  | None => out
  end.

Definition forward_steps3 (x : tensor3) : tensor3 :=
  let (x_norm, stats) := step_normalise x in
  step_denormalise stats
    (step_head (step_residual x_norm (step_attention x_norm))).

(** Step 6: flatten channels and horizon, or not. *)
Definition forward_steps (x : tensor3) (flatten_output : bool)
  : forward_output flatten_output :=
  match flatten_output return forward_output flatten_output with
  | true => flatten12 (forward_steps3 x)
  | false => forward_steps3 x
  end.

(** The network's statistics once a forward pass on [x] is over. *)
Definition revin_after (x : tensor3) : RevIN :=
  if use_revin net
  then
    let (mu, sigma) := statistics_of (transpose12 x) in
    set_statistics (Some mu) (Some sigma) (revin net)
  else revin net.

(** The forward pass of one sample ([d] channels, [l] time steps). *)
Definition forward_sample (d l : nat) (s : list R) : list R :=
  let h := out_features (linear_forecaster net) in
  let st := transpose_sample d l s in
  let mu := sample_mean l d st in
  let sigma := sample_stdev l d st in
  let x_norm :=
    if use_revin net
    then transpose_sample l d (normalize_sample (revin net) l d st mu sigma)
    else s in
  let queries := linear_sample (compute_queries net) d x_norm in
  let keys := linear_sample (compute_keys net) d x_norm in
  let values := linear_sample (compute_values net) d x_norm in
  let att_score :=
    attention_sample d d (out_features (compute_queries net))
                     (out_features (compute_values net)) queries keys values in
  let out := linear_sample (linear_forecaster net) d (zip_with Rplus x_norm att_score) in
  if use_revin net
  then transpose_sample h d
         (denormalize_sample (revin net) h d (transpose_sample d h out) mu sigma)
  else out.
End ForwardSteps.

(** The dimensions [SAMFormerArchitecture.__init__] gives the layers. *)
Record fits (net : SAMFormerArchitecture) (channels seq_len horizon : nat) : Prop := {
  fits_queries : in_features (compute_queries net) = seq_len;
  fits_keys : in_features (compute_keys net) = seq_len;
  fits_hidden : out_features (compute_queries net) = out_features (compute_keys net);
  fits_values_in : in_features (compute_values net) = seq_len;
  fits_values_out : out_features (compute_values net) = seq_len;
  fits_head_in : in_features (linear_forecaster net) = seq_len;
  fits_head_out : out_features (linear_forecaster net) = horizon;
  fits_channels : use_revin net = true -> num_features (revin net) = channels
}.

(* ------------------------------------------------------------------ *)
(** * Vocabulary for the statements about the trainer *)
(* ------------------------------------------------------------------ *)

(** The sizes of the layers: what no call of the trainer changes. *)
Definition layout (net : SAMFormerArchitecture)
  : (nat * nat) * (nat * nat) * (nat * nat) * (nat * nat) * (nat * bool) :=
  ((in_features (compute_keys net), out_features (compute_keys net)),
   (in_features (compute_queries net), out_features (compute_queries net)),
   (in_features (compute_values net), out_features (compute_values net)),
   (in_features (linear_forecaster net), out_features (linear_forecaster net)),
   (num_features (revin net), use_revin net)).

Definition all_zero (g : list (list R)) : Prop :=
  Forall (Forall (fun v => v = 0%R)) g.

(** The calls of one batch in the two branches of the batch loop, as
    the source orders them. *)
Definition sam_calls : list event :=
  [ Forward true; Loss; Backward; FirstStep true;
    Forward true; Loss; Backward; SecondStep true ].

Definition plain_calls : list event :=
  [ Forward true; Loss; ZeroGrad; Backward; Step ].

(** The calls that seed the generators. *)
Definition seed_calls (random_state : option Z) : list event :=
  match random_state with
  | Some s => [ManualSeed s; RandomSeed s; NumpySeed s; CudaSeedAll s]
  | None => []
  end.

(** The seeds every seeding call of [fit] accepts: those of numpy, the
    narrowest range; and a configuration [fit] can seed with: no seed,
    or such a seed. *)
Definition seed_in_range (s : Z) : Prop := (0 <= s <= 4294967295)%Z.

Definition usable_seed (random_state : option Z) : Prop :=
  match random_state with
  | Some s => seed_in_range s
  | None => True
  end.

(** The exception python itself raises when an attribute of [None] is
    looked up, or [None] is called. *)
Definition dereferences_none (e : exn) : bool :=
  match e with
  | AttributeError t _ => String.eqb t "NoneType"
  | TypeError m => String.eqb m "'NoneType' object is not callable"
  | _ => false
  end.

Section TrainerVocabulary.
Context {torch : Torch}.

(** The network where [forward] leaves it, where [backward] leaves it
    and where the ascent step leaves it. *)
Definition after_forward (net : SAMFormerArchitecture) (x : tensor3) : SAMFormerArchitecture :=
  set_revin (revin_after net x) net.

Definition after_backward (at_net : SAMFormerArchitecture) (x : tensor3) (y : tensor2)
    (net : SAMFormerArchitecture) : SAMFormerArchitecture :=
  set_grads (pointwise Rplus (grads net) (gradient at_net x y)) net.

Definition after_first_step (rho : R) (net : SAMFormerArchitecture) : SAMFormerArchitecture :=
  zero_gradients
    (assign_parameters
       (pointwise Rplus (parameters net) (displacement rho (grads net))) net).

(** The network where the descent step, or the step of a plain
    optimizer, leaves it, and the optimizer object after each step. *)
Definition restored_parameters (opt : Optimizer) (net : SAMFormerArchitecture)
  : list (list R) :=
  match e_w opt with
  | Some e => pointwise Rminus (parameters net) e
  | None => parameters net
  end.

Definition after_second_step (opt : Optimizer) (net : SAMFormerArchitecture)
  : SAMFormerArchitecture :=
  zero_gradients
    (assign_parameters
       (fst (optimizer_update (base_class opt) (base_state opt)
               (restored_parameters opt net) (grads net))) net).

Definition after_step (opt : Optimizer) (net : SAMFormerArchitecture)
  : SAMFormerArchitecture :=
  assign_parameters
    (fst (optimizer_update (base_class opt) (base_state opt)
            (parameters net) (grads net))) net.

Definition ascended (opt : Optimizer) (net : SAMFormerArchitecture) : Optimizer :=
  {| class_name := class_name opt;
     sam_rho := sam_rho opt;
     e_w := Some (displacement (sam_rho opt) (grads net));
     base_class := base_class opt;
     base_state := base_state opt |}.

Definition descended (opt : Optimizer) (net : SAMFormerArchitecture) : Optimizer :=
  {| class_name := class_name opt;
     sam_rho := sam_rho opt;
     e_w := None;
     base_class := base_class opt;
     base_state := snd (optimizer_update (base_class opt) (base_state opt)
                          (restored_parameters opt net) (grads net)) |}.

Definition stepped (opt : Optimizer) (net : SAMFormerArchitecture) : Optimizer :=
  {| class_name := class_name opt;
     sam_rho := sam_rho opt;
     e_w := e_w opt;
     base_class := base_class opt;
     base_state := snd (optimizer_update (base_class opt) (base_state opt)
                          (parameters net) (grads net)) |}.

(** The loss of a tracked forward pass that started at [net]. *)
Definition loss_at (net : SAMFormerArchitecture) (x : tensor3) (y : tensor2) : loss_t :=
  {| item := mean_squared_error (forward_steps net x true) y;
     loss_graph := Some (net, x, y) |}.

(** One batch in the sharpness-aware branch: the network at which the
    second forward pass starts, the network the batch leaves and the
    optimizer it leaves. *)
Definition perturbed (opt : Optimizer) (net : SAMFormerArchitecture)
    (x : tensor3) (y : tensor2) : SAMFormerArchitecture :=
  after_first_step (sam_rho opt) (after_backward net x y (after_forward net x)).

Definition sam_trained (opt : Optimizer) (net : SAMFormerArchitecture)
    (x : tensor3) (y : tensor2) : SAMFormerArchitecture :=
  let at_ascent := after_backward net x y (after_forward net x) in
  let there := perturbed opt net x y in
  after_second_step (ascended opt at_ascent)
    (after_backward there x y (after_forward there x)).

Definition sam_optimizer (opt : Optimizer) (net : SAMFormerArchitecture)
    (x : tensor3) (y : tensor2) : Optimizer :=
  let at_ascent := after_backward net x y (after_forward net x) in
  let there := perturbed opt net x y in
  descended (ascended opt at_ascent)
    (after_backward there x y (after_forward there x)).

(** One batch in the other branch. *)
Definition plain_trained (opt : Optimizer) (net : SAMFormerArchitecture)
    (x : tensor3) (y : tensor2) : SAMFormerArchitecture :=
  after_step opt (after_backward net x y (zero_gradients (after_forward net x))).

Definition plain_optimizer (opt : Optimizer) (net : SAMFormerArchitecture)
    (x : tensor3) (y : tensor2) : Optimizer :=
  stepped opt (after_backward net x y (zero_gradients (after_forward net x))).

(** The attributes of the trainer that configure it: all but the
    network. *)
Definition configuration (self : SAMFormer) : SAMFormer :=
  {| network := None;
     criterion := criterion self;
     device := device self;
     num_epochs := num_epochs self;
     batch_size := batch_size self;
     base_optimizer := base_optimizer self;
     learning_rate := learning_rate self;
     weight_decay := weight_decay self;
     rho := rho self;
     self_use_revin := self_use_revin self;
     random_state := random_state self |}.

(** All four generators right after seeding them with [s]. *)
Definition seeded (s : Z) : generators :=
  {| torch_rng := manual_seed s;
     python_rng := manual_seed s;
     numpy_rng := manual_seed s;
     cuda_rng := manual_seed s |}.

(** The network [SAMFormerArchitecture(...)] builds from the generator
    [g], and the generator it leaves. *)
Definition built_network (num_channels seq_len hid_dim pred_horizon : nat)
    (use_revin : bool) (g : generator) : SAMFormerArchitecture * generator :=
  let '(wk, bk, g1) := linear_init seq_len hid_dim g in
  let '(wq, bq, g2) := linear_init seq_len hid_dim g1 in
  let '(wv, bv, g3) := linear_init seq_len seq_len g2 in
  let '(wf, bf, g4) := linear_init seq_len pred_horizon g3 in
  let net :=
    {| revin := RevIN_init num_channels;
       compute_keys := {| in_features := seq_len; out_features := hid_dim;
                          weight := wk; bias := bk |};
       compute_queries := {| in_features := seq_len; out_features := hid_dim;
                             weight := wq; bias := bq |};
       compute_values := {| in_features := seq_len; out_features := seq_len;
                            weight := wv; bias := bv |};
       linear_forecaster := {| in_features := seq_len; out_features := pred_horizon;
                               weight := wf; bias := bf |};
       use_revin := use_revin;
       training := true;
       grads := [] |} in
  (set_grads (zeros_like (parameters net)) net, g4).

(** The world once the generators are seeded (or not). *)
Definition seeded_world (random_state : option Z) (w : world) : world :=
  match random_state with
  | Some s => set_rng (seeded s) w
  | None => w
  end.

(** The world once [fit] has built the network and put it in training
    mode, and the optimizer it then wraps around the parameters. *)
Definition fresh_network (x : tensor3) (y : tensor2) (w : world) : SAMFormerArchitecture :=
  set_training true
    (fst (built_network (dim1 x) (dim2 x) 16 (width y / dim1 x)
            (self_use_revin (this w)) (torch_rng (rng w)))).

Definition built_world (x : tensor3) (y : tensor2) (w : world) : world :=
  set_network (Some (fresh_network x y w))
    (set_torch_rng
       (snd (built_network (dim1 x) (dim2 x) 16 (width y / dim1 x)
               (self_use_revin (this w)) (torch_rng (rng w)))) w).

Definition fresh_optimizer (x : tensor3) (y : tensor2) (w : world) : Optimizer :=
  SAM (parameters (fresh_network x y w)) (base_optimizer (this w)) (rho (this w))
      (learning_rate (this w)) (weight_decay (this w)).
End TrainerVocabulary.


(* ------------------------------------------------------------------ *)
(** * Vocabulary for reasoning about computations *)
(* ------------------------------------------------------------------ *)

(** [m] relates every state to the state it leaves, whether it returns
    or raises. *)
Definition keeps {S A} (rel : S -> S -> Prop) (m : M S A) : Prop :=
  forall s, rel s (final (m s)).

(** [m] leaves the state as it found it. *)
Definition unchanged {S A} (m : M S A) : Prop :=
  keeps (fun s s' => s' = s) m.

(** [m] makes no call on a collaborator. *)
Definition silent {S A} (m : M S A) : Prop :=
  forall s, events (m s) = [].

(** From a state in [P], [m] only makes calls in [E]; when it returns
    [a] the state it leaves satisfies [Q a], when it raises the state
    satisfies [X]. *)
Definition hoare {S A} (P : S -> Prop) (m : M S A) (Q : A -> S -> Prop)
    (X : S -> Prop) (E : event -> Prop) : Prop :=
  forall s, P s ->
    Forall E (events (m s)) /\
    match value (m s) with
    | Ok a => Q a (final (m s))
    | Raise _ => X (final (m s))
    end.

(** The calls of the sharpness-aware branch and of the bookkeeping
    around it: all but those of the other branch. *)
Definition not_plain (e : event) : Prop :=
  e <> ZeroGrad /\ e <> Step.

(** [net'] forecasts as [net] does: same layer sizes, same function of
    a sample. *)
Definition same_forecaster (net net' : SAMFormerArchitecture) : Prop :=
  layout net' = layout net /\
  forall d l s, forward_sample net' d l s = forward_sample net d l s.

(** What [forecast] returns for the samples [xs]: one row per sample, in
    the order of [xs]. *)
Definition forecast_of (net : SAMFormerArchitecture) (channels seq_len horizon : nat)
    (xs : list (list R)) : tensor2 :=
  {| width := channels * horizon;
     rows := map (forward_sample net channels seq_len) xs |}.

Section TrainerPredicates.
Context {torch : Torch}.

(** The trainer holds a network whose layers have the sizes [lay]. *)
Definition holds_layout
    (lay : (nat * nat) * (nat * nat) * (nat * nat) * (nat * nat) * (nat * bool))
    (w : world) : Prop :=
  exists net, network (this w) = Some net /\ layout net = lay.

(** The body of the loop of [forecast] (lines 126-130). *)
Definition forecast_body (x : tensor3) (outs : list tensor2) (idxs : list nat)
  : M world (list tensor2) :=
  (xs <- lift_result (gather (items x) idxs) ;;
   let x := {| dim1 := dim1 x; dim2 := dim2 x; items := xs |} in
   out <- network_call false x ;;
   ret (outs ++ [data out]))%monad.

(** [fit] raises without having built a network. *)
Definition fails_before_allocation {A} (o : outcome world A) : Prop :=
  (exists e, value o = Raise e) /\
  forall c l h p r, ~ In (Allocate c l h p r) (events o).
End TrainerPredicates.

(* ------------------------------------------------------------------ *)
(** * A small instance, to run the definitions on concrete data *)
(* ------------------------------------------------------------------ *)

Section SmallInstance.
Local Open Scope string_scope.
Local Open Scope R_scope.

(** Generators count the draws made from them; a linear layer starts
    from constant weights; shuffling reverses the order; the gradient
    and the base update are simple functions of the parameters.  Base
    optimizers are named by their class. *)
Definition small_torch : Torch :=
  {| generator := nat;
     manual_seed := Z.to_nat;
     linear_init := fun in_f out_f g =>
                      (repeat (INR g) (out_f * in_f), repeat 0 out_f, S g);
     shuffled := fun n g => (rev (seq 0 n), S g);
     has_fused_attention := true;
     gradient := fun net _ _ => map (map (fun v => v + 1)) (parameters net);
     optimizer_class := string;
     optimizer_state := nat;
     optimizer_init := fun _ _ _ _ => O;
     optimizer_update := fun _ st p g => (pointwise Rminus p g, S st);
     cat_empty_error := RuntimeError "torch.cat(): expected a non-empty list of Tensors";
     revin_eps := 1 / 100000;
     revin_weight := 1;
     revin_bias := 0;
     sam_eps := 1 / 1000000 |}.

(** One sample of two channels and three time steps. *)
Definition small_x : tensor3 :=
  {| dim1 := 2; dim2 := 3; items := [[1; 2; 3; 4; 5; 6]] |}.

(** Three such samples. *)
Definition three_x : tensor3 :=
  {| dim1 := 2; dim2 := 3;
     items := [[1; 2; 3; 4; 5; 6]; [6; 5; 4; 3; 2; 1]; [0; 1; 0; 1; 0; 1]] |}.


(** Targets for a horizon of two steps: four numbers per sample. *)
Definition small_y : tensor2 :=
  {| width := 4; rows := [[7; 8; 9; 10]] |}.

(** Targets of five numbers per sample: no whole horizon for two
    channels. *)
Definition odd_y : tensor2 :=
  {| width := 5; rows := [[7; 8; 9; 10; 11]] |}.

(** A trainer as [SAMFormer(device='cpu', num_epochs=1,
    base_optimizer=Adam, random_state=7)] builds it, in a world whose
    generators have been drawn from [g] times. *)
Definition small_trainer : SAMFormer (torch := small_torch) :=
  SAMFormer_init (torch := small_torch) "cpu" 1 256 "Adam"
                 (1 / 1000) (1 / 100000) (1 / 2) true (Some 7%Z).

Definition small_world (g : nat) : world (torch := small_torch) :=
  {| this := small_trainer;
     rng := @Build_generators small_torch g g g g |}.

(** The network [fit] builds for [small_x] and [small_y], and a world
    whose trainer holds it. *)
Definition small_net : SAMFormerArchitecture :=
  fresh_network (torch := small_torch) small_x small_y (small_world 0).

Definition fitted_world : world (torch := small_torch) :=
  set_network (Some small_net) (small_world 0).


(** A sharpness-aware optimizer, and one of another class, on the
    parameters of [small_net]. *)
Definition small_sam : Optimizer (torch := small_torch) :=
  SAM (torch := small_torch) (parameters small_net) "Adam" (1 / 2) (1 / 1000) (1 / 100000).

Definition small_adam : Optimizer (torch := small_torch) :=
  {| class_name := "Adam";
     sam_rho := 0;
     e_w := None;
     base_class := "Adam" : optimizer_class (Torch := small_torch);
     base_state := O : optimizer_state (Torch := small_torch) |}.
End SmallInstance.

(* ------------------------------------------------------------------ *)
(** * More small data: degenerate shapes *)
(* ------------------------------------------------------------------ *)

Section DegenerateData.
Local Open Scope R_scope.

(** One sample without any channel, and a batch without any sample. *)
Definition no_channel_x : tensor3 :=
  {| dim1 := 0; dim2 := 3; items := [[]] |}.

Definition empty_x : tensor3 :=
  {| dim1 := 2; dim2 := 3; items := [] |}.

Definition empty_y : tensor2 :=
  {| width := 4; rows := [] |}.

(** One sample of two channels and four time steps: one step too
    many for a network built for [small_x]. *)
Definition long_x : tensor3 :=
  {| dim1 := 2; dim2 := 4; items := [[1; 2; 3; 4; 5; 6; 7; 8]] |}.
End DegenerateData.

(* ------------------------------------------------------------------ *)
(** * The calls of a whole training run *)
(* ------------------------------------------------------------------ *)

(** What a shuffling loader may draw as the order of a pass over [n]
    samples: [n] indices, all below [n]. *)
Definition valid_order (n : nat) (order : list nat) : Prop :=
  length order = n /\ Forall (fun i => i < n) order.

(** The calls of one epoch of [batches] sharpness-aware batches, and of
    consecutive epochs numbered from [first], one per reported loss. *)
Definition epoch_calls (batches epoch : nat) (train_loss : R) : list event :=
  concat (repeat sam_calls batches) ++ [Train; SetDescription epoch train_loss].

Fixpoint epochs_calls (batches first : nat) (losses : list R) : list event :=
  match losses with
  | [] => []
  | l :: losses' => epoch_calls batches first l ++ epochs_calls batches (S first) losses'
  end.

(* ------------------------------------------------------------------ *)
(** * SAMFormer: looking inside the network *)
(* ------------------------------------------------------------------ *)

Section Matrices.
Local Open Scope R_scope.

(** The rows of an [r] by [c] sample: what [.numpy()] shows of a 2-D
    slice. *)
Definition rows_of_sample (r c : nat) (s : list R) : list (list R) :=
  map (fun i => row_of c (fun j => entry c s i j)) (seq 0 r).

(** [t[0].cpu().numpy()] *)
Definition first_sample (t : tensor3) : result tensor2 :=
  match items t with
  | [] => Raise IndexError
  | s :: _ => Ok {| width := dim2 t; rows := rows_of_sample (dim1 t) (dim2 t) s |}
  end.

(** [l.weight.detach().cpu().numpy()]: [out_features] rows of
    [in_features] numbers. *)
Definition weight_matrix (l : Linear) : tensor2 :=
  {| width := in_features l;
     rows := rows_of_sample (out_features l) (in_features l) (weight l) |}.

(** [torch.bmm(a, b)]: sample by sample, [a] is [n] by [e] and [b] is
    [e] by [m]. *)
Definition bmm_sample (n e m : nat) (a b : list R) : list R :=
  tabulate n m (fun i j => sum_upto e (fun t => entry e a i t * entry m b t j)).

Definition bmm_map (a b : tensor3) : tensor3 :=
  {| dim1 := dim1 a;
     dim2 := dim2 b;
     items := zip_with (bmm_sample (dim1 a) (dim2 a) (dim2 b)) (items a) (items b) |}.

Definition bmm (a b : tensor3) : result tensor3 :=
  if (length (items a) =? length (items b))%nat && (dim2 a =? dim1 b)%nat
  then Ok (bmm_map a b)
  else Raise (RuntimeError "batch1 and batch2 must have compatible shapes").

(** [t / c] for a number [c] *)
Definition tensor_div (t : tensor3) (c : R) : tensor3 :=
  {| dim1 := dim1 t;
     dim2 := dim2 t;
     items := map (map (fun v => v / c)) (items t) |}.

(** [nn.functional.softmax(t, dim=-1)] *)
Definition softmax_last (t : tensor3) : tensor3 :=
  {| dim1 := dim1 t;
     dim2 := dim2 t;
     items := map (fun s => concat (map softmax (rows_of_sample (dim1 t) (dim2 t) s)))
                  (items t) |}.
End Matrices.

(** A figure on the screen: the matrix drawn as a heat map, under its
    title. *)
Record figure : Type := {
  title : string;
  heat : tensor2
}.

Section Introspection.
Context {torch : Torch}.
Local Open Scope string_scope.

(** [self.network.<layer>(t)], for one of the linear layers. *)
Definition network_layer (attr : string) (layer : SAMFormerArchitecture -> Linear)
    (t : tensor3) : M world tensor3 :=
  self_network (AttributeError "NoneType" attr)
    (net <- get ;; lift_result (Linear_call (layer net) t))%monad.

(** [SAMFormer.extract_matrices].  The switch is the trainer's own
    [use_revin], not the network's; everything runs inside
    [torch.no_grad()], on the layers directly: the network itself is
    not called. *)
Definition extract_matrices (x : tensor3)
  : M world (tensor3 * tensor3 * tensor3 * tensor3 * tensor3 * tensor3) :=
  (self <- get_self ;;
   x_norm <- (if self_use_revin self
              then t <- self_network (AttributeError "NoneType" "revin")
                          (self_revin (transpose12 x) norm) ;;
                   ret (transpose12 t)
              else ret x) ;;
   (* Queries, Keys, Values *)
   queries <- network_layer "compute_queries" compute_queries x_norm ;;
   keys <- network_layer "compute_keys" compute_keys x_norm ;;
   values <- network_layer "compute_values" compute_values x_norm ;;
   (* Attention matrix Q*K^T *)
   att_score <- lift_result
                  (if has_fused_attention
                   then F_scaled_dot_product_attention queries keys values
                   else scaled_dot_product_attention queries keys values) ;;
   (* X after attention projection *)
   out <- lift_result (tensor_add x_norm att_score) ;;
   out_proj <- network_layer "linear_forecaster" linear_forecaster out ;;
   ret (x, queries, keys, values, att_score, out_proj))%monad.

(** [self.network.<layer>.weight.detach().cpu().numpy()] *)
Definition network_weight (attr : string) (layer : SAMFormerArchitecture -> Linear)
  : M world tensor2 :=
  self_network (AttributeError "NoneType" attr)
    (net <- get ;; ret (weight_matrix (layer net)))%monad.

(** [SAMFormer.extract_weight_matrices] *)
Definition extract_weight_matrices : M world (tensor2 * tensor2 * tensor2 * tensor2) :=
  (W_Q <- network_weight "compute_queries" compute_queries ;;
   W_K <- network_weight "compute_keys" compute_keys ;;
   W_V <- network_weight "compute_values" compute_values ;;
   W_O <- network_weight "linear_forecaster" linear_forecaster ;;
   ret (W_Q, W_K, W_V, W_O))%monad.

(** What the plotting methods can change: the trainer and its world,
    and the figures shown so far. *)
Record desk : Type := {
  trainer : world;
  shown : list figure
}.

Definition set_trainer (w : world) (d : desk) : desk :=
  {| trainer := w; shown := shown d |}.

(** A method of the trainer, called from a plotting method. *)
Definition on_trainer {A} (m : M world A) : M desk A :=
  zoom trainer set_trainer m.

(** [SAMFormer.plot_heatmap]: a new figure with the heat map of
    [matrix] and the title, shown at once.  The drawing itself is
    seaborn's; what it does with a matrix without entries is left
    out, and the statements on figures are about matrices that have
    entries. *)
Definition plot_heatmap (matrix : tensor2) (title : string) : M desk unit :=
  (d <- get ;;
   put {| trainer := trainer d;
          shown := shown d ++ [{| title := title; heat := matrix |}] |})%monad.

(** [self.plot_heatmap(t[0].cpu().numpy(), title)] *)
Definition plot_first (t : tensor3) (title : string) : M desk unit :=
  (matrix <- lift_result (first_sample t) ;;
   plot_heatmap matrix title)%monad.

(** [SAMFormer.generate_heatmaps] *)
Definition generate_heatmaps (x : tensor3) : M desk unit :=
  ('(x, queries, keys, values, att_score, out_proj) <- on_trainer (extract_matrices x) ;;

   attention_matrix <- lift_result (bmm queries (transpose12 keys)) ;;
   let attention_matrix := tensor_div attention_matrix (sqrt (INR (dim2 queries))) in
   let attention_weights := softmax_last attention_matrix in

   (* Plot input X *)
   plot_first x "Input Matrix (X) for 1 Batch" ;;

   (* Plot Q, K, V *)
   plot_first queries "Query Matrix (Q) for 1 Batch" ;;
   plot_first keys "Key Matrix (K) for 1 Batch" ;;
   plot_first values "Value Matrix (V) for 1 Batch" ;;

   (* Plot Attention Matrix (Q*K^T) *)
   plot_first attention_weights "Attention Matrix (Q * K^T) for 1 Batch" ;;
   plot_first att_score "Attention Score (Q*K^T)*V for 1 Batch" ;;

   (* Plot X after attention projection *)
   plot_first out_proj "Output Projection for 1 Batch" ;;

   (* Extract and plot weight matrices *)
   '(W_Q, W_K, W_V, W_O) <- on_trainer extract_weight_matrices ;;
   plot_heatmap W_Q "Projection Matrix W_Q" ;;
   plot_heatmap W_K "Projection Matrix W_K" ;;
   plot_heatmap W_V "Projection Matrix W_V" ;;
   plot_heatmap W_O "Projection Matrix W_O")%monad.

(** The titles of the figures of one call, in the order of the source. *)
Definition heatmap_titles : list string :=
  [ "Input Matrix (X) for 1 Batch";
    "Query Matrix (Q) for 1 Batch";
    "Key Matrix (K) for 1 Batch";
    "Value Matrix (V) for 1 Batch";
    "Attention Matrix (Q * K^T) for 1 Batch";
    "Attention Score (Q*K^T)*V for 1 Batch";
    "Output Projection for 1 Batch";
    "Projection Matrix W_Q";
    "Projection Matrix W_K";
    "Projection Matrix W_V";
    "Projection Matrix W_O" ].
End Introspection.

(** What [extract_matrices] returns on a fitted trainer: the input, the
    projections of the normalised input, the attention output and the
    output of the forecast head. *)
Definition matrices_of (net : SAMFormerArchitecture) (x : tensor3)
  : tensor3 * tensor3 * tensor3 * tensor3 * tensor3 * tensor3 :=
  let x_norm := fst (step_normalise net x) in
  (x,
   linear_map (compute_queries net) x_norm,
   linear_map (compute_keys net) x_norm,
   linear_map (compute_values net) x_norm,
   step_attention net x_norm,
   step_head net (step_residual x_norm (step_attention net x_norm))).

(** The figures one call of [generate_heatmaps] shows for a fitted
    network, in order. *)
Section Figures.
Local Open Scope string_scope.

(** The first sample of [t] as a matrix (no row when there is no
    sample). *)
Definition first_matrix (t : tensor3) : tensor2 :=
  {| width := dim2 t;
     rows := rows_of_sample (dim1 t) (dim2 t) (hd [] (items t)) |}.

(** [softmax(Q . K^T / sqrt(hid_dim))], computed apart from the
    attention call. *)
Definition attention_weights_of (queries keys : tensor3) : tensor3 :=
  softmax_last (tensor_div (bmm_map queries (transpose12 keys))
                           (sqrt (INR (dim2 queries)))).

Definition heatmaps_of (net : SAMFormerArchitecture) (x : tensor3) : list figure :=
  let '(x, queries, keys, values, att_score, out_proj) := matrices_of net x in
  [ {| title := "Input Matrix (X) for 1 Batch"; heat := first_matrix x |};
    {| title := "Query Matrix (Q) for 1 Batch"; heat := first_matrix queries |};
    {| title := "Key Matrix (K) for 1 Batch"; heat := first_matrix keys |};
    {| title := "Value Matrix (V) for 1 Batch"; heat := first_matrix values |};
    {| title := "Attention Matrix (Q * K^T) for 1 Batch";
       heat := first_matrix (attention_weights_of queries keys) |};
    {| title := "Attention Score (Q*K^T)*V for 1 Batch"; heat := first_matrix att_score |};
    {| title := "Output Projection for 1 Batch"; heat := first_matrix out_proj |};
    {| title := "Projection Matrix W_Q"; heat := weight_matrix (compute_queries net) |};
    {| title := "Projection Matrix W_K"; heat := weight_matrix (compute_keys net) |};
    {| title := "Projection Matrix W_V"; heat := weight_matrix (compute_values net) |};
    {| title := "Projection Matrix W_O"; heat := weight_matrix (linear_forecaster net) |} ].
End Figures.

(** A desk with nothing on the screen yet. *)
Definition clean_desk {torch : Torch} (w : world) : desk :=
  {| trainer := w; shown := [] |}.

(** The trainer configured with another seed: [random_state] is a
    plain attribute. *)
Definition set_seed {torch : Torch} (random_state : option Z) (w : world) : world :=
  {| this :=
       {| network := network (this w);
          criterion := criterion (this w);
          device := device (this w);
          num_epochs := num_epochs (this w);
          batch_size := batch_size (this w);
          base_optimizer := base_optimizer (this w);
          learning_rate := learning_rate (this w);
          weight_decay := weight_decay (this w);
          rho := rho (this w);
          self_use_revin := self_use_revin (this w);
          random_state := random_state |};
     rng := rng w |}.

(* ------------------------------------------------------------------ *)
(** * Reasoning about computations *)
(* ------------------------------------------------------------------ *)

Section MonadLaws.
Context {S : Type}.

Lemma bind_ok {A B} (m : M S A) (k : A -> M S B) s a s1 ev1 :
  m s = Outcome (Ok a) s1 ev1 ->
  bind m k s = Outcome (value (k a s1)) (final (k a s1)) (ev1 ++ events (k a s1)).
Proof.
  intros H. unfold bind. rewrite H. now destruct (k a s1).
Qed.

Lemma bind_ok_silent {A B} (m : M S A) (k : A -> M S B) s a s1 :
  m s = Outcome (Ok a) s1 [] -> bind m k s = k a s1.
Proof.
  intros H. unfold bind. rewrite H. now destruct (k a s1).
Qed.

Lemma bind_raise {A B} (m : M S A) (k : A -> M S B) s e s1 ev1 :
  m s = Outcome (Raise e) s1 ev1 ->
  bind m k s = Outcome (Raise e) s1 ev1.
Proof.
  intros H. unfold bind. now rewrite H.
Qed.

Lemma outcome_eta {A} (o : outcome S A) :
  o = Outcome (value o) (final o) (events o).
Proof. now destruct o. Qed.

(** Where a bind ends: after [k] when [m] returns, after [m] when it
    raises. *)
Lemma final_bind {A B} (m : M S A) (k : A -> M S B) s :
  final (bind m k s) =
  match value (m s) with
  | Ok a => final (k a (final (m s)))
  | Raise _ => final (m s)
  end.
Proof.
  unfold bind. destruct (m s) as [[a|e] s1 ev1]; simpl; auto.
  now destruct (k a s1).
Qed.

Lemma events_bind {A B} (m : M S A) (k : A -> M S B) s :
  events (bind m k s) =
  events (m s) ++
  match value (m s) with
  | Ok a => events (k a (final (m s)))
  | Raise _ => []
  end.
Proof.
  unfold bind. destruct (m s) as [[a|e] s1 ev1]; simpl.
  - now destruct (k a s1).
  - now rewrite app_nil_r.
Qed.

Lemma value_bind {A B} (m : M S A) (k : A -> M S B) s :
  value (bind m k s) =
  match value (m s) with
  | Ok a => value (k a (final (m s)))
  | Raise e => Raise e
  end.
Proof.
  unfold bind. destruct (m s) as [[a|e] s1 ev1]; simpl; auto.
  now destruct (k a s1).
Qed.

(** A call made by [m], or by what follows [m] when it returns, is a
    call of the whole. *)
Lemma in_events_bind_l {A B} (m : M S A) (k : A -> M S B) s e :
  In e (events (m s)) -> In e (events (bind m k s)).
Proof.
  intros H. rewrite events_bind. apply in_or_app. now left.
Qed.

Lemma in_events_bind_r {A B} (m : M S A) (k : A -> M S B) s a s1 ev1 e :
  m s = Outcome (Ok a) s1 ev1 ->
  In e (events (k a s1)) -> In e (events (bind m k s)).
Proof.
  intros Hm H. erewrite bind_ok by exact Hm. cbn [events]. apply in_or_app. now right.
Qed.

Lemma bind_ret {A B} (a : A) (k : A -> M S B) s :
  bind (ret a) k s = k a s.
Proof. unfold bind, ret. now destruct (k a s). Qed.

Lemma bind_get {B} (k : S -> M S B) s :
  bind get k s = k s s.
Proof. unfold bind, get. now destruct (k s s). Qed.

Lemma bind_put {B} (s' : S) (k : unit -> M S B) s :
  bind (put s') k s = k tt s'.
Proof. unfold bind, put. now destruct (k tt s'). Qed.

Lemma bind_lift_ok {A B} (a : A) (k : A -> M S B) s :
  bind (lift_result (Ok a)) k s = k a s.
Proof. unfold bind, lift_result. now destruct (k a s). Qed.

Lemma bind_lift_raise {A B} e (k : A -> M S B) s :
  bind (lift_result (Raise e)) k s = Outcome (Raise e) s [].
Proof. reflexivity. Qed.

Lemma bind_emit {B} e (k : unit -> M S B) s :
  bind (emit e) k s =
  Outcome (value (k tt s)) (final (k tt s)) (e :: events (k tt s)).
Proof. unfold bind, emit. now destruct (k tt s). Qed.

Section Keeps.
Variable rel : S -> S -> Prop.
Hypothesis rel_refl : forall s, rel s s.
Hypothesis rel_trans : forall s1 s2 s3, rel s1 s2 -> rel s2 s3 -> rel s1 s3.

Lemma keeps_ret {A} (a : A) : keeps rel (ret a).
Proof. intros s. apply rel_refl. Qed.

Lemma keeps_raise {A} e : keeps rel (@raise S A e).
Proof. intros s. apply rel_refl. Qed.

Lemma keeps_get : keeps rel (@get S).
Proof. intros s. apply rel_refl. Qed.

Lemma keeps_emit e : keeps rel (@emit S e).
Proof. intros s. apply rel_refl. Qed.

Lemma keeps_lift_result {A} (r : result A) : keeps rel (@lift_result S A r).
Proof. intros s. apply rel_refl. Qed.

Lemma keeps_bind {A B} (m : M S A) (k : A -> M S B) :
  keeps rel m -> (forall a, keeps rel (k a)) -> keeps rel (bind m k).
Proof.
  intros Hm Hk s. rewrite final_bind.
  destruct (value (m s)) as [a|e]; [|apply Hm].
  eapply rel_trans; [apply Hm | apply Hk].
Qed.

Lemma keeps_for_each {A B} (l : list A) (body : B -> A -> M S B) :
  (forall b a, keeps rel (body b a)) -> forall b, keeps rel (for_each l body b).
Proof.
  intros Hbody. induction l as [|a l IH]; intros b; simpl.
  - apply keeps_ret.
  - apply keeps_bind; auto.
Qed.
End Keeps.

Lemma silent_bind {A B} (m : M S A) (k : A -> M S B) :
  silent m -> (forall a, silent (k a)) -> silent (bind m k).
Proof.
  intros Hm Hk s. rewrite events_bind, Hm. simpl.
  destruct (value (m s)); [apply Hk | reflexivity].
Qed.

Lemma hoare_conseq (P P' : S -> Prop) {A} (m : M S A) (Q Q' : A -> S -> Prop)
    (X X' : S -> Prop) (E E' : event -> Prop) :
  hoare P' m Q' X' E' ->
  (forall s, P s -> P' s) -> (forall a s, Q' a s -> Q a s) ->
  (forall s, X' s -> X s) -> (forall e, E' e -> E e) ->
  hoare P m Q X E.
Proof.
  intros H HP HQ HX HE s Hs. destruct (H s (HP s Hs)) as [Hev Hv]. split.
  - eapply Forall_impl; eauto.
  - destruct (value (m s)); auto.
Qed.

Lemma hoare_ret (P : S -> Prop) {A} (a : A) (Q : A -> S -> Prop) X E :
  (forall s, P s -> Q a s) -> hoare P (ret a) Q X E.
Proof. intros H s Hs. split; [constructor | apply H, Hs]. Qed.

Lemma hoare_raise (P : S -> Prop) {A} e (Q : A -> S -> Prop) (X : S -> Prop) E :
  (forall s, P s -> X s) -> hoare P (@raise S A e) Q X E.
Proof. intros H s Hs. split; [constructor | apply H, Hs]. Qed.

Lemma hoare_get (P : S -> Prop) (Q : S -> S -> Prop) X E :
  (forall s, P s -> Q s s) -> hoare P get Q X E.
Proof. intros H s Hs. split; [constructor | apply H, Hs]. Qed.

Lemma hoare_put (P : S -> Prop) s' (Q : unit -> S -> Prop) X E :
  (forall s, P s -> Q tt s') -> hoare P (put s') Q X E.
Proof. intros H s Hs. split; [constructor | eapply H, Hs]. Qed.

Lemma hoare_emit (P : S -> Prop) e (Q : unit -> S -> Prop) X (E : event -> Prop) :
  E e -> (forall s, P s -> Q tt s) -> hoare P (emit e) Q X E.
Proof. intros He H s Hs. split; [repeat constructor; auto | apply H, Hs]. Qed.

Lemma hoare_lift_result (P : S -> Prop) {A} (r : result A) (Q : A -> S -> Prop) X E :
  (forall a s, r = Ok a -> P s -> Q a s) ->
  (forall e s, r = Raise e -> P s -> X s) ->
  hoare P (lift_result r) Q X E.
Proof.
  intros HQ HX s Hs. split; [constructor|]. destruct r; simpl; eauto.
Qed.

Lemma hoare_bind (P : S -> Prop) {A B} (m : M S A) (k : A -> M S B)
    (Q1 : A -> S -> Prop) (Q : B -> S -> Prop) X E :
  hoare P m Q1 X E -> (forall a, hoare (Q1 a) (k a) Q X E) ->
  hoare P (bind m k) Q X E.
Proof.
  intros Hm Hk s Hs. destruct (Hm s Hs) as [Hev Hv].
  rewrite events_bind, value_bind, final_bind.
  destruct (value (m s)) as [a|e].
  - destruct (Hk a _ Hv) as [Hev' Hv']. split; auto.
    apply Forall_app; auto.
  - split; auto. now rewrite app_nil_r.
Qed.

Lemma hoare_for_each {A B} (l : list A) (body : B -> A -> M S B)
    (Inv : B -> S -> Prop) X E :
  (forall b a, hoare (Inv b) (body b a) Inv X E) ->
  forall b, hoare (Inv b) (for_each l body b) Inv X E.
Proof.
  intros Hbody. induction l as [|a l IH]; intros b; simpl.
  - now apply hoare_ret.
  - eapply hoare_bind; eauto.
Qed.

Lemma hoare_pure (P : S -> Prop) (fact : Prop) {A} (m : M S A) Q X E :
  (fact -> hoare P m Q X E) -> hoare (fun s => P s /\ fact) m Q X E.
Proof. intros H s [Hs Hf]. now apply H. Qed.

Lemma hoare_if (P : S -> Prop) {A} (c : bool) (m1 m2 : M S A) Q X E :
  (c = true -> hoare P m1 Q X E) -> (c = false -> hoare P m2 Q X E) ->
  hoare P (if c then m1 else m2) Q X E.
Proof. destruct c; auto. Qed.
End MonadLaws.

(* ------------------------------------------------------------------ *)
(** * The forward pass *)
(* ------------------------------------------------------------------ *)

Section ListFacts.
Lemma length_row_of c f : length (row_of c f) = c.
Proof. unfold row_of. now rewrite length_map, length_seq. Qed.

Lemma length_tabulate r c f : length (tabulate r c f) = r * c.
Proof.
  unfold tabulate. generalize 0 at 1. induction r as [|r IH]; intros a; simpl; auto.
  now rewrite length_app, length_row_of, IH.
Qed.

Lemma zip_with_map {A B C D} (f : B -> C -> D) (g : A -> B) (h : A -> C) l :
  zip_with f (map g l) (map h l) = map (fun a => f (g a) (h a)) l.
Proof.
  unfold zip_with. induction l as [|a l IH]; simpl; auto. now rewrite IH.
Qed.

Lemma zip_with_map_r {A C D} (f : A -> C -> D) (h : A -> C) l :
  zip_with f l (map h l) = map (fun a => f a (h a)) l.
Proof.
  unfold zip_with. induction l as [|a l IH]; simpl; auto. now rewrite IH.
Qed.

Lemma zip3_map {A B C D E} (f : B * (C * D) -> E)
    (g : A -> B) (h : A -> C) (k : A -> D) l :
  map f (zip3 (map g l) (map h l) (map k l)) = map (fun a => f (g a, (h a, k a))) l.
Proof.
  unfold zip3. induction l as [|a l IH]; simpl; auto. now rewrite IH.
Qed.

Lemma length_zip3 {A B C} (a : list A) (b : list B) (c : list C) :
  length b = length a -> length c = length a -> length (zip3 a b c) = length a.
Proof.
  intros Hb Hc. unfold zip3. rewrite !length_combine. lia.
Qed.
End ListFacts.

(** ** Each operation on tensors of fitting shapes *)

Lemma Linear_call_ok l t :
  dim2 t = in_features l -> Linear_call l t = Ok (linear_map l t).
Proof.
  intros H. unfold Linear_call. now rewrite H, Nat.eqb_refl.
Qed.

Lemma attention_ok q k v :
  dim2 q = dim2 k -> dim1 k = dim1 v ->
  length (items q) = length (items k) -> length (items k) = length (items v) ->
  attention q k v = Ok (attention_map q k v).
Proof.
  intros H1 H2 H3 H4. unfold attention. now rewrite H1, H2, H3, H4, !Nat.eqb_refl.
Qed.

Lemma tensor_add_ok a b :
  dim1 a = dim1 b -> dim2 a = dim2 b -> length (items a) = length (items b) ->
  tensor_add a b = Ok (add_entries a b).
Proof.
  intros H1 H2 H3. unfold tensor_add. now rewrite H1, H2, H3, !Nat.eqb_refl.
Qed.

Lemma length_attention_map q k v :
  length (items k) = length (items q) -> length (items v) = length (items q) ->
  length (items (attention_map q k v)) = length (items q).
Proof.
  intros. simpl. rewrite length_map. now apply length_zip3.
Qed.

Lemma length_apply_statistics f x mu sigma :
  length (items mu) = length (items x) -> length (items sigma) = length (items x) ->
  length (items (apply_statistics f x mu sigma)) = length (items x).
Proof.
  intros. simpl. rewrite length_map. now apply length_zip3.
Qed.

Lemma length_statistics x :
  length (items (fst (statistics_of x))) = length (items x) /\
  length (items (snd (statistics_of x))) = length (items x).
Proof. simpl. now rewrite !length_map. Qed.

Lemma self_revin_norm x net :
  dim2 x = num_features (revin net) ->
  self_revin x norm net =
  Outcome (Ok (normalize (revin net) x (fst (statistics_of x)) (snd (statistics_of x))))
          (set_revin (set_statistics (Some (fst (statistics_of x)))
                                     (Some (snd (statistics_of x))) (revin net)) net)
          [].
Proof.
  intros H. unfold self_revin, zoom, RevIN_call.
  rewrite bind_get. cbn [statistics_of fst snd]. rewrite bind_put.
  now rewrite H, Nat.eqb_refl.
Qed.

Lemma self_revin_denorm x net mu sigma :
  mean (revin net) = Some mu -> stdev (revin net) = Some sigma ->
  dim2 x = num_features (revin net) ->
  dim2 mu = dim2 x -> dim2 sigma = dim2 x ->
  length (items mu) = length (items x) -> length (items sigma) = length (items x) ->
  self_revin x denorm net =
  Outcome (Ok (denormalize (revin net) x mu sigma)) (set_revin (revin net) net) [].
Proof.
  intros Hm Hs H0 H1 H2 H3 H4. unfold self_revin, zoom, RevIN_call.
  rewrite bind_get, Hm, Hs, H1, H2, H3, H4, <- H0, !Nat.eqb_refl.
  reflexivity.
Qed.

Lemma set_revin_same net : set_revin (revin net) net = net.
Proof. now destruct net. Qed.

Lemma length_zip_with {A B C} (f : A -> B -> C) a b :
  length b = length a -> length (zip_with f a b) = length a.
Proof.
  intros H. unfold zip_with. rewrite length_map, length_combine. lia.
Qed.

Lemma length_step_attention net x_norm :
  length (items (step_attention net x_norm)) = length (items x_norm).
Proof.
  unfold step_attention. rewrite length_attention_map;
    cbn [linear_map items]; now rewrite ?length_map.
Qed.

Lemma shape_block net x_norm :
  let out := step_head net (step_residual x_norm (step_attention net x_norm)) in
  dim1 out = dim1 x_norm /\
  dim2 out = out_features (linear_forecaster net) /\
  length (items out) = length (items x_norm).
Proof.
  cbn zeta. repeat split.
  cbn [step_head linear_map items step_residual add_entries].
  rewrite length_map, length_zip_with; auto using length_step_attention.
Qed.

(** Steps 2 to 4 on a normalised batch of fitting shape. *)
Lemma attention_block_runs {B} (fused : bool) net x_norm channels seq_len horizon
    (k : tensor3 -> M SAMFormerArchitecture B) s :
  fits net channels seq_len horizon ->
  dim2 x_norm = seq_len ->
  (queries <- lift_result (Linear_call (compute_queries net) x_norm) ;;
   keys <- lift_result (Linear_call (compute_keys net) x_norm) ;;
   values <- lift_result (Linear_call (compute_values net) x_norm) ;;
   att_score <- lift_result
                  (if fused
                   then F_scaled_dot_product_attention queries keys values
                   else scaled_dot_product_attention queries keys values) ;;
   out <- lift_result (tensor_add x_norm att_score) ;;
   out <- lift_result (Linear_call (linear_forecaster net) out) ;;
   k out)%monad s
  = k (step_head net (step_residual x_norm (step_attention net x_norm))) s.
Proof.
  intros [Hq Hk Hh Hvi Hvo Hfi Hfo Hc] H2.
  rewrite !Linear_call_ok by congruence.
  rewrite !bind_lift_ok.
  assert (Hatt : attention (linear_map (compute_queries net) x_norm)
                   (linear_map (compute_keys net) x_norm)
                   (linear_map (compute_values net) x_norm)
                 = Ok (step_attention net x_norm)).
  { apply attention_ok; cbn [linear_map dim1 dim2 items]; auto; now rewrite !length_map. }
  replace (if fused
           then F_scaled_dot_product_attention (linear_map (compute_queries net) x_norm)
                  (linear_map (compute_keys net) x_norm) (linear_map (compute_values net) x_norm)
           else scaled_dot_product_attention (linear_map (compute_queries net) x_norm)
                  (linear_map (compute_keys net) x_norm) (linear_map (compute_values net) x_norm))
    with (Ok (step_attention net x_norm)) by (destruct fused; now rewrite <- Hatt).
  rewrite bind_lift_ok.
  rewrite tensor_add_ok; cycle 1.
  - reflexivity.
  - cbn [step_attention attention_map linear_map dim2]. congruence.
  - unfold step_attention. rewrite length_attention_map;
      cbn [linear_map items]; now rewrite ?length_map.
  - rewrite bind_lift_ok, Linear_call_ok by (cbn [step_residual add_entries dim2]; congruence).
    now rewrite bind_lift_ok.
Qed.

(** On a batch whose shape fits the layers, the forward pass returns,
    returns what the six steps compute, and leaves the network as it
    was but for the statistics. *)
Lemma forward_runs fused net x flatten_output channels seq_len horizon :
  fits net channels seq_len horizon ->
  dim1 x = channels -> dim2 x = seq_len ->
  forward fused x flatten_output net =
  Outcome (Ok (forward_steps net x flatten_output))
          (set_revin (revin_after net x) net) [].
Proof.
  intros Hfits H1 H2.
  unfold forward, forward_steps, forward_steps3, step_normalise, revin_after.
  rewrite bind_get.
  destruct (use_revin net) eqn:Hr.
  - pose proof (fits_channels Hfits Hr) as Hc.
    destruct (length_statistics (transpose12 x)) as [Lmu Lsigma].
    destruct (statistics_of (transpose12 x)) as [mu sigma] eqn:Hst.
    assert (Dmu : dim2 mu = channels /\ dim2 sigma = channels).
    { unfold statistics_of in Hst. injection Hst as <- <-. simpl. auto. }
    destruct Dmu as [Dmu Dsigma]. cbn [fst snd] in Lmu, Lsigma.
    set (r1 := set_statistics (Some mu) (Some sigma) (revin net)).
    set (x_norm := transpose12 (normalize (revin net) (transpose12 x) mu sigma)).
    assert (Hnorm : (t <- self_revin (transpose12 x) norm ;; ret (transpose12 t))%monad net
                    = Outcome (Ok x_norm) (set_revin r1 net) []).
    { erewrite bind_ok_silent by (apply self_revin_norm; simpl; congruence).
      rewrite Hst. reflexivity. }
    erewrite bind_ok_silent by exact Hnorm.
    assert (Ln : length (items x_norm) = length (items x)).
    { subst x_norm. unfold transpose12 at 1. cbn [items]. rewrite length_map.
      unfold normalize. rewrite length_apply_statistics; auto.
      simpl. now rewrite length_map. }
    erewrite attention_block_runs by (eauto; simpl; congruence).
    set (out := step_head net (step_residual x_norm (step_attention net x_norm))).
    assert (Hden : self_revin (transpose12 out) denorm (set_revin r1 net)
                   = Outcome (Ok (denormalize (revin net) (transpose12 out) mu sigma))
                             (set_revin r1 net) []).
    { destruct (shape_block net x_norm) as (Do1 & Do2 & Lo). fold out in Do1, Do2, Lo.
      erewrite self_revin_denorm; try reflexivity;
        cbn [transpose12 dim1 dim2 items set_revin revin r1 set_statistics num_features];
        rewrite ?length_map; try congruence.
      - rewrite Do1. subst x_norm. simpl. congruence.
      - rewrite Do1. subst x_norm. simpl. congruence.
      - rewrite Do1. subst x_norm. simpl. congruence.
      - rewrite Lo, Ln, Lmu. simpl. now rewrite length_map.
      - rewrite Lo, Ln, Lsigma. simpl. now rewrite length_map. }
    erewrite bind_ok_silent by (erewrite bind_ok_silent by exact Hden; reflexivity).
    destruct flatten_output; reflexivity.
  - rewrite bind_ret.
    erewrite attention_block_runs by eauto.
    rewrite bind_ret, set_revin_same.
    destruct flatten_output; reflexivity.
Qed.

(** ** Shapes *)

Lemma well_formed_transpose12 t : well_formed3 (transpose12 t).
Proof.
  unfold well_formed3. cbn [transpose12 items dim1 dim2].
  apply Forall_forall. intros s Hs. apply in_map_iff in Hs as (s0 & <- & _).
  unfold transpose_sample. apply length_tabulate.
Qed.

Lemma well_formed_linear_map l t : well_formed3 (linear_map l t).
Proof.
  unfold well_formed3. cbn [linear_map items dim1 dim2].
  apply Forall_forall. intros s Hs. apply in_map_iff in Hs as (s0 & <- & _).
  unfold linear_sample. apply length_tabulate.
Qed.

Lemma shape_forward_steps3 net x :
  shape3 (forward_steps3 net x)
  = (length (items x), dim1 x, out_features (linear_forecaster net))
  /\ well_formed3 (forward_steps3 net x).
Proof.
  unfold forward_steps3, step_normalise.
  destruct (use_revin net).
  - destruct (length_statistics (transpose12 x)) as [Lmu Lsigma].
    destruct (statistics_of (transpose12 x)) as [mu sigma]. cbn [fst snd] in *.
    set (x_norm := transpose12 (normalize (revin net) (transpose12 x) mu sigma)).
    destruct (shape_block net x_norm) as (D1 & D2 & Lo).
    set (out := step_head net (step_residual x_norm (step_attention net x_norm))) in *.
    assert (Ln : length (items x_norm) = length (items x)).
    { subst x_norm. unfold transpose12 at 1. cbn [items]. rewrite length_map.
      unfold normalize. rewrite length_apply_statistics; auto.
      simpl. now rewrite length_map. }
    split; [|apply well_formed_transpose12].
    unfold step_denormalise, shape3.
    cbn [transpose12 denormalize apply_statistics dim1 dim2 items].
    rewrite D1, D2. f_equal. f_equal.
    rewrite !length_map, length_zip3; rewrite ?length_map; try congruence.
    + rewrite Lmu. cbn [transpose12 items]. rewrite length_map. congruence.
    + rewrite Lsigma. cbn [transpose12 items]. rewrite length_map. congruence.
  - destruct (shape_block net x) as (D1 & D2 & Lo).
    split; [|apply well_formed_linear_map].
    unfold step_denormalise, shape3. now rewrite D1, D2, Lo.
Qed.

(** ** What the forward pass leaves behind *)

Lemma unchanged_bind {S A B} (m : M S A) (k : A -> M S B) :
  unchanged m -> (forall a, unchanged (k a)) -> unchanged (bind m k).
Proof.
  apply keeps_bind; congruence.
Qed.

Lemma unchanged_lift_result {S A} (r : result A) : unchanged (@lift_result S A r).
Proof. intros s. reflexivity. Qed.

Lemma unchanged_ret {S A} (a : A) : unchanged (@ret S A a).
Proof. intros s. reflexivity. Qed.

Lemma final_bind_unchanged {S A B} (m : M S A) (k : A -> M S B) s :
  (forall a, unchanged (k a)) -> final (bind m k s) = final (m s).
Proof.
  intros Hk. rewrite final_bind. destruct (value (m s)); auto. apply Hk.
Qed.

Lemma unchanged_self_revin_denorm x : unchanged (self_revin x denorm).
Proof.
  intros net. unfold self_revin, zoom, RevIN_call. rewrite bind_get.
  destruct (mean (revin net)), (stdev (revin net));
    try (cbn; apply set_revin_same).
  match goal with |- context [if ?c then _ else _] => destruct c end;
    cbn; apply set_revin_same.
Qed.

Lemma final_self_revin_norm x net :
  final (self_revin x norm net)
  = set_revin (set_statistics (Some (fst (statistics_of x)))
                              (Some (snd (statistics_of x))) (revin net)) net.
Proof.
  unfold self_revin, zoom, RevIN_call.
  rewrite bind_get. cbn [statistics_of fst snd]. rewrite bind_put.
  now destruct (dim2 x =? num_features (revin net)).
Qed.

(** Whatever the input, and whether the pass returns or raises, the
    network it leaves is the one it found with the statistics of the
    input stored (none stored when normalisation is off). *)
Lemma forward_final fused x flatten_output net :
  final (forward fused x flatten_output net) = set_revin (revin_after net x) net.
Proof.
  unfold forward. rewrite bind_get.
  assert (Htail : forall x_norm : tensor3, unchanged
    (queries <- lift_result (Linear_call (compute_queries net) x_norm) ;;
     keys <- lift_result (Linear_call (compute_keys net) x_norm) ;;
     values <- lift_result (Linear_call (compute_values net) x_norm) ;;
     att_score <- lift_result
                    (if fused
                     then F_scaled_dot_product_attention queries keys values
                     else scaled_dot_product_attention queries keys values) ;;
     out <- lift_result (tensor_add x_norm att_score) ;;
     out <- lift_result (Linear_call (linear_forecaster net) out) ;;
     out <- (if use_revin net
             then t <- self_revin (transpose12 out) denorm ;; ret (transpose12 t)
             else ret out) ;;
     match flatten_output return M _ (forward_output flatten_output) with
     | true => ret (flatten12 out)
     | false => ret out
     end)%monad).
  { intros x_norm.
    repeat (apply unchanged_bind; [apply unchanged_lift_result | intros ?]).
    apply unchanged_bind.
    - destruct (use_revin net); [|apply unchanged_ret].
      apply unchanged_bind; [apply unchanged_self_revin_denorm | intros; apply unchanged_ret].
    - intros. destruct flatten_output; apply unchanged_ret. }
  rewrite final_bind_unchanged by exact Htail.
  unfold revin_after. destruct (use_revin net).
  - rewrite final_bind_unchanged by (intros; apply unchanged_ret).
    rewrite final_self_revin_norm.
    now destruct (statistics_of (transpose12 x)).
  - cbn. now rewrite set_revin_same.
Qed.

Lemma forward_silent fused x flatten_output : silent (forward fused x flatten_output).
Proof.
  unfold forward.
  assert (Hrevin : forall t mode, silent (self_revin t mode)).
  { intros t mode net. unfold self_revin, zoom, RevIN_call.
    destruct mode.
    - rewrite bind_get. cbn [statistics_of]. rewrite bind_put.
      now destruct (dim2 t =? num_features (revin net)).
    - rewrite bind_get.
      destruct (mean (revin net)), (stdev (revin net)); try reflexivity.
      match goal with |- context [if ?c then _ else _] => now destruct c end. }
  assert (Hlift : forall A (r : result A), silent (@lift_result SAMFormerArchitecture A r))
    by (intros A r s; reflexivity).
  assert (Hret : forall A (a : A), silent (@ret SAMFormerArchitecture A a))
    by (intros A a s; reflexivity).
  apply silent_bind; [intros s; reflexivity | intros self].
  apply silent_bind.
  { destruct (use_revin self); [|apply Hret].
    apply silent_bind; [apply Hrevin | intros; apply Hret]. }
  intros x_norm.
  repeat (apply silent_bind; [apply Hlift | intros ?]).
  apply silent_bind.
  { destruct (use_revin self); [|apply Hret].
    apply silent_bind; [apply Hrevin | intros; apply Hret]. }
  intros. destruct flatten_output; apply Hret.
Qed.

(** ** One sample at a time *)

Lemma items_forward_steps3 net x :
  items (forward_steps3 net x)
  = map (forward_sample net (dim1 x) (dim2 x)) (items x).
Proof.
  unfold forward_steps3, step_normalise, forward_sample.
  destruct (use_revin net).
  - unfold statistics_of, step_denormalise, step_head, step_residual, step_attention.
    unfold normalize, denormalize, apply_statistics, attention_map, add_entries,
      linear_map, transpose12.
    cbn [dim1 dim2 items].
    repeat (rewrite ?map_map; rewrite ?zip3_map; rewrite ?zip_with_map).
    reflexivity.
  - unfold step_denormalise, step_head, step_residual, step_attention.
    unfold attention_map, add_entries, linear_map.
    cbn [dim1 dim2 items].
    repeat (rewrite ?map_map; rewrite ?zip3_map; rewrite ?zip_with_map_r).
    reflexivity.
Qed.

(* ------------------------------------------------------------------ *)
(** * The calls of the trainer, one by one *)
(* ------------------------------------------------------------------ *)

Lemma fits_layout net net' channels seq_len horizon :
  layout net' = layout net ->
  fits net channels seq_len horizon -> fits net' channels seq_len horizon.
Proof.
  unfold layout. intros H [Hq Hk Hh Hvi Hvo Hfi Hfo Hc].
  injection H as E1 E2 E3 E4 E5 E6 E7 E8 E9 E10.
  constructor; try congruence.
  intros Hr. rewrite E9. apply Hc. congruence.
Qed.

Lemma length_pointwise f p g : length (pointwise f p g) = length p.
Proof.
  revert g. induction p as [|v p IH]; intros g; simpl; auto.
Qed.

Lemma parameters_assign p net :
  length p = 10 -> parameters (assign_parameters p net) = p.
Proof.
  intros H.
  do 10 (destruct p as [|? p]; [discriminate H|]).
  destruct p; [reflexivity | discriminate H].
Qed.

Lemma all_zero_zeros_like g : all_zero (zeros_like g).
Proof.
  unfold all_zero, zeros_like.
  apply Forall_forall. intros t Ht. apply in_map_iff in Ht as (t0 & <- & _).
  apply Forall_forall. intros v Hv. now apply in_map_iff in Hv as (v0 & <- & _).
Qed.

Section TrainerCalls.
Context {torch : Torch}.

Lemma set_network_twice a b w :
  set_network b (set_network a w) = set_network b w.
Proof. reflexivity. Qed.

Lemma network_set_network n w : network (this (set_network n w)) = n.
Proof. reflexivity. Qed.

Lemma network_call_runs g x w net channels seq_len horizon :
  network (this w) = Some net ->
  fits net channels seq_len horizon ->
  dim1 x = channels -> dim2 x = seq_len ->
  network_call g x w =
  Outcome (Ok {| data := forward_steps net x true;
                 grad_fn := if g then Some (net, x) else None |})
          (set_network (Some (after_forward net x)) w)
          [Forward g].
Proof.
  intros Hn Hfits H1 H2. unfold network_call, self_network. rewrite Hn.
  rewrite bind_emit, bind_get.
  erewrite bind_ok_silent by (eapply forward_runs; eauto).
  reflexivity.
Qed.

Lemma criterion_call_runs out y w :
  length (rows (data out)) = length (rows y) -> width (data out) = width y ->
  criterion_call out y w =
  Outcome (Ok {| item := mean_squared_error (data out) y;
                 loss_graph := match grad_fn out with
                               | Some (net, x) => Some (net, x, y)
                               | None => None
                               end |})
          w [Loss].
Proof.
  intros H1 H2. unfold criterion_call, mse_loss, broadcastable.
  rewrite bind_emit, H1, H2, !Nat.eqb_refl. cbn [orb andb].
  now rewrite bind_lift_ok.
Qed.

Lemma backward_runs loss w at_net x y net :
  loss_graph loss = Some (at_net, x, y) ->
  network (this w) = Some net ->
  backward loss w =
  Outcome (Ok tt) (set_network (Some (after_backward at_net x y net)) w) [Backward].
Proof.
  intros Hg Hn. unfold backward, update_parameters.
  rewrite bind_emit, Hg, bind_get, Hn. reflexivity.
Qed.

Lemma SAM_first_step_runs opt w net :
  network (this w) = Some net ->
  SAM_first_step opt true w =
  Outcome (Ok (ascended opt net))
          (set_network (Some (after_first_step (sam_rho opt) net)) w)
          [FirstStep true].
Proof.
  intros Hn. unfold SAM_first_step, current_network, update_parameters.
  rewrite bind_emit.
  rewrite bind_ok_silent with (a := net) (s1 := w) by (now rewrite bind_get, Hn).
  rewrite bind_ok_silent
    with (a := tt)
         (s1 := set_network (Some (assign_parameters
                  (pointwise Rplus (parameters net)
                     (displacement (sam_rho opt) (grads net))) net)) w)
    by (now rewrite bind_get, Hn).
  rewrite bind_ok_silent
    with (a := tt) (s1 := set_network (Some (after_first_step (sam_rho opt) net)) w)
    by (now rewrite bind_get).
  reflexivity.
Qed.

Lemma SAM_second_step_runs opt w net :
  network (this w) = Some net ->
  SAM_second_step opt true w =
  Outcome (Ok (descended opt net))
          (set_network (Some (after_second_step opt net)) w)
          [SecondStep true].
Proof.
  intros Hn. unfold SAM_second_step, current_network, update_parameters.
  rewrite bind_emit.
  rewrite bind_ok_silent with (a := net) (s1 := w) by (now rewrite bind_get, Hn).
  unfold descended, after_second_step, restored_parameters.
  destruct (optimizer_update (base_class opt) (base_state opt)
              match e_w opt with
              | Some e => pointwise Rminus (parameters net) e
              | None => parameters net
              end (grads net)) as [p st].
  rewrite bind_ok_silent
    with (a := tt) (s1 := set_network (Some (assign_parameters p net)) w)
    by (now rewrite bind_get, Hn).
  rewrite bind_ok_silent
    with (a := tt)
         (s1 := set_network (Some (zero_gradients (assign_parameters p net))) w)
    by (now rewrite bind_get).
  reflexivity.
Qed.

Lemma optimizer_zero_grad_runs opt w net :
  network (this w) = Some net ->
  optimizer_zero_grad opt w =
  Outcome (Ok tt) (set_network (Some (zero_gradients net)) w) [ZeroGrad].
Proof.
  intros Hn. unfold optimizer_zero_grad, update_parameters.
  now rewrite bind_emit, bind_get, Hn.
Qed.

Lemma optimizer_step_runs opt w net :
  network (this w) = Some net ->
  optimizer_step opt w =
  Outcome (Ok (stepped opt net)) (set_network (Some (after_step opt net)) w) [Step].
Proof.
  intros Hn. unfold optimizer_step, current_network, update_parameters.
  rewrite bind_emit.
  rewrite bind_ok_silent with (a := net) (s1 := w) by (now rewrite bind_get, Hn).
  unfold stepped, after_step.
  destruct (optimizer_update (base_class opt) (base_state opt)
              (parameters net) (grads net)) as [p st].
  rewrite bind_ok_silent
    with (a := tt) (s1 := set_network (Some (assign_parameters p net)) w)
    by (now rewrite bind_get, Hn).
  reflexivity.
Qed.

(** ** No call changes the sizes of the layers *)

Lemma layout_after_forward net x : layout (after_forward net x) = layout net.
Proof.
  unfold after_forward, revin_after, layout. cbn [set_revin use_revin revin
    compute_keys compute_queries compute_values linear_forecaster].
  destruct (use_revin net); [|reflexivity].
  now destruct (statistics_of (transpose12 x)).
Qed.

Lemma layout_after_backward at_net x y net :
  layout (after_backward at_net x y net) = layout net.
Proof. reflexivity. Qed.

Lemma layout_zero_gradients net : layout (zero_gradients net) = layout net.
Proof. reflexivity. Qed.

Lemma layout_assign_parameters p net : layout (assign_parameters p net) = layout net.
Proof. reflexivity. Qed.

Lemma layout_set_training b net : layout (set_training b net) = layout net.
Proof. reflexivity. Qed.

Lemma layout_after_first_step r net : layout (after_first_step r net) = layout net.
Proof. reflexivity. Qed.

Lemma layout_after_second_step opt net : layout (after_second_step opt net) = layout net.
Proof. reflexivity. Qed.

Lemma layout_after_step opt net : layout (after_step opt net) = layout net.
Proof. reflexivity. Qed.

Lemma layout_perturbed opt net x y : layout (perturbed opt net x y) = layout net.
Proof.
  unfold perturbed.
  now rewrite layout_after_first_step, layout_after_backward, layout_after_forward.
Qed.

Lemma layout_sam_trained opt net x y : layout (sam_trained opt net x y) = layout net.
Proof.
  unfold sam_trained.
  now rewrite layout_after_second_step, layout_after_backward, layout_after_forward,
    layout_perturbed.
Qed.

Lemma layout_plain_trained opt net x y : layout (plain_trained opt net x y) = layout net.
Proof.
  unfold plain_trained.
  now rewrite layout_after_step, layout_after_backward, layout_zero_gradients,
    layout_after_forward.
Qed.

(** ** One batch *)

Section OneBatch.
Variables (w : world) (net : SAMFormerArchitecture).
Variables (x_batch : tensor3) (y_batch : tensor2).
Variables (channels seq_len horizon : nat).
Hypothesis Hnet : network (this w) = Some net.
Hypothesis Hfits : fits net channels seq_len horizon.
Hypothesis Hchannels : dim1 x_batch = channels.
Hypothesis Hlength : dim2 x_batch = seq_len.
Hypothesis Hwidth : width y_batch = channels * horizon.
Hypothesis Hrows : length (rows y_batch) = length (items x_batch).

Lemma shape_output net' :
  layout net' = layout net ->
  length (rows (forward_steps net' x_batch true)) = length (rows y_batch) /\
  width (forward_steps net' x_batch true) = width y_batch.
Proof.
  intros Hl. pose proof (fits_layout Hl Hfits) as Hf.
  destruct (shape_forward_steps3 net' x_batch) as [Hs _].
  unfold shape3 in Hs. injection Hs as E1 E2 E3.
  cbn [forward_steps flatten12 rows width].
  rewrite E1, E2, E3, (fits_head_out Hf). split; congruence.
Qed.

(** The first four calls are the same in both branches up to the
    test on the class of the optimizer. *)
Lemma forward_and_loss_run net' w' :
  network (this w') = Some net' -> layout net' = layout net ->
  forall B (rest : loss_t -> M world B) r s ev,
  rest (loss_at net' x_batch y_batch)
       (set_network (Some (after_forward net' x_batch)) w') = Outcome r s ev ->
  (out_batch <- network_call true x_batch ;;
   loss <- criterion_call out_batch y_batch ;;
   rest loss)%monad w'
  = Outcome r s (Forward true :: Loss :: ev).
Proof.
  intros Hn Hl B rest r s ev Hrest.
  pose proof (fits_layout Hl Hfits) as Hf.
  erewrite bind_ok by (eapply network_call_runs; eauto).
  destruct (shape_output Hl) as [E1 E2].
  erewrite bind_ok by (apply criterion_call_runs; assumption).
  cbn [data grad_fn]. fold (loss_at net' x_batch y_batch).
  rewrite Hrest. reflexivity.
Qed.

(** The sharpness-aware branch, from start to end. *)
Lemma train_step_sam_runs opt :
  class_name opt = "SAM"%string ->
  train_step opt x_batch y_batch w =
  Outcome (Ok (sam_optimizer opt net x_batch y_batch,
               loss_at (perturbed opt net x_batch y_batch) x_batch y_batch))
          (set_network (Some (sam_trained opt net x_batch y_batch)) w)
          sam_calls.
Proof.
  intros Hc. unfold train_step.
  eapply forward_and_loss_run; eauto.
  rewrite Hc. cbn [String.eqb Ascii.eqb Bool.eqb].
  erewrite bind_ok by (eapply backward_runs; [reflexivity | reflexivity]).
  erewrite bind_ok by (eapply SAM_first_step_runs; reflexivity).
  cbn [value final events app]. rewrite !set_network_twice.
  erewrite forward_and_loss_run with (net' := perturbed opt net x_batch y_batch);
    [reflexivity | reflexivity | apply layout_perturbed |].
  erewrite bind_ok by (eapply backward_runs; [reflexivity | reflexivity]).
  erewrite bind_ok by (eapply SAM_second_step_runs; reflexivity).
  reflexivity.
Qed.

(** The other branch, from start to end. *)
Lemma train_step_plain_runs opt :
  class_name opt <> "SAM"%string ->
  train_step opt x_batch y_batch w =
  Outcome (Ok (plain_optimizer opt net x_batch y_batch,
               loss_at net x_batch y_batch))
          (set_network (Some (plain_trained opt net x_batch y_batch)) w)
          plain_calls.
Proof.
  intros Hc. unfold train_step.
  eapply forward_and_loss_run; eauto.
  apply String.eqb_neq in Hc. rewrite Hc.
  erewrite bind_ok by (eapply optimizer_zero_grad_runs; reflexivity).
  erewrite bind_ok by (eapply backward_runs; [reflexivity | reflexivity]).
  erewrite bind_ok by (eapply optimizer_step_runs; reflexivity).
  reflexivity.
Qed.
End OneBatch.

(** ** The start of [fit] *)

Lemma usable_seed_dec random_state :
  {usable_seed random_state} + {~ usable_seed random_state}.
Proof.
  destruct random_state as [s|]; [|left; exact I].
  unfold usable_seed, seed_in_range.
  destruct (Z_le_dec 0 s); [|right; lia].
  destruct (Z_le_dec s 4294967295); [left; lia | right; lia].
Qed.

(** With no seed, or a seed every call accepts, the seeding returns. *)
Lemma seed_everything_runs random_state w :
  usable_seed random_state ->
  seed_everything random_state w =
  Outcome (Ok tt) (seeded_world random_state w) (seed_calls random_state).
Proof.
  destruct random_state as [s|]; [|reflexivity]. intros [H0 H1].
  unfold seed_everything, torch_manual_seed, np_random_seed.
  assert (Ht : ((-9223372036854775808 <=? s) && (s <=? 18446744073709551615))%Z = true)
    by (apply andb_true_intro; split; apply Z.leb_le; lia).
  assert (Hn : ((0 <=? s) && (s <=? 4294967295))%Z = true)
    by (apply andb_true_intro; split; apply Z.leb_le; lia).
  rewrite Ht, Hn. reflexivity.
Qed.

(** With any other seed, one of the seeding calls raises: the trainer
    is as it was, and nothing but seeding calls have been made. *)
Lemma seed_everything_fails s w :
  ~ seed_in_range s ->
  exists e w' ev,
    seed_everything (Some s) w = Outcome (Raise e) w' ev /\
    (exists msg, e = ValueError msg \/ e = RuntimeError msg) /\
    this w' = this w /\
    (forall c, In c ev -> In c (seed_calls (Some s))).
Proof.
  intros Hbad. unfold seed_everything, torch_manual_seed, np_random_seed.
  destruct ((-9223372036854775808 <=? s) && (s <=? 18446744073709551615))%Z eqn:Ht.
  - assert (Hn : ((0 <=? s) && (s <=? 4294967295))%Z = false).
    { apply andb_false_iff. unfold seed_in_range in Hbad.
      destruct (Z_le_dec 0 s); [right | left]; apply Z.leb_gt; lia. }
    rewrite Hn. do 3 eexists. split; [reflexivity|].
    split; [eexists; left; reflexivity|]. split; [reflexivity|].
    intros c Hc. cbn in Hc |- *. tauto.
  - do 3 eexists. split; [reflexivity|].
    split; [eexists; right; reflexivity|]. split; [reflexivity|].
    intros c Hc. cbn in Hc |- *. tauto.
Qed.

Lemma Linear_init_runs in_f out_f w :
  Linear_init in_f out_f w =
  let '(wt, b, g) := linear_init in_f out_f (torch_rng (rng w)) in
  Outcome (Ok {| in_features := in_f; out_features := out_f; weight := wt; bias := b |})
          (set_torch_rng g w) [].
Proof.
  unfold Linear_init. rewrite bind_get.
  destruct (linear_init in_f out_f (torch_rng (rng w))) as [[wt b] g].
  now rewrite bind_put.
Qed.

Lemma SAMFormerArchitecture_init_runs c l h p r w :
  SAMFormerArchitecture_init c l h p r w =
  Outcome (Ok (fst (built_network c l h p r (torch_rng (rng w)))))
          (set_torch_rng (snd (built_network c l h p r (torch_rng (rng w)))) w)
          [Allocate c l h p r].
Proof.
  unfold SAMFormerArchitecture_init, built_network. rewrite bind_emit.
  assert (Hstep : forall B in_f out_f (k : Linear -> M world B) w0,
    bind (Linear_init in_f out_f) k w0 =
    let '(wt, b, g) := linear_init in_f out_f (torch_rng (rng w0)) in
    k {| in_features := in_f; out_features := out_f; weight := wt; bias := b |}
      (set_torch_rng g w0)).
  { intros B in_f out_f k w0. pose proof (Linear_init_runs in_f out_f w0) as H.
    destruct (linear_init in_f out_f (torch_rng (rng w0))) as [[wt b] g].
    now apply bind_ok_silent. }
  rewrite Hstep.
  destruct (linear_init l h (torch_rng (rng w))) as [[wk bk] g1].
  rewrite Hstep. cbn [set_torch_rng set_rng rng torch_rng].
  destruct (linear_init l h g1) as [[wq bq] g2].
  rewrite Hstep. cbn [set_torch_rng set_rng rng torch_rng].
  destruct (linear_init l l g2) as [[wv bv] g3].
  rewrite Hstep. cbn [set_torch_rng set_rng rng torch_rng].
  destruct (linear_init l p g3) as [[wf bf] g4].
  reflexivity.
Qed.

(** Lines 79-90 in closed form: the only exception before the network
    is built is the division by a channel count of zero; the loader
    is built last. *)
Lemma fit_setup_runs x y w :
  fit_setup x y w =
  if (dim1 x =? 0)%nat
  then Outcome (Raise ZeroDivisionError) w []
  else Outcome
         match DataLoader_init (length (items x)) (batch_size (this w)) true with
         | Ok loader =>
             Ok (fresh_optimizer x y w, {| examples := x; labels := y |}, loader)
         | Raise e => Raise e
         end
         (built_world x y w)
         [Allocate (dim1 x) (dim2 x) 16 (width y / dim1 x) (self_use_revin (this w));
          Train].
Proof.
  unfold fit_setup, get_self.
  rewrite bind_ok_silent with (a := this w) (s1 := w) by (now rewrite bind_get).
  unfold floor_div. destruct (dim1 x =? 0)%nat; [reflexivity|].
  rewrite bind_lift_ok.
  erewrite bind_ok by apply SAMFormerArchitecture_init_runs.
  unfold assign_network.
  set (built := built_network (dim1 x) (dim2 x) 16 (width y / dim1 x)
                  (self_use_revin (this w)) (torch_rng (rng w))).
  rewrite bind_ok_silent
    with (a := tt) (s1 := set_network (Some (fst built)) (set_torch_rng (snd built) w))
    by (now rewrite bind_get).
  rewrite bind_ok
    with (a := tt) (s1 := built_world x y w) (ev1 := [Train])
    by reflexivity.
  unfold current_network.
  rewrite bind_ok_silent
    with (a := fresh_network x y w) (s1 := built_world x y w)
    by (now rewrite bind_get).
  unfold dataset_len. cbn [examples].
  change (batch_size (this w)) with (batch_size (this w)).
  destruct (DataLoader_init (length (items x)) (batch_size (this w)) true) as [loader|e].
  - rewrite bind_lift_ok. reflexivity.
  - reflexivity.
Qed.
End TrainerCalls.

(* ------------------------------------------------------------------ *)
(** * What every run of the training loop preserves *)
(* ------------------------------------------------------------------ *)

Section TrainingInvariants.
Context {torch : Torch}.

Variable lay : (nat * nat) * (nat * nat) * (nat * nat) * (nat * nat) * (nat * bool).

Local Abbreviation I := (holds_layout lay).

Lemma holds_layout_set_network net w :
  layout net = lay -> I (set_network (Some net) w).
Proof. intros H. exists net. split; auto. Qed.

Lemma network_call_always g x w net :
  network (this w) = Some net ->
  events (network_call g x w) = [Forward g] /\
  final (network_call g x w) = set_network (Some (after_forward net x)) w.
Proof.
  intros Hn. unfold network_call, self_network. rewrite Hn.
  rewrite bind_emit, bind_get.
  set (o := bind (forward has_fused_attention x true) _ net).
  assert (Hev : events o = []).
  { apply silent_bind; [apply forward_silent | intros a s; reflexivity]. }
  assert (Hfin : final o = after_forward net x).
  { unfold o. rewrite final_bind_unchanged by (intros a s; reflexivity).
    apply forward_final. }
  cbn [value final events]. rewrite Hev, Hfin. destruct o. auto.
Qed.

Lemma hoare_network_call g x :
  hoare I (network_call g x) (fun _ => I) I not_plain.
Proof.
  intros w (net & Hn & Hl).
  destruct (@network_call_always g x w net Hn) as [Hev Hfin]. rewrite Hev, Hfin.
  assert (I (set_network (Some (after_forward net x)) w)).
  { apply holds_layout_set_network. now rewrite layout_after_forward. }
  split.
  - repeat constructor; discriminate.
  - destruct (value (network_call g x w)); auto.
Qed.

Lemma hoare_criterion_call out y :
  hoare I (criterion_call out y) (fun _ => I) I not_plain.
Proof.
  unfold criterion_call.
  eapply hoare_bind; [apply hoare_emit with (Q := fun _ => I) | intros ?].
  - split; discriminate.
  - auto.
  - eapply hoare_bind; [apply hoare_lift_result with (Q := fun _ => I) | intros v].
    + auto.
    + auto.
    + apply hoare_ret. auto.
Qed.

Lemma hoare_update_parameters f :
  (forall net, layout (f net) = layout net) ->
  hoare I (update_parameters f) (fun _ => I) I not_plain.
Proof.
  intros Hf w (net & Hn & Hl). unfold update_parameters.
  rewrite bind_get, Hn. cbn. split; [constructor|].
  apply holds_layout_set_network. now rewrite Hf.
Qed.

Lemma hoare_current_network :
  hoare I current_network (fun _ => I) I not_plain.
Proof.
  intros w Hw. unfold current_network. rewrite bind_get.
  destruct (network (this w)); cbn; split; auto.
Qed.

Lemma hoare_backward loss :
  hoare I (backward loss) (fun _ => I) I not_plain.
Proof.
  unfold backward.
  eapply hoare_bind; [apply hoare_emit with (Q := fun _ => I) | intros ?].
  - split; discriminate.
  - auto.
  - destruct (loss_graph loss) as [[[at_net x] y]|].
    + apply hoare_update_parameters. reflexivity.
    + apply hoare_raise. auto.
Qed.

Lemma hoare_SAM_first_step opt zero_grad :
  hoare I (SAM_first_step opt zero_grad)
    (fun opt' w => I w /\ class_name opt' = class_name opt) I not_plain.
Proof.
  unfold SAM_first_step.
  eapply hoare_bind; [apply hoare_emit with (Q := fun _ => I) | intros ?].
  - split; discriminate.
  - auto.
  - eapply hoare_bind; [apply hoare_current_network | intros net].
    eapply hoare_bind; [apply hoare_update_parameters; reflexivity | intros ?].
    eapply hoare_bind with (Q1 := fun _ => I).
    + destruct zero_grad.
      * apply hoare_update_parameters. reflexivity.
      * apply hoare_ret. auto.
    + intros ?. apply hoare_ret. auto.
Qed.

Lemma hoare_SAM_second_step opt zero_grad :
  hoare I (SAM_second_step opt zero_grad)
    (fun opt' w => I w /\ class_name opt' = class_name opt) I not_plain.
Proof.
  unfold SAM_second_step.
  eapply hoare_bind; [apply hoare_emit with (Q := fun _ => I) | intros ?].
  - split; discriminate.
  - auto.
  - eapply hoare_bind; [apply hoare_current_network | intros net].
    destruct (optimizer_update _ _ _ _) as [p st].
    eapply hoare_bind; [apply hoare_update_parameters; reflexivity | intros ?].
    eapply hoare_bind with (Q1 := fun _ => I).
    + destruct zero_grad.
      * apply hoare_update_parameters. reflexivity.
      * apply hoare_ret. auto.
    + intros ?. apply hoare_ret. auto.
Qed.

(** One batch with a sharpness-aware optimizer: no call of the other
    branch, the sizes of the layers stay, the optimizer stays
    sharpness-aware; also when some call raises. *)
Lemma hoare_train_step opt x_batch y_batch :
  class_name opt = "SAM"%string ->
  hoare I (train_step opt x_batch y_batch)
    (fun r w => I w /\ class_name (fst r) = "SAM"%string) I not_plain.
Proof.
  intros Hc. unfold train_step.
  eapply hoare_bind; [apply hoare_network_call | intros out_batch].
  eapply hoare_bind; [apply hoare_criterion_call | intros loss].
  rewrite Hc. cbn [String.eqb Ascii.eqb Bool.eqb].
  eapply hoare_bind; [apply hoare_backward | intros ?].
  eapply hoare_bind; [apply hoare_SAM_first_step | intros opt1].
  apply hoare_pure. intros Hc1. rewrite Hc in Hc1.
  eapply hoare_bind; [apply hoare_network_call | intros out_batch2].
  eapply hoare_bind; [apply hoare_criterion_call | intros loss2].
  eapply hoare_bind; [apply hoare_backward | intros ?].
  eapply hoare_bind; [apply hoare_SAM_second_step | intros opt2].
  apply hoare_pure. intros Hc2.
  apply hoare_ret. intros s Hs. split; auto. cbn [fst]. congruence.
Qed.

Lemma hoare_train_epoch train_dataset batches opt :
  class_name opt = "SAM"%string ->
  hoare I (train_epoch train_dataset batches opt)
    (fun r w => I w /\ class_name (fst r) = "SAM"%string) I not_plain.
Proof.
  intros Hc. unfold train_epoch.
  eapply hoare_conseq
    with (P' := fun w => I w /\ class_name (fst (opt, @nil R)) = "SAM"%string)
         (X' := I) (E' := not_plain);
    [ | auto | intros a s H; exact H | auto | auto ].
  apply hoare_for_each
    with (Inv := fun (b : Optimizer * list R) w => I w /\ class_name (fst b) = "SAM"%string).
  intros [opt0 loss_list] idxs. apply hoare_pure. cbn [fst]. intros Hc0.
  unfold batch_body.
  eapply hoare_bind.
  - apply hoare_lift_result with (Q := fun _ => I); auto.
  - intros [x_batch y_batch].
    eapply hoare_bind; [apply hoare_train_step; assumption | intros [opt1 loss]].
    apply hoare_ret. auto.
Qed.

Lemma hoare_network_train :
  hoare I network_train (fun _ => I) I not_plain.
Proof.
  intros w (net & Hn & Hl). unfold network_train, self_network. rewrite Hn.
  rewrite bind_emit, bind_get. cbn. split.
  - repeat constructor; discriminate.
  - now apply holds_layout_set_network.
Qed.

Lemma hoare_batches_of loader :
  hoare I (batches_of loader) (fun _ => I) I not_plain.
Proof.
  intros w Hw. unfold batches_of. destruct (shuffle loader).
  - rewrite bind_get.
    destruct (shuffled (dataset_size loader) (torch_rng (rng w))) as [order g].
    rewrite bind_put. cbn. split; [constructor|].
    destruct Hw as (net & Hn & Hl). exists net. auto.
  - cbn. split; [constructor | assumption].
Qed.

Lemma hoare_fit_loop epochs train_dataset loader opt :
  class_name opt = "SAM"%string ->
  hoare I (fit_loop epochs train_dataset loader opt)
    (fun _ => I) I not_plain.
Proof.
  intros Hc. unfold fit_loop.
  eapply hoare_conseq
    with (P' := fun w => I w /\ class_name opt = "SAM"%string)
         (Q' := fun o w => I w /\ class_name o = "SAM"%string)
         (X' := I) (E' := not_plain); auto; try tauto.
  apply hoare_for_each
    with (Inv := fun (o : Optimizer) w => I w /\ class_name o = "SAM"%string).
  intros opt0 epoch. apply hoare_pure. intros Hc0.
  unfold epoch_body.
  eapply hoare_bind; [apply hoare_batches_of | intros batches].
  eapply hoare_bind; [apply hoare_train_epoch; assumption | intros [opt1 loss_list]].
  apply hoare_pure. cbn [fst]. intros Hc1.
  eapply hoare_bind; [apply hoare_network_train | intros ?].
  eapply hoare_bind; [apply hoare_emit with (Q := fun _ => I) | intros ?].
  - split; discriminate.
  - auto.
  - apply hoare_ret. auto.
Qed.
End TrainingInvariants.

(* ------------------------------------------------------------------ *)
(** * [fit] as a whole *)
(* ------------------------------------------------------------------ *)

Section FitFacts.
Context {torch : Torch}.

(** [fit] in closed form up to the epoch loop. *)
Lemma fit_runs x y w :
  usable_seed (random_state (this w)) ->
  let rs := random_state (this w) in
  let ws := seeded_world rs w in
  fit x y w =
  if (dim1 x =? 0)%nat
  then Outcome (Raise ZeroDivisionError) ws (seed_calls rs)
  else
    let built := [Allocate (dim1 x) (dim2 x) 16 (width y / dim1 x)
                           (self_use_revin (this w)); Train] in
    match DataLoader_init (length (items x)) (batch_size (this w)) true with
    | Raise e => Outcome (Raise e) (built_world x y ws) (seed_calls rs ++ built)
    | Ok loader =>
        let o := fit_loop (num_epochs (this w)) {| examples := x; labels := y |}
                          loader (fresh_optimizer x y ws) (built_world x y ws) in
        Outcome match value o with Ok _ => Ok tt | Raise e => Raise e end
                (final o) (seed_calls rs ++ built ++ events o)
    end.
Proof.
  intros Hseed rs ws. unfold fit, get_self.
  rewrite bind_ok_silent with (a := this w) (s1 := w) by (now rewrite bind_get).
  erewrite bind_ok by (apply seed_everything_runs; exact Hseed).
  fold rs ws.
  assert (Hthis : this ws = this w) by (unfold ws, seeded_world; now destruct rs).
  pose proof (fit_setup_runs x y ws) as Hsetup. rewrite Hthis in Hsetup.
  destruct (dim1 x =? 0)%nat.
  - rewrite bind_raise with (e := ZeroDivisionError) (s1 := ws) (ev1 := []) by exact Hsetup.
    cbn. now rewrite app_nil_r.
  - destruct (DataLoader_init (length (items x)) (batch_size (this w)) true) as [loader|e].
    + erewrite bind_ok by exact Hsetup.
      cbn [value final events].
      rewrite value_bind, final_bind, events_bind.
      destruct (fit_loop _ _ _ _ _) as [[opt|e] s ev]; cbn; now rewrite ?app_nil_r.
    + erewrite bind_raise by exact Hsetup. reflexivity.
Qed.

Lemma layout_fresh_network x y w :
  layout (fresh_network x y w)
  = ((dim2 x, 16), (dim2 x, 16), (dim2 x, dim2 x), (dim2 x, width y / dim1 x),
     (dim1 x, self_use_revin (this w))).
Proof.
  unfold fresh_network, built_network.
  destruct (linear_init (dim2 x) 16 (torch_rng (rng w))) as [[wk bk] g1].
  destruct (linear_init (dim2 x) 16 g1) as [[wq bq] g2].
  destruct (linear_init (dim2 x) (dim2 x) g2) as [[wv bv] g3].
  destruct (linear_init (dim2 x) (width y / dim1 x) g3) as [[wf bf] g4].
  reflexivity.
Qed.

Lemma fits_fresh_network x y w :
  fits (fresh_network x y w) (dim1 x) (dim2 x) (width y / dim1 x).
Proof.
  pose proof (layout_fresh_network x y w) as H. unfold layout in H.
  injection H as E1 E2 E3 E4 E5 E6 E7 E8 E9 E10.
  constructor; unfold fresh_network;
    cbn [set_training compute_keys compute_queries compute_values
         linear_forecaster revin use_revin];
    congruence.
Qed.

Lemma this_seeded_world rs w : this (seeded_world rs w) = this w.
Proof. now destruct rs. Qed.

Lemma not_plain_seed_calls rs : Forall not_plain (seed_calls rs).
Proof.
  destruct rs; repeat constructor; discriminate.
Qed.

(** A seed that a seeding call refuses stops [fit] there: it raises
    ValueError or RuntimeError, the trainer is as it was, and nothing
    but seeding calls have been made. *)
Lemma fit_bad_seed x y w s :
  random_state (this w) = Some s -> ~ seed_in_range s ->
  exists e w' ev,
    fit x y w = Outcome (Raise e) w' ev /\
    (exists msg, e = ValueError msg \/ e = RuntimeError msg) /\
    this w' = this w /\
    (forall c, In c ev -> In c (seed_calls (Some s))).
Proof.
  intros Hs Hbad.
  destruct (seed_everything_fails w Hbad) as (e & w' & ev & Hrun & He & Ht & Hev).
  exists e, w', ev. split; [|auto].
  unfold fit, get_self.
  rewrite bind_ok_silent with (a := this w) (s1 := w) by (now rewrite bind_get).
  rewrite Hs. erewrite bind_raise by exact Hrun. reflexivity.
Qed.

(** Whatever the data and the configured base optimizer, no call of
    [fit] is a call of the branch for optimizers that are not
    sharpness-aware. *)
Lemma fit_never_plain x y w : Forall not_plain (events (fit x y w)).
Proof.
  destruct (usable_seed_dec (random_state (this w))) as [Hseed|Hseed].
  2:{ destruct (random_state (this w)) as [s|] eqn:Hs; [|exfalso; apply Hseed; exact I].
      destruct (@fit_bad_seed x y w s Hs Hseed) as (e & w' & ev & Hrun & _ & _ & Hev).
      rewrite Hrun. cbn [events]. apply Forall_forall. intros c Hc.
      pose proof (not_plain_seed_calls (Some s)) as Hall.
      rewrite Forall_forall in Hall. apply Hall, Hev, Hc. }
  rewrite fit_runs by exact Hseed. cbv zeta.
  destruct (dim1 x =? 0)%nat; [apply not_plain_seed_calls|].
  assert (Hbuilt : Forall not_plain
            [Allocate (dim1 x) (dim2 x) 16 (width y / dim1 x) (self_use_revin (this w));
             Train]) by (repeat constructor; discriminate).
  destruct (DataLoader_init _ _ _) as [loader|e]; cbn [events].
  - rewrite !Forall_app. repeat split; auto using not_plain_seed_calls.
    eapply (@hoare_fit_loop _ (layout (fresh_network x y
               (seeded_world (random_state (this w)) w)))).
    + reflexivity.
    + eexists. split; reflexivity.
  - rewrite Forall_app. auto using not_plain_seed_calls.
Qed.

(** Once the network is built, nothing [fit] does changes the sizes of
    its layers, and the network stays in place; also when a later
    call raises. *)
Lemma fit_keeps_layout x y w :
  usable_seed (random_state (this w)) ->
  dim1 x <> 0 ->
  holds_layout (layout (fresh_network x y (seeded_world (random_state (this w)) w)))
               (final (fit x y w)).
Proof.
  intros Hseed Hd. rewrite fit_runs by exact Hseed. cbv zeta.
  apply Nat.eqb_neq in Hd. rewrite Hd.
  set (ws := seeded_world (random_state (this w)) w).
  assert (Hpre : holds_layout (layout (fresh_network x y ws)) (built_world x y ws))
    by (eexists; split; reflexivity).
  destruct (DataLoader_init _ _ _) as [loader|e]; cbn [final]; [|exact Hpre].
  destruct (@hoare_fit_loop _ (layout (fresh_network x y ws))
              (num_epochs (this w)) {| examples := x; labels := y |} loader
              (fresh_optimizer x y ws) eq_refl _ Hpre) as [_ Hpost].
  destruct (value (fit_loop _ _ _ _ _)); exact Hpost.
Qed.

(** The calls of [fit] up to the building of the network. *)
Lemma fit_events_start x y w :
  usable_seed (random_state (this w)) ->
  dim1 x <> 0 ->
  exists rest,
    events (fit x y w)
    = seed_calls (random_state (this w))
      ++ Allocate (dim1 x) (dim2 x) 16 (width y / dim1 x) (self_use_revin (this w))
      :: Train :: rest.
Proof.
  intros Hseed Hd. rewrite fit_runs by exact Hseed. cbv zeta.
  apply Nat.eqb_neq in Hd. rewrite Hd.
  destruct (DataLoader_init _ _ _) as [loader|e]; cbn [events app].
  - eexists. reflexivity.
  - exists []. reflexivity.
Qed.

(** Whatever happens later, the calls of [fit] start with the seeding. *)
Lemma fit_events_seed x y w :
  usable_seed (random_state (this w)) ->
  exists rest, events (fit x y w) = seed_calls (random_state (this w)) ++ rest.
Proof.
  intros Hseed. rewrite fit_runs by exact Hseed. cbv zeta.
  destruct (dim1 x =? 0)%nat; [exists []; cbn [events]; now rewrite app_nil_r|].
  destruct (DataLoader_init _ _ _) as [loader|e]; cbn [events]; eexists; reflexivity.
Qed.

Lemma fit_zero_channels x y w :
  usable_seed (random_state (this w)) ->
  dim1 x = 0 ->
  fit x y w = Outcome (Raise ZeroDivisionError)
                      (seeded_world (random_state (this w)) w)
                      (seed_calls (random_state (this w))).
Proof.
  intros Hseed Hd. rewrite fit_runs by exact Hseed. cbv zeta. now rewrite Hd.
Qed.
End FitFacts.

(* ------------------------------------------------------------------ *)
(** * Batches *)
(* ------------------------------------------------------------------ *)

Lemma chunks_upto_nil {A} fuel bs : chunks_upto fuel bs (@nil A) = [].
Proof. now destruct fuel. Qed.

Lemma chunks_upto_step {A} fuel bs (l : list A) :
  l <> [] ->
  chunks_upto (S fuel) bs l = firstn bs l :: chunks_upto fuel bs (skipn bs l).
Proof. destruct l; [congruence | reflexivity]. Qed.

Section Batches.
Context {A : Type}.

(** With a positive batch size the pieces put together give the list
    back: nothing is lost, nothing is reordered. *)
Lemma concat_chunks_upto bs fuel (l : list A) :
  bs <> 0 -> length l <= fuel -> concat (chunks_upto fuel bs l) = l.
Proof.
  intros Hbs. revert l. induction fuel as [|fuel IH]; intros l Hl.
  - destruct l; [reflexivity | simpl in Hl; lia].
  - destruct l as [|a l]; [reflexivity|].
    cbn [chunks_upto concat]. rewrite IH.
    + apply firstn_skipn.
    + rewrite length_skipn. cbn [length] in *. lia.
Qed.

Lemma concat_chunks bs (l : list A) : bs <> 0 -> concat (chunks bs l) = l.
Proof. intros H. apply concat_chunks_upto; auto. Qed.

Lemma chunks_nonempty bs (l : list A) : l <> [] -> chunks bs l <> [].
Proof.
  unfold chunks. destruct l; [congruence|]. discriminate.
Qed.

Lemma skipn_nth_error (l : list A) a x :
  nth_error l a = Some x -> skipn a l = x :: skipn (S a) l.
Proof.
  revert a. induction l as [|y l IH]; intros [|a] H; try discriminate.
  - injection H as ->. reflexivity.
  - simpl in H. change (skipn a l = x :: skipn (S a) l). now apply IH.
Qed.

Lemma firstn_seq_min n a k : firstn n (seq a k) = seq a (Nat.min n k).
Proof.
  revert a k. induction n as [|n IH]; intros a [|k]; try reflexivity.
  cbn [Nat.min seq firstn]. now rewrite IH.
Qed.

(** Fetching consecutive indices gives the corresponding slice. *)
Lemma gather_seq (l : list A) k a :
  a + k <= length l -> gather l (seq a k) = Ok (firstn k (skipn a l)).
Proof.
  revert a. induction k as [|k IH]; intros a H; [reflexivity|].
  cbn [seq gather].
  destruct (nth_error l a) as [x|] eqn:Hx.
  - rewrite IH by lia. rewrite (skipn_nth_error _ _ Hx). reflexivity.
  - apply nth_error_None in Hx. lia.
Qed.

(** The index batches of an unshuffled pass fetch the pieces of the
    data, in order. *)
Lemma gather_chunks_upto bs (l : list A) fuel a k :
  bs <> 0 -> a + k = length l ->
  Forall2 (fun idxs xs => gather l idxs = Ok xs)
          (chunks_upto fuel bs (seq a k)) (chunks_upto fuel bs (skipn a l)).
Proof.
  intros Hbs. revert a k. induction fuel as [|fuel IH]; intros a k H; [constructor|].
  assert (Hlen : length (skipn a l) = k) by (rewrite length_skipn; lia).
  destruct k as [|k].
  - apply length_zero_iff_nil in Hlen. rewrite Hlen. constructor.
  - rewrite !chunks_upto_step
      by (intros E; apply (f_equal (@length _)) in E;
          rewrite ?length_seq, ?Hlen in E; discriminate E).
    constructor.
    + rewrite firstn_seq_min, gather_seq by lia.
      f_equal. destruct (Nat.le_gt_cases bs (S k)).
      * now rewrite Nat.min_l.
      * rewrite Nat.min_r by lia. rewrite !firstn_all2 by lia. reflexivity.
    + rewrite skipn_seq, skipn_skipn.
      destruct (Nat.le_gt_cases bs (S k)).
      * rewrite (Nat.add_comm bs a). apply IH. lia.
      * replace (S k - bs) with 0 by lia.
        change (seq (a + bs) 0) with (@nil nat).
        rewrite skipn_all2 by lia. rewrite !chunks_upto_nil. constructor.
Qed.

Lemma gather_chunks bs (l : list A) :
  bs <> 0 ->
  Forall2 (fun idxs xs => gather l idxs = Ok xs)
          (chunks bs (seq 0 (length l))) (chunks bs l).
Proof.
  intros H. unfold chunks. rewrite length_seq.
  exact (@gather_chunks_upto bs l (length l) 0 (length l) H eq_refl).
Qed.
End Batches.

(* ------------------------------------------------------------------ *)
(** * Inference *)
(* ------------------------------------------------------------------ *)

Section ForecastFacts.
Context {torch : Torch}.

Lemma same_forecaster_refl net : same_forecaster net net.
Proof. split; reflexivity. Qed.

Lemma forward_sample_after_forward net x d l s :
  forward_sample (after_forward net x) d l s = forward_sample net d l s.
Proof.
  unfold after_forward, revin_after.
  destruct (use_revin net) eqn:Hr.
  - destruct (statistics_of (transpose12 x)) as [mu sigma].
    unfold forward_sample.
    cbn [set_revin set_statistics use_revin revin compute_queries compute_keys
         compute_values linear_forecaster].
    rewrite Hr. reflexivity.
  - now rewrite set_revin_same.
Qed.

Lemma same_forecaster_after_forward net0 net x :
  same_forecaster net0 net -> same_forecaster net0 (after_forward net x).
Proof.
  intros [Hl Hf]. split.
  - now rewrite layout_after_forward.
  - intros. now rewrite forward_sample_after_forward.
Qed.

Lemma same_forecaster_set_training net0 net b :
  same_forecaster net0 net -> same_forecaster net0 (set_training b net).
Proof. intros [Hl Hf]. split; [exact Hl | exact Hf]. Qed.

Lemma training_after_forward net x : training (after_forward net x) = training net.
Proof. reflexivity. Qed.

Lemma parameters_after_forward net x :
  parameters (after_forward net x) = parameters net.
Proof.
  unfold after_forward, revin_after.
  destruct (use_revin net); [|now rewrite set_revin_same].
  now destruct (statistics_of (transpose12 x)).
Qed.

(** What an untracked call of a fitting network returns on a batch. *)
Lemma forward_steps_by_sample net0 net x channels seq_len horizon :
  fits net0 channels seq_len horizon -> same_forecaster net0 net ->
  dim1 x = channels -> dim2 x = seq_len ->
  forward_steps net x true
  = {| width := channels * horizon;
       rows := map (forward_sample net0 channels seq_len) (items x) |}.
Proof.
  intros Hfits [Hl Hf] H1 H2.
  pose proof (fits_layout Hl Hfits) as Hfits'.
  destruct (shape_forward_steps3 net x) as [Hs _].
  unfold shape3 in Hs. injection Hs as E1 E2 E3.
  cbn [forward_steps]. unfold flatten12.
  rewrite E2, E3, (fits_head_out Hfits'), H1, items_forward_steps3, H1, H2.
  f_equal. apply map_ext. intros s. apply Hf.
Qed.

Section Loop.
Variables (x : tensor3) (net0 : SAMFormerArchitecture).
Variables (channels seq_len horizon : nat).
Hypothesis Hfits : fits net0 channels seq_len horizon.
Hypothesis Hchannels : dim1 x = channels.
Hypothesis Hlength : dim2 x = seq_len.

Lemma forecast_loop batches pieces :
  Forall2 (fun idxs xs => gather (items x) idxs = Ok xs) batches pieces ->
  forall outs w net,
    same_forecaster net0 net ->
    exists net',
      same_forecaster net0 net' /\
      training net' = training net /\
      parameters net' = parameters net /\
      for_each batches (forecast_body x) outs (set_network (Some net) w)
      = Outcome (Ok (outs ++ map (forecast_of net0 channels seq_len horizon) pieces))
                (set_network (Some net') w)
                (repeat (Forward false) (length batches)).
Proof.
  induction 1 as [|idxs xs batches pieces Hg _ IH]; intros outs w net Hsame.
  - exists net. repeat split; try apply Hsame. cbn. now rewrite app_nil_r.
  - set (xb := {| dim1 := dim1 x; dim2 := dim2 x; items := xs |}).
    destruct (IH (outs ++ [forecast_of net0 channels seq_len horizon xs]) w (after_forward net xb)
                (same_forecaster_after_forward xb Hsame))
      as (net' & Hsame' & Htr & Hpar & Hrun).
    exists net'. repeat split; try apply Hsame'.
    + now rewrite Htr.
    + now rewrite Hpar, parameters_after_forward.
    + assert (Hbody : forecast_body x outs idxs (set_network (Some net) w)
                      = Outcome (Ok (outs ++ [forecast_of net0 channels seq_len horizon xs]))
                                (set_network (Some (after_forward net xb)) w)
                                [Forward false]).
      { unfold forecast_body. rewrite Hg, bind_lift_ok. fold xb.
        erewrite bind_ok.
        2: { eapply network_call_runs with (net := net);
             [reflexivity | eapply fits_layout; [apply Hsame | apply Hfits]
              | exact Hchannels | exact Hlength ]. }
        cbn [value final events data app ret].
        rewrite (@forward_steps_by_sample net0 net xb channels seq_len horizon)
          by (auto).
        reflexivity. }
      cbn [for_each]. erewrite bind_ok by exact Hbody.
      rewrite Hrun.
      cbn [value final events length repeat app map].
      now rewrite <- app_assoc.
Qed.
End Loop.

Lemma torch_cat_forecasts if_empty net0 channels seq_len horizon pieces :
  pieces <> [] ->
  torch_cat if_empty (map (forecast_of net0 channels seq_len horizon) pieces)
  = Ok (forecast_of net0 channels seq_len horizon (concat pieces)).
Proof.
  intros Hne. destruct pieces as [|p pieces]; [congruence|].
  unfold torch_cat. cbn [map].
  set (f := forecast_of net0 channels seq_len horizon).
  assert (Hall : forallb (fun u => width u =? width (f p)) (f p :: map f pieces) = true).
  { apply forallb_forall. intros u [<-|Hu]; [apply Nat.eqb_refl|].
    apply in_map_iff in Hu as (q & <- & _). apply Nat.eqb_refl. }
  rewrite Hall. unfold f, forecast_of at 1 2. cbn [width]. f_equal.
  unfold forecast_of. f_equal.
  change (rows {| width := channels * horizon;
                  rows := map (forward_sample net0 channels seq_len) p |}
          :: map rows (map (fun xs => {| width := channels * horizon;
                  rows := map (forward_sample net0 channels seq_len) xs |}) pieces))
    with (map rows (map (fun xs => {| width := channels * horizon;
                  rows := map (forward_sample net0 channels seq_len) xs |}) (p :: pieces))).
  rewrite map_map. cbn [rows]. now rewrite <- concat_map.
Qed.

Lemma network_eval_runs w net :
  network (this w) = Some net ->
  network_eval w = Outcome (Ok tt) (set_network (Some (set_training false net)) w) [Eval].
Proof.
  intros Hn. unfold network_eval, self_network. rewrite Hn.
  now rewrite bind_emit, bind_get.
Qed.

(** [forecast] on a trained instance, in closed form. *)
Lemma forecast_runs x bs w net channels seq_len horizon :
  network (this w) = Some net ->
  fits net channels seq_len horizon ->
  dim1 x = channels -> dim2 x = seq_len ->
  items x <> [] -> bs <> 0 ->
  exists net',
    training net' = false /\
    parameters net' = parameters net /\
    layout net' = layout net /\
    forecast x bs w
    = Outcome (Ok (forecast_of net channels seq_len horizon (items x)))
              (set_network (Some net') w)
              (Eval :: repeat (Forward false) (length (chunks bs (items x)))).
Proof.
  intros Hn Hfits H1 H2 Hne Hbs.
  pose proof (gather_chunks (items x) Hbs) as Hg.
  destruct (@forecast_loop x net channels seq_len horizon Hfits H1 H2 _ _ Hg
              [] w (set_training false net)
              (same_forecaster_set_training false (same_forecaster_refl net)))
    as (net' & Hsame & Htr & Hpar & Hrun).
  exists net'. repeat split; try assumption; try apply Hsame.
  change (forecast x bs)
    with (network_eval ;;
          dataloader <- lift_result (DataLoader_init (length (items x)) bs false) ;;
          batches <- batches_of dataloader ;;
          outs <- for_each batches (forecast_body x) [] ;;
          outs <- lift_result (torch_cat cat_empty_error outs) ;;
          ret outs)%monad.
  erewrite bind_ok by (apply network_eval_runs; exact Hn).
  unfold DataLoader_init. cbn [andb].
  apply Nat.eqb_neq in Hbs. rewrite Hbs. rewrite bind_lift_ok.
  unfold batches_of. cbn [shuffle loader_batch_size dataset_size].
  rewrite bind_ret.
  erewrite bind_ok by exact Hrun.
  cbn [app]. rewrite torch_cat_forecasts by (now apply chunks_nonempty).
  rewrite bind_lift_ok.
  apply Nat.eqb_neq in Hbs. rewrite concat_chunks by exact Hbs.
  cbn [ret value final events]. rewrite app_nil_r.
  f_equal. f_equal. f_equal.
  pose proof (Forall2_length Hg) as Hlen. exact Hlen.
Qed.
End ForecastFacts.

(* ------------------------------------------------------------------ *)
(** * Seeding *)
(* ------------------------------------------------------------------ *)

Section SeedFacts.
Context {torch : Torch}.

Lemma configuration_fields a b :
  configuration a = configuration b ->
  criterion a = criterion b /\ device a = device b /\
  num_epochs a = num_epochs b /\ batch_size a = batch_size b /\
  base_optimizer a = base_optimizer b /\ learning_rate a = learning_rate b /\
  weight_decay a = weight_decay b /\ rho a = rho b /\
  self_use_revin a = self_use_revin b /\ random_state a = random_state b.
Proof.
  unfold configuration. intros H. injection H. intros. repeat split; assumption.
Qed.

Lemma set_network_same_configuration n w1 w2 :
  configuration (this w1) = configuration (this w2) -> rng w1 = rng w2 ->
  set_network n w1 = set_network n w2.
Proof.
  intros Hc Hr. apply configuration_fields in Hc.
  destruct Hc as (E1 & E2 & E3 & E4 & E5 & E6 & E7 & E8 & E9 & E10).
  unfold set_network. now rewrite E1, E2, E3, E4, E5, E6, E7, E8, E9, E10, Hr.
Qed.

Lemma rng_seeded_world s w : rng (seeded_world (Some s) w) = seeded s.
Proof. reflexivity. Qed.

(** Two runs of [fit] with one seed, one configuration and one data
    set: whatever the generators held before and whatever network a
    previous [fit] left, both runs make the same calls, end the same
    way and leave the same generators; and the same trainer, network
    included, whenever a network is built at all. *)
Lemma fit_same_seed x y s w1 w2 :
  configuration (this w1) = configuration (this w2) ->
  random_state (this w1) = Some s ->
  seed_in_range s ->
  value (fit x y w1) = value (fit x y w2) /\
  events (fit x y w1) = events (fit x y w2) /\
  rng (final (fit x y w1)) = rng (final (fit x y w2)) /\
  (dim1 x <> 0 -> final (fit x y w1) = final (fit x y w2)).
Proof.
  intros Hc Hs Hr.
  pose proof (configuration_fields Hc)
    as (E1 & E2 & E3 & E4 & E5 & E6 & E7 & E8 & E9 & E10).
  assert (Hs2 : random_state (this w2) = Some s) by congruence.
  rewrite (@fit_runs _ x y w1) by (rewrite Hs; exact Hr).
  rewrite (@fit_runs _ x y w2) by (rewrite Hs2; exact Hr).
  cbv zeta. rewrite Hs, Hs2.
  set (ws1 := seeded_world (Some s) w1). set (ws2 := seeded_world (Some s) w2).
  assert (Hfresh : fresh_network x y ws1 = fresh_network x y ws2).
  { unfold fresh_network, ws1, ws2. rewrite !this_seeded_world, !rng_seeded_world.
    now rewrite E9. }
  assert (Hopt : fresh_optimizer x y ws1 = fresh_optimizer x y ws2).
  { unfold fresh_optimizer. rewrite Hfresh. unfold ws1, ws2.
    rewrite !this_seeded_world. now rewrite E5, E6, E7, E8. }
  assert (Hworld : built_world x y ws1 = built_world x y ws2).
  { unfold built_world. rewrite Hfresh.
    apply set_network_same_configuration.
    - unfold ws1, ws2. cbn [set_torch_rng set_rng this seeded_world]. exact Hc.
    - unfold ws1, ws2. cbn [set_torch_rng set_rng rng seeded_world this seeded
                            torch_rng python_rng numpy_rng cuda_rng].
      now rewrite E9. }
  rewrite E3, E4, E9, Hopt, Hworld.
  destruct (dim1 x =? 0)%nat eqn:Hd.
  - cbn. repeat split. intros Hne. apply Nat.eqb_eq in Hd. contradiction.
  - destruct (DataLoader_init _ _ _); cbn; repeat split; reflexivity.
Qed.

(** [forecast] and [predict] before any [fit]. *)
Lemma forecast_unfitted x bs w :
  network (this w) = None ->
  forecast x bs w = Outcome (Raise (AttributeError "NoneType" "eval")) w [].
Proof.
  intros Hn. unfold forecast.
  erewrite bind_raise; [reflexivity|].
  unfold network_eval, self_network. now rewrite Hn.
Qed.
End SeedFacts.

(* ------------------------------------------------------------------ *)
(** * Entries of tabulated samples *)
(* ------------------------------------------------------------------ *)

Section EntryFacts.
Local Open Scope R_scope.

Lemma nth_map_seq {A} (g : nat -> A) c j d :
  (j < c)%nat -> nth j (map g (seq 0 c)) d = g j.
Proof.
  intros H. rewrite nth_indep with (d' := g 0%nat)
    by (now rewrite length_map, length_seq).
  rewrite map_nth. now rewrite seq_nth.
Qed.

Lemma nth_row_of c f j : (j < c)%nat -> nth j (row_of c f) 0 = f j.
Proof. apply nth_map_seq. Qed.

Lemma row_of_ext c f g :
  (forall j, (j < c)%nat -> f j = g j) -> row_of c f = row_of c g.
Proof.
  intros H. unfold row_of. apply map_ext_in. intros j Hj.
  apply in_seq in Hj. apply H. lia.
Qed.

Lemma sum_upto_ext n f g :
  (forall k, (k < n)%nat -> f k = g k) -> sum_upto n f = sum_upto n g.
Proof.
  intros H. unfold sum_upto. f_equal. apply map_ext_in. intros k Hk.
  apply in_seq in Hk. apply H. lia.
Qed.

Lemma nth_concat_uniform c (rs : list (list R)) i j :
  Forall (fun r => length r = c) rs ->
  (i < length rs)%nat -> (j < c)%nat ->
  nth (i * c + j) (concat rs) 0 = nth j (nth i rs []) 0.
Proof.
  intros H. revert i. induction H as [|r rs Hr _ IH]; intros i Hi Hj.
  - cbn [length] in Hi. lia.
  - cbn [concat]. destruct i as [|i].
    + cbn [nth Nat.mul Nat.add]. apply app_nth1. lia.
    + cbn [nth length] in *. rewrite app_nth2 by (rewrite Hr; lia).
      replace (S i * c + j - length r)%nat with (i * c + j)%nat by (rewrite Hr; lia).
      apply IH; lia.
Qed.

Lemma entry_tabulate r c f i j :
  (i < r)%nat -> (j < c)%nat -> entry c (tabulate r c f) i j = f i j.
Proof.
  intros Hi Hj. unfold entry, tabulate. rewrite flat_map_concat_map.
  rewrite nth_concat_uniform with (c := c).
  - rewrite nth_map_seq by exact Hi. apply nth_row_of. exact Hj.
  - apply Forall_forall. intros row Hr. apply in_map_iff in Hr as (k & <- & _).
    apply length_row_of.
  - now rewrite length_map, length_seq.
  - exact Hj.
Qed.
End EntryFacts.

(* ------------------------------------------------------------------ *)
(** * The statements of the specification *)
(* ------------------------------------------------------------------ *)

Lemma fits_small_net : fits small_net 2 3 2.
Proof. constructor; reflexivity. Qed.

Lemma well_formed2_flatten12 t : well_formed3 t -> well_formed2 (flatten12 t).
Proof. intros H. exact H. Qed.

(** C2.  On every batch [x] of shape (batch, channels, sequence_length)
    that fits the layers, [forward] returns what the six steps compute:
    normalisation between two transposes when it is enabled,
    projections and scaled dot-product attention on the normalised
    input, the residual sum, the forecast head from sequence_length to
    horizon, denormalisation between two transposes when enabled, and
    the reshape when flattening is asked for.  The unflattened result
    has shape (batch, channels, horizon), the flattened one
    (batch, channels * horizon). *)
Theorem forward_six_steps (fused : bool) net x channels seq_len horizon :
  fits net channels seq_len horizon ->
  dim1 x = channels -> dim2 x = seq_len ->
  (forall flatten_output,
     value (forward fused x flatten_output net)
     = Ok (forward_steps net x flatten_output)) /\
  shape3 (forward_steps net x false) = (length (items x), channels, horizon) /\
  well_formed3 (forward_steps net x false) /\
  shape2 (forward_steps net x true) = (length (items x), channels * horizon) /\
  well_formed2 (forward_steps net x true).
Proof.
  intros Hfits H1 H2.
  destruct (shape_forward_steps3 net x) as [Hs Hwf].
  rewrite (fits_head_out Hfits), H1 in Hs.
  split; [|repeat split].
  - intros flatten_output.
    now rewrite (@forward_runs fused net x flatten_output _ _ _ Hfits H1 H2).
  - exact Hs.
  - exact Hwf.
  - unfold shape3 in Hs. injection Hs as E1 E2 E3.
    cbn [forward_steps]. unfold shape2, flatten12. cbn [rows width]. congruence.
  - apply well_formed2_flatten12, Hwf.
Qed.

Lemma forward_six_steps_witness :
  fits small_net 2 3 2 /\ dim1 small_x = 2 /\ dim2 small_x = 3 /\
  shape2 (forward_steps small_net small_x true) = (1, 2 * 2).
Proof.
  assert (Hfits : fits small_net 2 3 2) by (constructor; reflexivity).
  split; [exact Hfits | split; [reflexivity | split; [reflexivity|]]].
  exact (proj1 (proj2 (proj2 (proj2
           (@forward_six_steps true small_net small_x 2 3 2 Hfits eq_refl eq_refl))))).
Defined.

(** C5, as amended.  A forward pass mutates one thing: with
    normalisation on, the normaliser stores the mean and the standard
    deviation of the input it was given, also when the pass raises later
    on.  Everything else stays as it was (parameters, gradients, mode,
    sizes), no call is made on a collaborator, and with normalisation
    off the network is left untouched. *)
Theorem forward_stores_statistics (fused : bool) x (flatten_output : bool) net :
  final (forward fused x flatten_output net)
  = (if use_revin net
     then set_revin
            (set_statistics (Some (fst (statistics_of (transpose12 x))))
                            (Some (snd (statistics_of (transpose12 x))))
                            (revin net)) net
     else net) /\
  parameters (final (forward fused x flatten_output net)) = parameters net /\
  grads (final (forward fused x flatten_output net)) = grads net /\
  training (final (forward fused x flatten_output net)) = training net /\
  layout (final (forward fused x flatten_output net)) = layout net /\
  events (forward fused x flatten_output net) = [].
Proof.
  rewrite forward_final. unfold revin_after.
  destruct (use_revin net) eqn:Hr.
  - destruct (statistics_of (transpose12 x)) as [mu sigma]. cbn [fst snd].
    repeat split; try reflexivity. apply forward_silent.
  - rewrite set_revin_same. repeat split; try reflexivity. apply forward_silent.
Qed.

(** C5, as the specification states it, fails on a network that
    normalises: the pass leaves other statistics in the normaliser than
    it found. *)
Lemma forward_mutates_statistics :
  final (forward true small_x true small_net) <> small_net.
Proof.
  rewrite forward_final. intros H.
  apply (f_equal (fun n => mean (revin n))) in H.
  discriminate H.
Qed.

(** C4, as amended.  On an instance that was never fitted the network
    is still [None]: [forecast], and [predict] with it, stop at their
    first statement with the [AttributeError] python raises for
    [None.eval]; nothing checks for a missing model beforehand, and
    nothing else has happened by then. *)
Theorem forecast_before_fit {torch : Torch} x bs (w : world) :
  network (this w) = None ->
  forecast x bs w = Outcome (Raise (AttributeError "NoneType" "eval")) w [] /\
  predict x bs w = Outcome (Raise (AttributeError "NoneType" "eval")) w [] /\
  dereferences_none (AttributeError "NoneType" "eval") = true.
Proof.
  intros Hn. unfold predict. rewrite (forecast_unfitted x bs w Hn). auto.
Qed.

Lemma forecast_before_fit_witness :
  network (this (small_world 0)) = None /\
  forecast small_x 256 (small_world 0)
  = Outcome (Raise (AttributeError "NoneType" "eval")) (small_world 0) [].
Proof.
  split; [reflexivity|].
  exact (proj1 (@forecast_before_fit small_torch small_x 256 (small_world 0) eq_refl)).
Defined.

(** C4, as the specification states it, fails on a freshly built
    trainer: the exception [forecast] raises is the one of the
    dereference of the absent model, not one of a check that precedes
    it. *)
Lemma forecast_before_fit_dereferences :
  ~ (exists e, value (forecast small_x 256 (small_world 0)) = Raise e
               /\ dereferences_none e = false).
Proof.
  rewrite (forecast_unfitted small_x 256 (small_world 0) eq_refl).
  intros (e & He & Hd). cbn [value] in He. injection He as <-. discriminate Hd.
Qed.

Lemma length_forward_sample net channels seq_len horizon s :
  fits net channels seq_len horizon ->
  length (forward_sample net channels seq_len s) = channels * horizon.
Proof.
  intros Hfits.
  set (x1 := {| dim1 := channels; dim2 := seq_len; items := [s] |}).
  destruct (shape_forward_steps3 net x1) as [Hs Hwf].
  unfold shape3 in Hs. injection Hs as _ E2 E3.
  unfold well_formed3 in Hwf.
  rewrite items_forward_steps3, E2, E3, (fits_head_out Hfits) in Hwf.
  cbn [x1 dim1 dim2 items map] in Hwf. now inversion Hwf.
Qed.

(** C7.  On a trained instance, for a non-empty input of the shape the
    network was built for and a positive batch size, [forecast] puts
    the network in evaluation mode, calls it once per batch without
    gradient tracking, batches taken in order, and returns the rows of
    all batches in the order of the input: a plain array of shape
    (samples, channels * horizon).  [predict] is [forecast].  The result
    depends on the input and on the parameters only: not on the
    generators, not on the statistics, mode or gradients left in the
    network. *)
Theorem forecast_in_order {torch : Torch} x bs (w : world) net channels seq_len horizon :
  network (this w) = Some net ->
  fits net channels seq_len horizon ->
  dim1 x = channels -> dim2 x = seq_len ->
  items x <> [] -> bs <> 0 ->
  value (forecast x bs w) = Ok (forecast_of net channels seq_len horizon (items x)) /\
  shape2 (forecast_of net channels seq_len horizon (items x))
  = (length (items x), channels * horizon) /\
  well_formed2 (forecast_of net channels seq_len horizon (items x)) /\
  events (forecast x bs w) = Eval :: repeat (Forward false) (length (chunks bs (items x))) /\
  (exists net', network (this (final (forecast x bs w))) = Some net' /\
                training net' = false /\ parameters net' = parameters net) /\
  rng (final (forecast x bs w)) = rng w /\
  predict x bs w = forecast x bs w /\
  (forall (w' : world) net',
     network (this w') = Some net' -> same_forecaster net net' ->
     value (forecast x bs w') = value (forecast x bs w)).
Proof.
  intros Hn Hfits H1 H2 Hne Hbs.
  destruct (@forecast_runs _ x bs w net _ _ _ Hn Hfits H1 H2 Hne Hbs)
    as (net1 & Htr & Hpar & Hlay & Hrun).
  unfold predict. rewrite Hrun. cbn [value final events].
  split; [reflexivity|]. split; [|split; [|split; [reflexivity|]]].
  - unfold shape2, forecast_of. cbn [rows width]. now rewrite length_map.
  - unfold well_formed2, forecast_of. cbn [rows width].
    apply Forall_forall. intros r Hr. apply in_map_iff in Hr as (s & <- & _).
    now apply length_forward_sample.
  - split; [exists net1; auto|]. split; [reflexivity|]. split; [reflexivity|].
    intros w' net' Hn' Hsame.
    destruct (@forecast_runs _ x bs w' net' _ _ _ Hn' (fits_layout (proj1 Hsame) Hfits)
                H1 H2 Hne Hbs)
      as (net2 & _ & _ & _ & Hrun').
    rewrite Hrun'. cbn [value]. f_equal. unfold forecast_of. f_equal.
    apply map_ext. intros s. apply (proj2 Hsame).
Qed.

Lemma forecast_in_order_witness :
  network (this fitted_world) = Some small_net /\
  fits small_net 2 3 2 /\
  dim1 three_x = 2 /\ dim2 three_x = 3 /\ items three_x <> [] /\ 2 <> 0 /\
  value (forecast three_x 2 fitted_world)
  = Ok (forecast_of small_net 2 3 2 (items three_x)).
Proof.
  assert (Hfits : fits small_net 2 3 2) by (constructor; reflexivity).
  assert (Hne : items three_x <> []) by discriminate.
  assert (Hbs : 2 <> 0) by discriminate.
  split; [reflexivity|]. split; [exact Hfits|].
  split; [reflexivity|]. split; [reflexivity|].
  split; [exact Hne|]. split; [exact Hbs|].
  exact (proj1 (@forecast_in_order small_torch three_x 2 fitted_world small_net 2 3 2
                  eq_refl Hfits eq_refl eq_refl Hne Hbs)).
Defined.

Lemma parameters_perturbed {torch : Torch} (opt : Optimizer) net x y :
  parameters (perturbed opt net x y)
  = pointwise Rplus (parameters net)
      (displacement (sam_rho opt) (pointwise Rplus (grads net) (gradient net x y))).
Proof.
  unfold perturbed, after_first_step.
  change (parameters (zero_gradients ?n)) with (parameters n).
  rewrite parameters_assign by (now rewrite length_pointwise).
  change (parameters (after_backward net x y (after_forward net x)))
    with (parameters (after_forward net x)).
  rewrite parameters_after_forward.
  reflexivity.
Qed.

(** C1.  With a sharpness-aware optimizer, one batch of fitting shapes
    makes exactly these calls, in this order: forward, loss, backward,
    ascent step with gradient zeroing, forward, loss, backward, descent
    step with gradient zeroing; and the batch returns.  The loss it
    returns is the second one, and the graph of that loss records the
    network the second forward pass started from: its parameters are the
    initial ones moved by the displacement of the ascent step, and all
    its gradients are zero. *)
Theorem sam_batch_sequence {torch : Torch} (w : world) net (opt : Optimizer)
    x_batch y_batch channels seq_len horizon :
  class_name opt = "SAM"%string ->
  network (this w) = Some net ->
  fits net channels seq_len horizon ->
  dim1 x_batch = channels -> dim2 x_batch = seq_len ->
  width y_batch = channels * horizon ->
  length (rows y_batch) = length (items x_batch) ->
  events (train_step opt x_batch y_batch w)
  = [ Forward true; Loss; Backward; FirstStep true;
      Forward true; Loss; Backward; SecondStep true ] /\
  (exists opt' loss,
     value (train_step opt x_batch y_batch w) = Ok (opt', loss) /\
     loss_graph loss = Some (perturbed opt net x_batch y_batch, x_batch, y_batch)) /\
  parameters (perturbed opt net x_batch y_batch)
  = pointwise Rplus (parameters net)
      (displacement (sam_rho opt)
         (pointwise Rplus (grads net) (gradient net x_batch y_batch))) /\
  all_zero (grads (perturbed opt net x_batch y_batch)).
Proof.
  intros Hc Hn Hfits H1 H2 H3 H4.
  rewrite (@train_step_sam_runs _ w net x_batch y_batch channels seq_len horizon
             Hn Hfits H1 H2 H3 H4 opt Hc).
  cbn [value final events].
  split; [reflexivity|]. split; [|split].
  - eexists. eexists. split; reflexivity.
  - apply parameters_perturbed.
  - apply all_zero_zeros_like.
Qed.

Lemma sam_batch_sequence_witness :
  class_name small_sam = "SAM"%string /\
  network (this fitted_world) = Some small_net /\
  fits small_net 2 3 2 /\
  dim1 small_x = 2 /\ dim2 small_x = 3 /\
  width small_y = 2 * 2 /\ length (rows small_y) = length (items small_x) /\
  events (train_step small_sam small_x small_y fitted_world)
  = [ Forward true; Loss; Backward; FirstStep true;
      Forward true; Loss; Backward; SecondStep true ].
Proof.
  assert (Hfits : fits small_net 2 3 2) by (constructor; reflexivity).
  split; [reflexivity|]. split; [reflexivity|]. split; [exact Hfits|].
  split; [reflexivity|]. split; [reflexivity|].
  split; [reflexivity|]. split; [reflexivity|].
  exact (proj1 (@sam_batch_sequence small_torch fitted_world small_net small_sam
                  small_x small_y 2 3 2
                  eq_refl eq_refl Hfits eq_refl eq_refl eq_refl eq_refl)).
Defined.

(** The seed of the small trainer is one every seeding call accepts,
    and no seeding call builds a network. *)
Lemma small_seed_usable g :
  usable_seed (random_state (this (small_world g))).
Proof. cbn. unfold seed_in_range. lia. Qed.

Lemma no_allocate_seed_calls rs c l h p r :
  ~ In (Allocate c l h p r) (seed_calls rs).
Proof.
  destruct rs as [s|]; cbn [seed_calls In]; [|tauto].
  intros [H|[H|[H|[H|[]]]]]; discriminate H.
Qed.

(** The run of [fit] on the small instance reaches the ascent step of
    its first batch. *)
Lemma small_fit_ascends :
  In (FirstStep true) (events (fit (torch := small_torch) small_x small_y (small_world 0))).
Proof.
  rewrite fit_runs by apply small_seed_usable. cbv zeta.
  change (dim1 small_x =? 0) with false. cbv iota.
  set (ws := seeded_world (random_state (this (small_world 0))) (small_world 0)).
  set (loader := {| dataset_size := 1; loader_batch_size := 256; shuffle := true |}).
  change (DataLoader_init (length (items small_x)) (batch_size (this (small_world 0))) true)
    with (Ok loader).
  cbv iota. cbn [events].
  apply in_or_app. right. apply in_or_app. right.
  set (ds := {| examples := small_x; labels := small_y |}).
  set (opt := fresh_optimizer small_x small_y ws).
  set (w1 := built_world small_x small_y ws).
  change (fit_loop (num_epochs (this (small_world 0))) ds loader opt w1)
    with (bind (epoch_body ds loader opt 0)
               (fun opt' => for_each [] (epoch_body ds loader) opt') w1).
  apply in_events_bind_l. unfold epoch_body.
  set (w2 := final (batches_of loader w1)).
  assert (Hb : batches_of loader w1 = Outcome (Ok [[0]]) w2 []) by reflexivity.
  eapply in_events_bind_r; [exact Hb|].
  apply in_events_bind_l.
  change (train_epoch ds [[0]] opt w2)
    with (bind (batch_body ds (opt, []) [0])
               (fun b => for_each [] (batch_body ds) b) w2).
  apply in_events_bind_l. unfold batch_body.
  assert (Hf : lift_result (fetch ds [0]) w2 = Outcome (Ok (small_x, small_y)) w2 [])
    by reflexivity.
  eapply in_events_bind_r; [exact Hf|]. cbv iota beta.
  apply in_events_bind_l.
  rewrite (@train_step_sam_runs small_torch w2 (fresh_network small_x small_y ws)
             small_x small_y 2 3 2 eq_refl (fits_fresh_network small_x small_y ws)
             eq_refl eq_refl eq_refl eq_refl opt eq_refl).
  cbn [events sam_calls]. right. right. right. left. reflexivity.
Qed.

(** C3 (amended).  The branch a batch takes is chosen by the class name
    of the optimizer object.  On a batch of fitting shapes an optimizer
    of class SAM makes the calls of the two-phase loop, and any other
    optimizer makes: forward, loss, zero gradients, backward, step.
    [fit] wraps the configured base optimizer in SAM whatever it is, so
    no run of [fit] ever zeroes gradients or steps the plain way. *)
Theorem batch_modes {torch : Torch} (w : world) net (opt : Optimizer)
    x_batch y_batch channels seq_len horizon :
  network (this w) = Some net ->
  fits net channels seq_len horizon ->
  dim1 x_batch = channels -> dim2 x_batch = seq_len ->
  width y_batch = channels * horizon ->
  length (rows y_batch) = length (items x_batch) ->
  events (train_step opt x_batch y_batch w)
  = (if (class_name opt =? "SAM")%string
     then [ Forward true; Loss; Backward; FirstStep true;
            Forward true; Loss; Backward; SecondStep true ]
     else [ Forward true; Loss; ZeroGrad; Backward; Step ]) /\
  is_ok (value (train_step opt x_batch y_batch w)) = true /\
  forall x y (w' : world),
    class_name (fresh_optimizer x y w') = "SAM"%string /\
    Forall not_plain (events (fit x y w')).
Proof.
  intros Hn Hfits H1 H2 H3 H4.
  split; [|split].
  - destruct (String.eqb_spec (class_name opt) "SAM") as [Hc|Hc].
    + now rewrite (@train_step_sam_runs _ w net x_batch y_batch channels seq_len horizon
                     Hn Hfits H1 H2 H3 H4 opt Hc).
    + now rewrite (@train_step_plain_runs _ w net x_batch y_batch channels seq_len horizon
                     Hn Hfits H1 H2 H3 H4 opt Hc).
  - destruct (String.eqb_spec (class_name opt) "SAM") as [Hc|Hc].
    + now rewrite (@train_step_sam_runs _ w net x_batch y_batch channels seq_len horizon
                     Hn Hfits H1 H2 H3 H4 opt Hc).
    + now rewrite (@train_step_plain_runs _ w net x_batch y_batch channels seq_len horizon
                     Hn Hfits H1 H2 H3 H4 opt Hc).
  - intros x y w'. split; [reflexivity | apply fit_never_plain].
Qed.

Lemma batch_modes_witness :
  network (this fitted_world) = Some small_net /\
  fits small_net 2 3 2 /\
  dim1 small_x = 2 /\ dim2 small_x = 3 /\
  width small_y = 2 * 2 /\ length (rows small_y) = length (items small_x) /\
  events (train_step small_adam small_x small_y fitted_world)
  = [ Forward true; Loss; ZeroGrad; Backward; Step ].
Proof.
  assert (Hfits : fits small_net 2 3 2) by (constructor; reflexivity).
  split; [reflexivity|]. split; [exact Hfits|].
  split; [reflexivity|]. split; [reflexivity|].
  split; [reflexivity|]. split; [reflexivity|].
  exact (proj1 (@batch_modes small_torch fitted_world small_net small_adam
                  small_x small_y 2 3 2
                  eq_refl Hfits eq_refl eq_refl eq_refl eq_refl)).
Defined.

(** C3, as stated, fails.  An optimizer that is not of class SAM does
    not zero the gradients before the forward pass; and a trainer
    configured with Adam still runs the ascent step, and never the
    plain step. *)
Lemma plain_mode_not_as_stated :
  class_name small_adam <> "SAM"%string /\
  events (train_step small_adam small_x small_y fitted_world)
  <> [ ZeroGrad; Forward true; Loss; Backward; Step ] /\
  base_optimizer (this (small_world 0)) = "Adam"%string /\
  In (FirstStep true) (events (fit small_x small_y (small_world 0))) /\
  ~ In Step (events (fit small_x small_y (small_world 0))).
Proof.
  assert (Hfits : fits small_net 2 3 2) by (constructor; reflexivity).
  split; [discriminate|]. split; [|split; [reflexivity|split]].
  - rewrite (@train_step_plain_runs small_torch fitted_world small_net small_x small_y
               2 3 2 eq_refl Hfits eq_refl eq_refl eq_refl eq_refl small_adam)
      by discriminate.
    cbn [events plain_calls]. discriminate.
  - exact small_fit_ascends.
  - intros Hin.
    pose proof (fit_never_plain (torch := small_torch) small_x small_y (small_world 0)) as Hall.
    rewrite Forall_forall in Hall. destruct (Hall _ Hin) as [_ Hs]. exact (Hs eq_refl).
Qed.

(** C6 (amended).  [fit] checks no shape, and compares nothing with the
    construction parameters, which hold no dimension.  It fails before
    building the network in two cases only: a seed that a seeding call
    refuses, or data without any channel.  In every other case it calls
    the constructor with the shape of the data right after the seeding,
    and a network of those sizes is in place when [fit] ends, also when
    a later call raises. *)
Theorem fit_allocates_from_data {torch : Torch} x y (w : world) :
  (fails_before_allocation (fit x y w)
   <-> ~ usable_seed (random_state (this w)) \/ dim1 x = 0) /\
  (usable_seed (random_state (this w)) -> dim1 x <> 0 ->
   (exists rest,
      events (fit x y w)
      = seed_calls (random_state (this w))
        ++ Allocate (dim1 x) (dim2 x) 16 (width y / dim1 x) (self_use_revin (this w))
        :: Train :: rest) /\
   exists net,
     network (this (final (fit x y w))) = Some net /\
     layout net = ((dim2 x, 16), (dim2 x, 16), (dim2 x, dim2 x),
                   (dim2 x, width y / dim1 x), (dim1 x, self_use_revin (this w)))).
Proof.
  split; [split|].
  - intros [_ Hno].
    destruct (usable_seed_dec (random_state (this w))) as [Hseed|Hseed]; [|now left].
    destruct (Nat.eq_dec (dim1 x) 0) as [Hd|Hd]; [now right|]. exfalso.
    destruct (fit_events_start x y w Hseed Hd) as [rest Hev].
    eapply Hno. rewrite Hev. apply in_or_app. right. left. reflexivity.
  - intros Hcase.
    destruct (usable_seed_dec (random_state (this w))) as [Hseed|Hseed].
    + destruct Hcase as [Hbad|Hd]; [contradiction|].
      rewrite (@fit_zero_channels _ x y w Hseed Hd). split.
      * eexists. reflexivity.
      * intros c l h p r. apply no_allocate_seed_calls.
    + destruct (random_state (this w)) as [s|] eqn:Hs; [|exfalso; apply Hseed; exact I].
      destruct (@fit_bad_seed _ x y w s Hs Hseed) as (e & w' & ev & Hrun & _ & _ & Hev).
      rewrite Hrun. split.
      * eexists. reflexivity.
      * intros c l h p r Hin. apply Hev in Hin.
        exact (no_allocate_seed_calls (Some s) c l h p r Hin).
  - intros Hseed Hd. destruct (fit_events_start x y w Hseed Hd) as [rest Hev].
    split; [exists rest; exact Hev|].
    destruct (fit_keeps_layout x y w Hseed Hd) as (net & Hn & Hl).
    exists net. split; [exact Hn|]. rewrite Hl, layout_fresh_network.
    now rewrite this_seeded_world.
Qed.

Lemma fit_allocates_from_data_witness :
  usable_seed (random_state (this (small_world 0))) /\
  dim1 small_x <> 0 /\
  ~ fails_before_allocation (fit small_x small_y (small_world 0)).
Proof.
  assert (Hseed : usable_seed (random_state (this (small_world 0))))
    by apply small_seed_usable.
  assert (Hd : dim1 small_x <> 0) by discriminate.
  split; [exact Hseed|]. split; [exact Hd|].
  intros Hf.
  destruct (proj1 (proj1 (@fit_allocates_from_data small_torch small_x small_y
                            (small_world 0))) Hf) as [Hbad|Hzero].
  - exact (Hbad Hseed).
  - exact (Hd Hzero).
Defined.

(** C6, as stated, fails.  Targets of width 5 for 2 channels fit no
    horizon; [fit] builds the network all the same and raises only at
    the first loss. *)
Lemma fit_allocates_before_failing :
  width odd_y mod dim1 small_x <> 0 /\
  value (fit small_x odd_y (small_world 0))
  = Raise (RuntimeError "The size of tensor a must match the size of tensor b") /\
  events (fit small_x odd_y (small_world 0))
  = [ ManualSeed 7; RandomSeed 7; NumpySeed 7; CudaSeedAll 7;
      Allocate 2 3 16 2 true; Train; Forward true; Loss ] /\
  ~ fails_before_allocation (fit small_x odd_y (small_world 0)).
Proof.
  assert (Hev : events (fit small_x odd_y (small_world 0))
                = [ ManualSeed 7; RandomSeed 7; NumpySeed 7; CudaSeedAll 7;
                    Allocate 2 3 16 2 true; Train; Forward true; Loss ])
    by reflexivity.
  split; [discriminate|]. split; [reflexivity|]. split; [exact Hev|].
  intros [_ Hno]. apply (Hno 2 3 16 2 true). rewrite Hev.
  do 4 right. left. reflexivity.
Qed.

(** C9.  With a seed [s] in the configuration, one that every seeding
    call accepts (0 to 2**32 - 1), [fit] first seeds the
    four generators with [s]; the generator the layers are initialised
    from and the batches are shuffled with is then the one [s] gives,
    whatever it was before.  Two runs on the same data with the same
    configuration make the same calls, end with the same result and
    leave the same generators, and the same trainer and network. *)
Theorem fit_seeded_reproducible {torch : Torch} x y s (w1 w2 : world) :
  configuration (this w1) = configuration (this w2) ->
  random_state (this w1) = Some s ->
  seed_in_range s ->
  (exists rest,
     events (fit x y w1)
     = [ManualSeed s; RandomSeed s; NumpySeed s; CudaSeedAll s] ++ rest) /\
  rng (final (seed_everything (random_state (this w1)) w1)) = seeded s /\
  value (fit x y w1) = value (fit x y w2) /\
  events (fit x y w1) = events (fit x y w2) /\
  rng (final (fit x y w1)) = rng (final (fit x y w2)) /\
  (dim1 x <> 0 -> final (fit x y w1) = final (fit x y w2)).
Proof.
  intros Hc Hs Hr.
  assert (Hseed : usable_seed (random_state (this w1))) by (rewrite Hs; exact Hr).
  split; [|split].
  - destruct (fit_events_seed x y w1 Hseed) as [rest Hev]. rewrite Hs in Hev.
    exists rest. exact Hev.
  - rewrite seed_everything_runs by exact Hseed. rewrite Hs. reflexivity.
  - exact (@fit_same_seed _ x y s w1 w2 Hc Hs Hr).
Qed.

Lemma fit_seeded_reproducible_witness :
  configuration (this fitted_world) = configuration (this (small_world 5)) /\
  random_state (this fitted_world) = Some 7%Z /\
  seed_in_range 7 /\
  rng fitted_world <> rng (small_world 5) /\
  value (fit small_x small_y fitted_world) = value (fit small_x small_y (small_world 5)) /\
  events (fit small_x small_y fitted_world) = events (fit small_x small_y (small_world 5)) /\
  final (fit small_x small_y fitted_world) = final (fit small_x small_y (small_world 5)).
Proof.
  assert (Hr : seed_in_range 7) by (unfold seed_in_range; lia).
  pose proof (@fit_seeded_reproducible small_torch small_x small_y 7%Z
                fitted_world (small_world 5) eq_refl eq_refl Hr)
    as (_ & _ & Hv & He & _ & Hf).
  split; [reflexivity|]. split; [reflexivity|]. split; [exact Hr|].
  split; [discriminate|].
  split; [exact Hv|]. split; [exact He|]. apply Hf. discriminate.
Defined.

(** C10.  Whenever [fit] gets to build its network (a seed that the
    seeding accepts, data with a channel), the horizon it builds it with
    is the floor of the
    width of the targets over the number of channels: the constructor is
    called with it and the forecasting layer of the network [fit] leaves
    has that many outputs.  The set-up of [fit] raises only when the
    loader does, which depends on the number of samples and the batch
    size alone: no width of the targets is rejected. *)
Theorem fit_floors_horizon {torch : Torch} x y (w : world) :
  usable_seed (random_state (this w)) ->
  dim1 x <> 0 ->
  In (Allocate (dim1 x) (dim2 x) 16 (width y / dim1 x) (self_use_revin (this w)))
     (events (fit x y w)) /\
  (exists net,
     network (this (final (fit x y w))) = Some net /\
     in_features (linear_forecaster net) = dim2 x /\
     out_features (linear_forecaster net) = width y / dim1 x) /\
  value (fit_setup x y w)
  = match DataLoader_init (length (items x)) (batch_size (this w)) true with
    | Ok loader => Ok (fresh_optimizer x y w, {| examples := x; labels := y |}, loader)
    | Raise e => Raise e
    end.
Proof.
  intros Hseed Hd. split; [|split].
  - destruct (fit_events_start x y w Hseed Hd) as [rest Hev]. rewrite Hev.
    apply in_or_app. right. left. reflexivity.
  - destruct (fit_keeps_layout x y w Hseed Hd) as (net & Hn & Hl).
    exists net. split; [exact Hn|].
    rewrite layout_fresh_network in Hl. unfold layout in Hl.
    injection Hl as E1 E2 E3 E4 E5 E6 E7 E8 E9 E10. auto.
  - rewrite fit_setup_runs. apply Nat.eqb_neq in Hd. now rewrite Hd.
Qed.

Lemma fit_floors_horizon_witness :
  usable_seed (random_state (this (small_world 0))) /\
  dim1 small_x <> 0 /\
  width odd_y = 5 /\ dim1 small_x = 2 /\
  In (Allocate 2 3 16 2 true) (events (fit small_x odd_y (small_world 0))).
Proof.
  assert (Hseed : usable_seed (random_state (this (small_world 0))))
    by apply small_seed_usable.
  assert (Hd : dim1 small_x <> 0) by discriminate.
  split; [exact Hseed|]. split; [exact Hd|]. split; [reflexivity|]. split; [reflexivity|].
  exact (proj1 (@fit_floors_horizon small_torch small_x odd_y (small_world 0) Hseed Hd)).
Defined.

(** ** The round trip through the normaliser *)












(* ------------------------------------------------------------------ *)
(** * Edge cases of [fit] and [forecast] *)
(* ------------------------------------------------------------------ *)

Lemma fitted_seed_usable : usable_seed (random_state (this fitted_world)).
Proof. cbn. unfold seed_in_range. lia. Qed.

(** X3.  Data without any channel: [y.shape[1] // x.shape[1]] divides by
    zero.  With a seed the seeding accepts (or none), [fit] raises right
    after the seeding; the trainer, and the
    network a previous [fit] may have left in it, are as they were. *)
Theorem fit_without_channels {torch : Torch} x y (w : world) :
  usable_seed (random_state (this w)) ->
  dim1 x = 0 ->
  value (fit x y w) = Raise ZeroDivisionError /\
  events (fit x y w) = seed_calls (random_state (this w)) /\
  this (final (fit x y w)) = this w /\
  rng (final (fit x y w)) = rng (seeded_world (random_state (this w)) w).
Proof.
  intros Hseed Hd. rewrite (@fit_zero_channels _ x y w Hseed Hd). cbn [value events final].
  split; [reflexivity|]. split; [reflexivity|]. split; [|reflexivity].
  apply this_seeded_world.
Qed.

Lemma fit_without_channels_witness :
  usable_seed (random_state (this fitted_world)) /\
  dim1 no_channel_x = 0 /\
  value (fit no_channel_x small_y fitted_world) = Raise ZeroDivisionError /\
  network (this (final (fit no_channel_x small_y fitted_world))) = Some small_net.
Proof.
  pose proof (@fit_without_channels small_torch no_channel_x small_y fitted_world
                fitted_seed_usable eq_refl)
    as (Hv & _ & Ht & _).
  split; [exact fitted_seed_usable|].
  split; [reflexivity|]. split; [exact Hv|]. rewrite Ht. reflexivity.
Defined.

(** X4.  No sample, or a batch size of 0, with a seed the seeding
    accepts (or none): the loader cannot be built.  [fit]
    raises ValueError, but only after it has built a new network and
    assigned it: the network of a previous [fit] is gone, replaced by an
    untrained one. *)
Theorem fit_without_loader {torch : Torch} x y (w : world) :
  usable_seed (random_state (this w)) ->
  dim1 x <> 0 ->
  items x = [] \/ batch_size (this w) = 0 ->
  let ws := seeded_world (random_state (this w)) w in
  (exists msg, value (fit x y w) = Raise (ValueError msg)) /\
  events (fit x y w)
  = seed_calls (random_state (this w))
    ++ [Allocate (dim1 x) (dim2 x) 16 (width y / dim1 x) (self_use_revin (this w)); Train] /\
  network (this (final (fit x y w))) = Some (fresh_network x y ws).
Proof.
  intros Hseed Hd Hbad ws. rewrite fit_runs by exact Hseed. cbv zeta.
  apply Nat.eqb_neq in Hd. rewrite Hd. fold ws.
  unfold DataLoader_init.
  destruct Hbad as [Hx|Hb].
  - rewrite Hx. cbn [length Nat.eqb andb events value final].
    split; [eexists; reflexivity|]. split; reflexivity.
  - rewrite Hb. cbn [Nat.eqb].
    destruct (true && (length (items x) =? 0)); cbn [events value final];
      (split; [eexists; reflexivity|]; split; reflexivity).
Qed.

Lemma fit_without_loader_witness :
  usable_seed (random_state (this fitted_world)) /\
  dim1 empty_x <> 0 /\
  (items empty_x = [] \/ batch_size (this fitted_world) = 0) /\
  network (this (final (fit empty_x empty_y fitted_world)))
  = Some (fresh_network empty_x empty_y
            (seeded_world (random_state (this fitted_world)) fitted_world)).
Proof.
  assert (Hd : dim1 empty_x <> 0) by discriminate.
  assert (Hx : items empty_x = [] \/ batch_size (this fitted_world) = 0)
    by (left; reflexivity).
  split; [exact fitted_seed_usable|]. split; [exact Hd|]. split; [exact Hx|].
  exact (proj2 (proj2 (@fit_without_loader small_torch empty_x empty_y fitted_world
                         fitted_seed_usable Hd Hx))).
Defined.

(** X5.  [fit] starts from scratch: the network a previous [fit] left has no
    influence on what the next one does.  Two trainers with the same
    configuration (its seed, if any, one the seeding accepts) and the
    same generators do exactly the same on the same data with a
    channel, whatever networks they hold. *)
Theorem fit_from_scratch {torch : Torch} x y (w1 w2 : world) :
  configuration (this w1) = configuration (this w2) ->
  rng w1 = rng w2 ->
  usable_seed (random_state (this w1)) ->
  dim1 x <> 0 ->
  fit x y w1 = fit x y w2.
Proof.
  intros Hc Hr Hseed Hd.
  pose proof (configuration_fields Hc)
    as (E1 & E2 & E3 & E4 & E5 & E6 & E7 & E8 & E9 & E10).
  rewrite (@fit_runs _ x y w1) by exact Hseed.
  rewrite (@fit_runs _ x y w2) by (rewrite <- E10; exact Hseed).
  cbv zeta. apply Nat.eqb_neq in Hd. rewrite Hd.
  rewrite <- E10, <- E4, <- E3, <- E9.
  set (rs := random_state (this w1)).
  assert (Hc' : configuration (this (seeded_world rs w1))
                = configuration (this (seeded_world rs w2)))
    by (now rewrite !this_seeded_world).
  assert (Hr' : rng (seeded_world rs w1) = rng (seeded_world rs w2))
    by (destruct rs; [reflexivity | exact Hr]).
  set (ws1 := seeded_world rs w1) in *. set (ws2 := seeded_world rs w2) in *.
  pose proof (configuration_fields Hc')
    as (F1 & F2 & F3 & F4 & F5 & F6 & F7 & F8 & F9 & F10).
  assert (Hfresh : fresh_network x y ws1 = fresh_network x y ws2).
  { unfold fresh_network. now rewrite F9, Hr'. }
  assert (Hopt : fresh_optimizer x y ws1 = fresh_optimizer x y ws2).
  { unfold fresh_optimizer. now rewrite Hfresh, F5, F6, F7, F8. }
  assert (Hworld : built_world x y ws1 = built_world x y ws2).
  { unfold built_world. rewrite Hfresh, F9, Hr'.
    apply set_network_same_configuration; [exact Hc'|].
    unfold set_torch_rng, set_rng. cbn [rng]. now rewrite Hr'. }
  now rewrite Hopt, Hworld.
Qed.

Lemma fit_from_scratch_witness :
  configuration (this fitted_world) = configuration (this (small_world 0)) /\
  rng fitted_world = rng (small_world 0) /\
  network (this fitted_world) <> network (this (small_world 0)) /\
  fit small_x small_y fitted_world = fit small_x small_y (small_world 0).
Proof.
  assert (Hd : dim1 small_x <> 0) by discriminate.
  split; [reflexivity|]. split; [reflexivity|]. split; [discriminate|].
  exact (@fit_from_scratch small_torch small_x small_y fitted_world (small_world 0)
           eq_refl eq_refl fitted_seed_usable Hd).
Defined.

(** X8.  A batch size of 0 makes [forecast] raise ValueError; the network is
    in evaluation mode by then, and nothing else has changed. *)
Theorem forecast_zero_batch_size {torch : Torch} x (w : world) net :
  network (this w) = Some net ->
  forecast x 0 w
  = Outcome (Raise (ValueError "batch_size should be a positive integer value"))
            (set_network (Some (set_training false net)) w) [Eval].
Proof.
  intros Hn. unfold forecast.
  erewrite bind_ok by (apply network_eval_runs; exact Hn).
  reflexivity.
Qed.

Lemma forecast_zero_batch_size_witness :
  network (this fitted_world) = Some small_net /\
  value (forecast small_x 0 fitted_world)
  = Raise (ValueError "batch_size should be a positive integer value").
Proof.
  split; [reflexivity|].
  exact (f_equal (@value _ _)
           (@forecast_zero_batch_size small_torch small_x fitted_world small_net eq_refl)).
Defined.

(** X9.  An input without any sample makes [forecast] raise: there is no
    batch, and [torch.cat] refuses the empty list of outputs, with the
    exception of the release at hand.  No forward pass has run; the
    network is in evaluation mode. *)
Theorem forecast_empty_input {torch : Torch} x bs (w : world) net :
  network (this w) = Some net ->
  items x = [] -> bs <> 0 ->
  forecast x bs w
  = Outcome (Raise cat_empty_error)
            (set_network (Some (set_training false net)) w) [Eval].
Proof.
  intros Hn Hx Hbs. unfold forecast.
  erewrite bind_ok by (apply network_eval_runs; exact Hn).
  rewrite Hx. cbn [length]. unfold DataLoader_init. cbn [andb].
  apply Nat.eqb_neq in Hbs. rewrite Hbs.
  reflexivity.
Qed.

Lemma forecast_empty_input_witness :
  network (this fitted_world) = Some small_net /\ items empty_x = [] /\ 256 <> 0 /\
  is_ok (value (forecast empty_x 256 fitted_world)) = false /\
  events (forecast empty_x 256 fitted_world) = [Eval].
Proof.
  assert (Hbs : 256 <> 0) by discriminate.
  split; [reflexivity|]. split; [reflexivity|]. split; [exact Hbs|].
  rewrite (@forecast_empty_input small_torch empty_x 256 fitted_world small_net
             eq_refl eq_refl Hbs).
  split; reflexivity.
Defined.

(** X7.  Batching is invisible in the result: whatever the batch size,
    [forecast] returns the same array. *)
Theorem forecast_any_batch_size {torch : Torch} x bs1 bs2 (w : world) net
    channels seq_len horizon :
  network (this w) = Some net ->
  fits net channels seq_len horizon ->
  dim1 x = channels -> dim2 x = seq_len ->
  items x <> [] -> bs1 <> 0 -> bs2 <> 0 ->
  value (forecast x bs1 w) = value (forecast x bs2 w) /\
  is_ok (value (forecast x bs1 w)) = true.
Proof.
  intros Hn Hfits H1 H2 Hne Hb1 Hb2.
  destruct (@forecast_runs _ x bs1 w net _ _ _ Hn Hfits H1 H2 Hne Hb1)
    as (n1 & _ & _ & _ & Hrun1).
  destruct (@forecast_runs _ x bs2 w net _ _ _ Hn Hfits H1 H2 Hne Hb2)
    as (n2 & _ & _ & _ & Hrun2).
  rewrite Hrun1, Hrun2. split; reflexivity.
Qed.

Lemma forecast_any_batch_size_witness :
  value (forecast three_x 1 fitted_world) = value (forecast three_x 2 fitted_world).
Proof.
  assert (Hfits : fits small_net 2 3 2) by (constructor; reflexivity).
  assert (Hne : items three_x <> []) by discriminate.
  assert (Hb1 : 1 <> 0) by discriminate.
  assert (Hb2 : 2 <> 0) by discriminate.
  exact (proj1 (@forecast_any_batch_size small_torch three_x 1 2 fitted_world small_net
                  2 3 2 eq_refl Hfits eq_refl eq_refl Hne Hb1 Hb2)).
Defined.

(** X6.  Once [fit] has built its network (the seeding accepted the seed
    and the data has a channel), [forecast] works on any data of
    the same channels and length, even when [fit] itself raised later
    on: it returns one row per sample, of channels times the floored
    horizon numbers. *)
Theorem forecast_after_fit {torch : Torch} x y x' bs (w : world) :
  usable_seed (random_state (this w)) ->
  dim1 x <> 0 ->
  dim1 x' = dim1 x -> dim2 x' = dim2 x ->
  items x' <> [] -> bs <> 0 ->
  exists t,
    value (forecast x' bs (final (fit x y w))) = Ok t /\
    shape2 t = (length (items x'), dim1 x * (width y / dim1 x)) /\
    well_formed2 t.
Proof.
  intros Hseed Hd H1 H2 Hne Hbs.
  destruct (fit_keeps_layout x y w Hseed Hd) as (net & Hn & Hl).
  assert (Hfits : fits net (dim1 x) (dim2 x) (width y / dim1 x)).
  { eapply fits_layout; [exact Hl | apply fits_fresh_network]. }
  destruct (@forecast_runs _ x' bs (final (fit x y w)) net _ _ _ Hn Hfits H1 H2 Hne Hbs)
    as (net' & _ & _ & _ & Hrun).
  eexists. rewrite Hrun. cbn [value]. split; [reflexivity|]. split.
  - unfold shape2, forecast_of. cbn [rows width]. now rewrite length_map.
  - unfold well_formed2, forecast_of. cbn [rows width].
    apply Forall_forall. intros r Hr. apply in_map_iff in Hr as (s & <- & _).
    now apply length_forward_sample.
Qed.

Lemma forecast_after_fit_witness :
  exists t,
    value (forecast three_x 2 (final (fit small_x odd_y (small_world 0)))) = Ok t /\
    shape2 t = (3, 4).
Proof.
  assert (Hd : dim1 small_x <> 0) by discriminate.
  assert (Hne : items three_x <> []) by discriminate.
  assert (Hbs : 2 <> 0) by discriminate.
  destruct (@forecast_after_fit small_torch small_x odd_y three_x 2 (small_world 0)
              (small_seed_usable 0) Hd eq_refl eq_refl Hne Hbs) as (t & Hv & Hs & _).
  exists t. split; [exact Hv | exact Hs].
Defined.

(* ------------------------------------------------------------------ *)
(** * A whole training run *)
(* ------------------------------------------------------------------ *)

Section Pieces.
Variable A : Type.

Lemma gather_in_range (l : list A) idxs :
  Forall (fun i => i < length l) idxs ->
  exists r, gather l idxs = Ok r /\ length r = length idxs.
Proof.
  induction 1 as [|i idxs Hi _ IH]; [exists []; auto|].
  destruct IH as (r & Hr & Hlen). cbn [gather].
  destruct (nth_error l i) as [a|] eqn:Ha.
  - rewrite Hr. exists (a :: r). cbn [length]. auto.
  - apply nth_error_None in Ha. lia.
Qed.

Lemma Forall_chunks_upto (P : A -> Prop) bs fuel (l : list A) :
  Forall P l -> Forall (Forall P) (chunks_upto fuel bs l).
Proof.
  revert l. induction fuel as [|fuel IH]; intros l Hl; [constructor|].
  destruct l as [|a l']; [constructor|].
  rewrite chunks_upto_step by discriminate.
  rewrite <- (firstn_skipn bs (a :: l')) in Hl. apply Forall_app in Hl as [Hf Hs].
  constructor; [exact Hf | apply IH; exact Hs].
Qed.

Lemma length_chunks_upto bs fuel (l : list A) :
  bs <> 0 -> length l <= fuel ->
  length (chunks_upto fuel bs l) = (length l + bs - 1) / bs.
Proof.
  intros Hbs. revert l. induction fuel as [|fuel IH]; intros l Hl.
  - destruct l; [|cbn [length] in Hl; lia]. cbn [chunks_upto length].
    symmetry. apply Nat.div_small. lia.
  - destruct l as [|a l'].
    + cbn [chunks_upto length]. symmetry. apply Nat.div_small. lia.
    + rewrite chunks_upto_step by discriminate. cbn [length].
      rewrite IH by (rewrite length_skipn; cbn [length] in *; lia).
      rewrite length_skipn. cbn [length].
      set (n := length l').
      destruct (Nat.le_gt_cases (S n) bs) as [Hle|Hgt].
      * replace (S n - bs + bs - 1) with (bs - 1) by lia.
        rewrite (Nat.div_small (bs - 1) bs) by lia.
        apply (Nat.div_unique _ bs 1 n); lia.
      * replace (S n + bs - 1) with ((S n - bs + bs - 1) + 1 * bs) by lia.
        rewrite Nat.div_add by exact Hbs. lia.
Qed.

Lemma length_chunks bs (l : list A) :
  bs <> 0 -> length (chunks bs l) = (length l + bs - 1) / bs.
Proof. intros Hbs. apply length_chunks_upto; auto. Qed.
End Pieces.

Lemma length_concat_repeat {A} (l : list A) n :
  length (concat (repeat l n)) = n * length l.
Proof.
  induction n as [|n IH]; [reflexivity|].
  cbn [repeat concat]. rewrite length_app, IH. lia.
Qed.

Section WholeRun.
Context {torch : Torch}.

Lemma set_network_same (w : world) net :
  network (this w) = Some net -> set_network (Some net) w = w.
Proof.
  destruct w as [[n c d e b o l wd r u s] g]. cbn. intros ->. reflexivity.
Qed.

Lemma network_train_runs (w : world) net :
  network (this w) = Some net ->
  network_train w = Outcome (Ok tt) (set_network (Some (set_training true net)) w) [Train].
Proof.
  intros Hn. unfold network_train, self_network. rewrite Hn.
  rewrite bind_emit, bind_get. reflexivity.
Qed.

Variables (x : tensor3) (y : tensor2).
Hypothesis Hwidth : width y = dim1 x * (width y / dim1 x).
Hypothesis Hrows : length (rows y) = length (items x).

Local Abbreviation ds := ({| examples := x; labels := y |}) (only parsing).

Lemma fetch_in_range idxs :
  Forall (fun i => i < length (items x)) idxs ->
  exists xb yb,
    fetch ds idxs = Ok (xb, yb) /\
    dim1 xb = dim1 x /\ dim2 xb = dim2 x /\
    width yb = width y /\ length (rows yb) = length (items xb).
Proof.
  intros Hi. unfold fetch. cbn [examples labels].
  destruct (gather_in_range (items x) Hi) as (xs & Hxs & Hlx).
  assert (Hi' : Forall (fun i => i < length (rows y)) idxs) by (now rewrite Hrows).
  destruct (gather_in_range (rows y) Hi') as (ys & Hys & Hly).
  rewrite Hxs, Hys. eexists. eexists. split; [reflexivity|].
  cbn [dim1 dim2 width rows items]. repeat split. congruence.
Qed.

(** The batch loop on batches of valid indices: every batch runs the
    eight calls of the sharpness-aware branch and appends one loss. *)
Lemma train_batches_run batches :
  Forall (Forall (fun i => i < length (items x))) batches ->
  forall opt losses (w : world) net,
    class_name opt = "SAM"%string ->
    network (this w) = Some net ->
    fits net (dim1 x) (dim2 x) (width y / dim1 x) ->
    exists opt' losses' net',
      for_each batches (batch_body ds) (opt, losses) w
      = Outcome (Ok (opt', losses')) (set_network (Some net') w)
                (concat (repeat sam_calls (length batches))) /\
      class_name opt' = "SAM"%string /\
      layout net' = layout net.
Proof.
  induction 1 as [|idxs batches Hi _ IH]; intros opt losses w net Hc Hn Hfits.
  - exists opt, losses, net. cbn [for_each length repeat concat].
    rewrite (set_network_same w Hn). auto.
  - destruct (fetch_in_range Hi) as (xb & yb & Hf & H1 & H2 & H3 & H4).
    rewrite Hwidth in H3.
    pose proof (@train_step_sam_runs _ w net xb yb (dim1 x) (dim2 x) (width y / dim1 x)
                  Hn Hfits H1 H2 H3 H4 opt Hc) as Hstep.
    set (net1 := sam_trained opt net xb yb) in *.
    set (opt1 := sam_optimizer opt net xb yb) in *.
    set (loss1 := loss_at (perturbed opt net xb yb) xb yb) in *.
    assert (Hbody : batch_body ds (opt, losses) idxs w
                    = Outcome (Ok (opt1, losses ++ [item loss1]))
                              (set_network (Some net1) w) sam_calls).
    { unfold batch_body. rewrite Hf, bind_lift_ok. cbv iota beta.
      erewrite bind_ok by exact Hstep. cbn [value final events].
      now rewrite app_nil_r. }
    cbn [for_each]. erewrite bind_ok by exact Hbody.
    destruct (IH opt1 (losses ++ [item loss1])
                (set_network (Some net1) w) net1)
      as (opt' & losses' & net' & Hrun & Hc' & Hl').
    + exact Hc.
    + reflexivity.
    + eapply fits_layout; [apply layout_sam_trained | exact Hfits].
    + exists opt', losses', net'. rewrite Hrun. rewrite set_network_twice.
      cbn [length repeat concat].
      split; [reflexivity|]. split; [exact Hc'|].
      rewrite Hl'. apply layout_sam_trained.
Qed.

Hypothesis Hshuffle : forall n g, valid_order n (fst (shuffled n g)).
Variable bs : nat.
Hypothesis Hbs : bs <> 0.

Local Abbreviation loader :=
  ({| dataset_size := length (items x); loader_batch_size := bs; shuffle := true |})
  (only parsing).
Local Abbreviation nb := ((length (items x) + bs - 1) / bs) (only parsing).

(** One pass over a shuffling loader: the batches are the pieces of
    the order drawn. *)
Lemma batches_of_shuffling (w : world) :
  batches_of loader w
  = Outcome (Ok (chunks bs (fst (shuffled (length (items x)) (torch_rng (rng w))))))
            (set_torch_rng (snd (shuffled (length (items x)) (torch_rng (rng w)))) w)
            [].
Proof.
  unfold batches_of. cbn [shuffle dataset_size loader_batch_size].
  rewrite bind_get.
  destruct (shuffled (length (items x)) (torch_rng (rng w))) as [order g].
  rewrite bind_put. reflexivity.
Qed.

Lemma epoch_runs opt epoch (w : world) net :
  class_name opt = "SAM"%string ->
  network (this w) = Some net ->
  fits net (dim1 x) (dim2 x) (width y / dim1 x) ->
  exists opt' (w' : world) net' loss,
    epoch_body ds loader opt epoch w
    = Outcome (Ok opt') w' (epoch_calls nb epoch loss) /\
    class_name opt' = "SAM"%string /\
    network (this w') = Some net' /\
    layout net' = layout net /\
    training net' = true.
Proof.
  intros Hc Hn Hfits. unfold epoch_body.
  erewrite bind_ok by apply batches_of_shuffling.
  set (order := fst (shuffled (length (items x)) (torch_rng (rng w)))).
  set (w1 := set_torch_rng (snd (shuffled (length (items x)) (torch_rng (rng w)))) w).
  destruct (Hshuffle (length (items x)) (torch_rng (rng w))) as [Hlen Hin].
  fold order in Hlen, Hin.
  assert (Hbatches : Forall (Forall (fun i => i < length (items x))) (chunks bs order))
    by (apply Forall_chunks_upto; exact Hin).
  destruct (@train_batches_run (chunks bs order) Hbatches opt [] w1 net Hc Hn Hfits)
    as (opt' & losses' & net' & Hrun & Hc' & Hl').
  unfold train_epoch.
  erewrite bind_ok by exact Hrun. cbv iota beta.
  erewrite bind_ok by (apply network_train_runs; reflexivity).
  rewrite bind_emit, set_network_twice. cbn [value final events app].
  exists opt', (set_network (Some (set_training true net')) w1),
         (set_training true net'), (np_mean losses').
  split; [|auto].
  unfold epoch_calls. rewrite length_chunks by exact Hbs. rewrite Hlen.
  reflexivity.
Qed.

Lemma epochs_run k :
  forall first opt (w : world) net,
    class_name opt = "SAM"%string ->
    network (this w) = Some net ->
    fits net (dim1 x) (dim2 x) (width y / dim1 x) ->
    training net = true ->
    exists opt' (w' : world) net' losses,
      for_each (seq first k) (epoch_body ds loader) opt w
      = Outcome (Ok opt') w' (epochs_calls nb first losses) /\
      length losses = k /\
      network (this w') = Some net' /\
      layout net' = layout net /\
      training net' = true.
Proof.
  induction k as [|k IH]; intros first opt w net Hc Hn Hfits Ht.
  - exists opt, w, net, []. cbn [seq for_each epochs_calls length]. auto.
  - destruct (@epoch_runs opt first w net Hc Hn Hfits)
      as (opt1 & w1 & net1 & loss & Hrun & Hc1 & Hn1 & Hl1 & Ht1).
    destruct (IH (S first) opt1 w1 net1 Hc1 Hn1 (fits_layout Hl1 Hfits) Ht1)
      as (opt' & w' & net' & losses & Hrest & Hlen & Hn' & Hl' & Ht').
    exists opt', w', net', (loss :: losses).
    cbn [seq for_each]. erewrite bind_ok by exact Hrun. rewrite Hrest.
    cbn [value final events epochs_calls length].
    split; [reflexivity|]. split; [now rewrite Hlen|]. split; [exact Hn'|].
    split; [congruence | exact Ht'].
Qed.
End WholeRun.

(** X1.  With a seed the seeding accepts (or none), on data whose
    targets have one row per sample and a whole number
    of horizons per channel, [fit] returns.  After the seeding and the
    construction, every epoch runs the eight calls of the
    sharpness-aware branch once per batch, as many batches as the batch
    size needs to cover the samples, then puts the network back in
    training mode and reports a loss.  The network it leaves is in
    training mode and has the sizes the data gave it. *)
Theorem fit_returns {torch : Torch} x y (w : world) :
  (forall n g, valid_order n (fst (shuffled n g))) ->
  usable_seed (random_state (this w)) ->
  dim1 x <> 0 ->
  width y = dim1 x * (width y / dim1 x) ->
  length (rows y) = length (items x) ->
  items x <> [] ->
  batch_size (this w) <> 0 ->
  value (fit x y w) = Ok tt /\
  (exists losses,
     length losses = num_epochs (this w) /\
     events (fit x y w)
     = seed_calls (random_state (this w))
       ++ [Allocate (dim1 x) (dim2 x) 16 (width y / dim1 x) (self_use_revin (this w)); Train]
       ++ epochs_calls ((length (items x) + batch_size (this w) - 1) / batch_size (this w))
                       0 losses) /\
  (exists net,
     network (this (final (fit x y w))) = Some net /\
     training net = true /\
     layout net = ((dim2 x, 16), (dim2 x, 16), (dim2 x, dim2 x),
                   (dim2 x, width y / dim1 x), (dim1 x, self_use_revin (this w)))).
Proof.
  intros Hshuffle Hseed Hd Hwidth Hrows Hne Hbs.
  rewrite fit_runs by exact Hseed. cbv zeta.
  pose proof Hd as Hd'. apply Nat.eqb_neq in Hd'. rewrite Hd'.
  set (ws := seeded_world (random_state (this w)) w).
  unfold DataLoader_init.
  assert (Hn0 : (length (items x) =? 0) = false)
    by (apply Nat.eqb_neq; destruct (items x); [congruence | discriminate]).
  pose proof Hbs as Hbs'. apply Nat.eqb_neq in Hbs'. rewrite Hn0, Hbs'. cbn [andb].
  destruct (@epochs_run _ x y Hwidth Hrows Hshuffle (batch_size (this w)) Hbs
              (num_epochs (this w)) 0 (fresh_optimizer x y ws) (built_world x y ws)
              (fresh_network x y ws) eq_refl eq_refl (fits_fresh_network x y ws) eq_refl)
    as (opt' & w' & net' & losses & Hrun & Hlen & Hn' & Hl' & Ht').
  unfold fit_loop. rewrite Hrun. cbn [value final events].
  split; [reflexivity|]. split.
  - exists losses. split; [exact Hlen | reflexivity].
  - exists net'. split; [exact Hn'|]. split; [exact Ht'|].
    rewrite Hl', layout_fresh_network. unfold ws. now rewrite this_seeded_world.
Qed.

Lemma small_torch_valid_order n g :
  valid_order n (fst (shuffled (Torch := small_torch) n g)).
Proof.
  cbn [shuffled small_torch fst]. split.
  - now rewrite length_rev, length_seq.
  - apply Forall_rev. apply Forall_forall. intros i Hi. apply in_seq in Hi. lia.
Qed.

Lemma fit_returns_witness :
  usable_seed (random_state (this (small_world 0))) /\
  dim1 small_x <> 0 /\
  width small_y = dim1 small_x * (width small_y / dim1 small_x) /\
  length (rows small_y) = length (items small_x) /\
  items small_x <> [] /\
  batch_size (this (small_world 0)) <> 0 /\
  value (fit small_x small_y (small_world 0)) = Ok tt.
Proof.
  assert (Hd : dim1 small_x <> 0) by discriminate.
  assert (Hne : items small_x <> []) by discriminate.
  assert (Hbs : batch_size (this (small_world 0)) <> 0) by discriminate.
  split; [exact (small_seed_usable 0)|].
  split; [exact Hd|]. split; [reflexivity|]. split; [reflexivity|].
  split; [exact Hne|]. split; [exact Hbs|].
  exact (proj1 (@fit_returns small_torch small_x small_y (small_world 0)
                  small_torch_valid_order (small_seed_usable 0) Hd eq_refl eq_refl
                  Hne Hbs)).
Defined.

(* ------------------------------------------------------------------ *)
(** * Looking inside the network *)
(* ------------------------------------------------------------------ *)

Section IntrospectionFacts.
Context {torch : Torch}.

Lemma network_layer_runs attr layer t (w : world) net :
  network (this w) = Some net ->
  dim2 t = in_features (layer net) ->
  network_layer attr layer t w = Outcome (Ok (linear_map (layer net) t)) w [].
Proof.
  intros Hn Hd. unfold network_layer, self_network. rewrite Hn.
  rewrite bind_get, Linear_call_ok by exact Hd.
  cbn [lift_result]. now rewrite (set_network_same w Hn).
Qed.

Lemma network_weight_runs attr layer (w : world) net :
  network (this w) = Some net ->
  network_weight attr layer w = Outcome (Ok (weight_matrix (layer net))) w [].
Proof.
  intros Hn. unfold network_weight, self_network. rewrite Hn.
  rewrite bind_get. cbn [ret]. now rewrite (set_network_same w Hn).
Qed.

Lemma after_forward_plain net x :
  use_revin net = false -> after_forward net x = net.
Proof.
  intros Hu. unfold after_forward, revin_after. rewrite Hu. apply set_revin_same.
Qed.

Lemma length_step_normalise net x channels :
  (use_revin net = true -> num_features (revin net) = channels) ->
  dim1 x = channels ->
  let x_norm := fst (step_normalise net x) in
  dim1 x_norm = dim1 x /\ dim2 x_norm = dim2 x /\
  length (items x_norm) = length (items x).
Proof.
  intros Hc H1. unfold step_normalise.
  destruct (use_revin net); [|cbn; auto].
  destruct (length_statistics (transpose12 x)) as [Lmu Lsigma].
  destruct (statistics_of (transpose12 x)) as [mu sigma].
  cbn [fst snd] in *.
  split; [reflexivity|]. split; [reflexivity|].
  unfold transpose12 at 1. cbn [items]. rewrite length_map.
  unfold normalize. rewrite length_apply_statistics by assumption.
  cbn [transpose12 items]. now rewrite length_map.
Qed.

(** [extract_matrices] on a fitted trainer whose switch agrees with
    the network's. *)
Lemma extract_matrices_runs x (w : world) net channels seq_len horizon :
  network (this w) = Some net ->
  self_use_revin (this w) = use_revin net ->
  fits net channels seq_len horizon ->
  dim1 x = channels -> dim2 x = seq_len ->
  extract_matrices x w
  = Outcome (Ok (matrices_of net x)) (set_network (Some (after_forward net x)) w) [].
Proof.
  intros Hn Hflag Hfits H1 H2.
  pose proof (@length_step_normalise net x channels (fits_channels Hfits) H1)
    as (D1 & D2 & Ln). cbv zeta in D1, D2, Ln.
  unfold extract_matrices, get_self, matrices_of.
  rewrite bind_ok_silent with (a := this w) (s1 := w) by (now rewrite bind_get).
  rewrite Hflag.
  set (w1 := set_network (Some (after_forward net x)) w).
  set (x_norm := fst (step_normalise net x)) in *.
  assert (Hnorm :
            (if use_revin net
             then (t <- self_network (AttributeError "NoneType" "revin")
                          (self_revin (transpose12 x) norm) ;;
                   ret (transpose12 t))%monad
             else ret x) w
            = Outcome (Ok x_norm) w1 []).
  { unfold x_norm, w1, step_normalise, after_forward, revin_after.
    destruct (use_revin net) eqn:Hu.
    - pose proof (fits_channels Hfits Hu) as Hc.
      erewrite bind_ok_silent.
      2:{ unfold self_network. rewrite Hn.
          rewrite self_revin_norm by (cbn [transpose12 dim2]; congruence).
          reflexivity. }
      destruct (statistics_of (transpose12 x)) as [mu sigma]. reflexivity.
    - rewrite set_revin_same, (set_network_same w Hn). reflexivity. }
  erewrite bind_ok_silent by exact Hnorm.
  assert (Hn1 : network (this w1) = Some (after_forward net x)) by reflexivity.
  destruct Hfits as [Hq Hk Hh Hvi Hvo Hfi Hfo Hc].
  erewrite bind_ok_silent
    by (apply (@network_layer_runs "compute_queries" compute_queries x_norm w1 _ Hn1);
        cbn [after_forward set_revin compute_queries]; congruence).
  erewrite bind_ok_silent
    by (apply (@network_layer_runs "compute_keys" compute_keys x_norm w1 _ Hn1);
        cbn [after_forward set_revin compute_keys]; congruence).
  erewrite bind_ok_silent
    by (apply (@network_layer_runs "compute_values" compute_values x_norm w1 _ Hn1);
        cbn [after_forward set_revin compute_values]; congruence).
  cbn [after_forward set_revin compute_queries compute_keys compute_values].
  assert (Hatt : attention (linear_map (compute_queries net) x_norm)
                   (linear_map (compute_keys net) x_norm)
                   (linear_map (compute_values net) x_norm)
                 = Ok (step_attention net x_norm)).
  { apply attention_ok; cbn [linear_map dim1 dim2 items]; auto; now rewrite !length_map. }
  replace (if has_fused_attention
           then F_scaled_dot_product_attention (linear_map (compute_queries net) x_norm)
                  (linear_map (compute_keys net) x_norm)
                  (linear_map (compute_values net) x_norm)
           else scaled_dot_product_attention (linear_map (compute_queries net) x_norm)
                  (linear_map (compute_keys net) x_norm)
                  (linear_map (compute_values net) x_norm))
    with (Ok (step_attention net x_norm))
    by (destruct has_fused_attention; now rewrite <- Hatt).
  rewrite bind_lift_ok.
  rewrite tensor_add_ok; cycle 1.
  - reflexivity.
  - cbn [step_attention attention_map linear_map dim2]. congruence.
  - unfold step_attention. rewrite length_attention_map;
      cbn [linear_map items]; now rewrite ?length_map.
  - rewrite bind_lift_ok.
    erewrite bind_ok_silent
      by (apply (@network_layer_runs "linear_forecaster" linear_forecaster _ w1 _ Hn1);
          cbn [after_forward set_revin linear_forecaster step_residual add_entries dim2];
          congruence).
    reflexivity.
Qed.

Lemma first_sample_ok t :
  items t <> [] -> first_sample t = Ok (first_matrix t).
Proof.
  unfold first_sample, first_matrix. destruct (items t); [congruence | reflexivity].
Qed.

Lemma plot_heatmap_runs matrix name (d : desk) :
  plot_heatmap matrix name d
  = Outcome (Ok tt)
            {| trainer := trainer d;
               shown := shown d ++ [{| title := name; heat := matrix |}] |} [].
Proof. unfold plot_heatmap. now rewrite bind_get. Qed.

Lemma plot_first_runs t name (d : desk) :
  items t <> [] ->
  plot_first t name d
  = Outcome (Ok tt)
            {| trainer := trainer d;
               shown := shown d ++ [{| title := name; heat := first_matrix t |}] |} [].
Proof.
  intros Hne. unfold plot_first. rewrite (@first_sample_ok t Hne), bind_lift_ok.
  apply plot_heatmap_runs.
Qed.

Lemma on_trainer_runs {A} (m : M world A) (d : desk) r w' ev :
  m (trainer d) = Outcome r w' ev ->
  on_trainer m d = Outcome r (set_trainer w' d) ev.
Proof. intros H. unfold on_trainer, zoom. now rewrite H. Qed.

Lemma extract_weight_matrices_runs (w : world) net :
  network (this w) = Some net ->
  extract_weight_matrices w
  = Outcome (Ok (weight_matrix (compute_queries net), weight_matrix (compute_keys net),
                 weight_matrix (compute_values net),
                 weight_matrix (linear_forecaster net))) w [].
Proof.
  intros Hn. unfold extract_weight_matrices.
  repeat (erewrite bind_ok_silent by (apply network_weight_runs; exact Hn)).
  reflexivity.
Qed.

Lemma items_nonempty {A} (l l' : list A) :
  length l' = length l -> l <> [] -> l' <> [].
Proof. destruct l, l'; cbn; congruence. Qed.

(** [generate_heatmaps] on a fitted trainer and a batch that is not
    empty. *)
Lemma generate_heatmaps_runs x (d : desk) net channels seq_len horizon :
  network (this (trainer d)) = Some net ->
  self_use_revin (this (trainer d)) = use_revin net ->
  fits net channels seq_len horizon ->
  dim1 x = channels -> dim2 x = seq_len ->
  items x <> [] ->
  generate_heatmaps x d
  = Outcome (Ok tt)
            {| trainer := set_network (Some (after_forward net x)) (trainer d);
               shown := shown d ++ heatmaps_of net x |} [].
Proof.
  intros Hn Hflag Hfits H1 H2 Hne.
  pose proof (@length_step_normalise net x channels (fits_channels Hfits) H1)
    as (D1 & D2 & Ln). cbv zeta in D1, D2, Ln.
  unfold generate_heatmaps.
  erewrite bind_ok_silent
    by (apply on_trainer_runs; eapply extract_matrices_runs; eauto).
  unfold heatmaps_of, matrices_of. cbv iota beta.
  set (x_norm := fst (step_normalise net x)) in *.
  set (queries := linear_map (compute_queries net) x_norm).
  set (keys := linear_map (compute_keys net) x_norm).
  set (values := linear_map (compute_values net) x_norm).
  set (att_score := step_attention net x_norm).
  set (out_proj := step_head net (step_residual x_norm att_score)).
  assert (Hxn : items x_norm <> []) by (eapply items_nonempty; eauto).
  assert (Lq : length (items queries) = length (items x_norm))
    by (unfold queries; cbn [linear_map items]; now rewrite length_map).
  assert (Lk : length (items keys) = length (items x_norm))
    by (unfold keys; cbn [linear_map items]; now rewrite length_map).
  assert (Lv : length (items values) = length (items x_norm))
    by (unfold values; cbn [linear_map items]; now rewrite length_map).
  assert (La : length (items att_score) = length (items x_norm))
    by apply length_step_attention.
  assert (Lo : length (items out_proj) = length (items x_norm))
    by apply (shape_block net x_norm).
  assert (Hbmm : bmm queries (transpose12 keys) = Ok (bmm_map queries (transpose12 keys))).
  { unfold bmm. cbn [transpose12 items dim1 dim2]. rewrite length_map, Lq, Lk.
    unfold queries, keys. cbn [linear_map dim2].
    rewrite (fits_hidden Hfits), !Nat.eqb_refl. reflexivity. }
  rewrite Hbmm, bind_lift_ok.
  fold (attention_weights_of queries keys).
  assert (Lw : length (items (attention_weights_of queries keys))
               = length (items x_norm)).
  { unfold attention_weights_of. cbn [softmax_last tensor_div bmm_map items].
    rewrite !length_map. rewrite length_zip_with.
    - exact Lq.
    - cbn [transpose12 items]. now rewrite length_map, Lk, Lq. }
  erewrite bind_ok_silent by (apply plot_first_runs; exact Hne).
  erewrite bind_ok_silent by (apply plot_first_runs; eapply items_nonempty; eauto).
  erewrite bind_ok_silent by (apply plot_first_runs; eapply items_nonempty; eauto).
  erewrite bind_ok_silent by (apply plot_first_runs; eapply items_nonempty; eauto).
  erewrite bind_ok_silent by (apply plot_first_runs; eapply items_nonempty; eauto).
  erewrite bind_ok_silent by (apply plot_first_runs; eapply items_nonempty; eauto).
  erewrite bind_ok_silent by (apply plot_first_runs; eapply items_nonempty; eauto).
  erewrite bind_ok_silent
    by (apply on_trainer_runs;
        apply (@extract_weight_matrices_runs _ (after_forward net x)); reflexivity).
  cbv iota beta.
  repeat (erewrite bind_ok_silent by apply plot_heatmap_runs).
  rewrite plot_heatmap_runs.
  cbn [trainer shown set_trainer after_forward set_revin compute_queries compute_keys
       compute_values linear_forecaster].
  rewrite <- !app_assoc. reflexivity.
Qed.
End IntrospectionFacts.

Lemma length_rows_of_sample r c s : length (rows_of_sample r c s) = r.
Proof. unfold rows_of_sample. now rewrite length_map, length_seq. Qed.

Lemma well_formed_rows_of_sample r c s :
  Forall (fun row => length row = c) (rows_of_sample r c s).
Proof.
  unfold rows_of_sample. apply Forall_forall. intros row Hr.
  apply in_map_iff in Hr as (i & <- & _). apply length_row_of.
Qed.

Lemma shape_first_matrix t :
  shape2 (first_matrix t) = (dim1 t, dim2 t) /\ well_formed2 (first_matrix t).
Proof.
  unfold shape2, well_formed2, first_matrix. cbn [rows width].
  rewrite length_rows_of_sample. split; [reflexivity | apply well_formed_rows_of_sample].
Qed.

Lemma shape_weight_matrix l :
  shape2 (weight_matrix l) = (out_features l, in_features l) /\
  well_formed2 (weight_matrix l).
Proof.
  unfold shape2, well_formed2, weight_matrix. cbn [rows width].
  rewrite length_rows_of_sample. split; [reflexivity | apply well_formed_rows_of_sample].
Qed.

(** X13.  Before [fit], the three methods that look inside the network raise
    the AttributeError of the first attribute they look up on [None]:
    [revin] when normalisation is on, [compute_queries] otherwise.
    Nothing is changed and no figure is shown. *)
Theorem introspection_before_fit {torch : Torch} x (d : desk) :
  network (this (trainer d)) = None ->
  let missing :=
    AttributeError "NoneType"
      (if self_use_revin (this (trainer d)) then "revin" else "compute_queries") in
  extract_matrices x (trainer d) = Outcome (Raise missing) (trainer d) [] /\
  extract_weight_matrices (trainer d)
  = Outcome (Raise (AttributeError "NoneType" "compute_queries")) (trainer d) [] /\
  generate_heatmaps x d = Outcome (Raise missing) d [].
Proof.
  intros Hn missing.
  assert (Hex : extract_matrices x (trainer d) = Outcome (Raise missing) (trainer d) []).
  { unfold extract_matrices, get_self, missing.
    rewrite bind_ok_silent with (a := this (trainer d)) (s1 := trainer d)
      by (now rewrite bind_get).
    destruct (self_use_revin (this (trainer d))).
    - erewrite bind_raise; [reflexivity|].
      erewrite bind_raise; [reflexivity|].
      unfold self_network. now rewrite Hn.
    - rewrite bind_ret. erewrite bind_raise; [reflexivity|].
      unfold network_layer, self_network. now rewrite Hn. }
  split; [exact Hex|]. split.
  - unfold extract_weight_matrices. erewrite bind_raise; [reflexivity|].
    unfold network_weight, self_network. now rewrite Hn.
  - unfold generate_heatmaps. erewrite bind_raise; [reflexivity|].
    rewrite (@on_trainer_runs _ _ (extract_matrices x) d _ _ _ Hex). destruct d. reflexivity.
Qed.

Lemma introspection_before_fit_witness :
  network (this (trainer (clean_desk (small_world 0)))) = None /\
  value (generate_heatmaps small_x (clean_desk (small_world 0)))
  = Raise (AttributeError "NoneType" "revin").
Proof.
  split; [reflexivity|].
  exact (f_equal (@value _ _)
           (proj2 (proj2 (@introspection_before_fit small_torch small_x
                            (clean_desk (small_world 0)) eq_refl)))).
Defined.

(** X14.  On a fitted trainer, [extract_matrices] hands back its input with
    the query, key and value projections of the normalised input, the
    attention of these three and the forecast head of the residual
    sum, in this order.  That last matrix is what [forward] denormalises: it
    is the forecast itself when normalisation is off.  The call stores
    the statistics of its input as a forward pass does, and changes
    nothing else; the network itself is never called. *)
Theorem extract_matrices_agrees {torch : Torch} x (w : world) net
    channels seq_len horizon :
  network (this w) = Some net ->
  self_use_revin (this w) = use_revin net ->
  fits net channels seq_len horizon ->
  dim1 x = channels -> dim2 x = seq_len ->
  exists queries keys values att_score out_proj,
    value (extract_matrices x w) = Ok (x, queries, keys, values, att_score, out_proj) /\
    queries = linear_map (compute_queries net) (fst (step_normalise net x)) /\
    keys = linear_map (compute_keys net) (fst (step_normalise net x)) /\
    values = linear_map (compute_values net) (fst (step_normalise net x)) /\
    att_score = attention_map queries keys values /\
    out_proj = linear_map (linear_forecaster net)
                 (add_entries (fst (step_normalise net x)) att_score) /\
    value (forward has_fused_attention x false net)
    = Ok (step_denormalise net (snd (step_normalise net x)) out_proj) /\
    (use_revin net = false ->
     value (forward has_fused_attention x false net) = Ok out_proj) /\
    shape3 queries = (length (items x), channels, out_features (compute_queries net)) /\
    shape3 keys = (length (items x), channels, out_features (compute_queries net)) /\
    shape3 values = (length (items x), channels, seq_len) /\
    shape3 att_score = (length (items x), channels, seq_len) /\
    shape3 out_proj = (length (items x), channels, horizon) /\
    final (extract_matrices x w)
    = set_network (Some (final (forward has_fused_attention x false net))) w /\
    events (extract_matrices x w) = [].
Proof.
  intros Hn Hflag Hfits H1 H2.
  pose proof (@length_step_normalise net x channels (fits_channels Hfits) H1)
    as (D1 & D2 & Ln). cbv zeta in D1, D2, Ln.
  rewrite (@extract_matrices_runs _ x w net channels seq_len horizon Hn Hflag Hfits H1 H2).
  rewrite (@forward_runs has_fused_attention net x false channels seq_len horizon Hfits H1 H2).
  unfold matrices_of. cbn [value final events].
  set (x_norm := fst (step_normalise net x)) in *.
  do 5 eexists. split; [reflexivity|].
  do 5 (split; [reflexivity|]).
  assert (Hsteps : forward_steps net x false
                   = step_denormalise net (snd (step_normalise net x))
                       (step_head net (step_residual x_norm (step_attention net x_norm)))).
  { unfold forward_steps, forward_steps3, x_norm.
    destruct (step_normalise net x) as [xn stats]. reflexivity. }
  split; [now rewrite Hsteps|]. split.
  - intros Hu. rewrite Hsteps. unfold step_normalise. rewrite Hu. reflexivity.
  - destruct (shape_block net x_norm) as (S1 & S2 & S3). cbv zeta in S1, S2, S3.
    destruct Hfits as [Hq Hk Hh Hvi Hvo Hfi Hfo Hc].
    unfold shape3. cbn [linear_map dim1 dim2 items]. rewrite !length_map.
    rewrite length_step_attention.
    cbn [step_attention attention_map linear_map dim1 dim2].
    rewrite S1, S2, S3, Ln, D1, H1, Hvo, Hfo, <- Hh.
    repeat split.
Qed.

Lemma extract_matrices_agrees_witness :
  exists queries keys values att_score out_proj,
    value (extract_matrices small_x fitted_world)
    = Ok (small_x, queries, keys, values, att_score, out_proj) /\
    shape3 out_proj = (1, 2, 2).
Proof.
  assert (Hfits : fits small_net 2 3 2) by (constructor; reflexivity).
  destruct (@extract_matrices_agrees small_torch small_x fitted_world small_net 2 3 2
              eq_refl eq_refl Hfits eq_refl eq_refl)
    as (q & k & v & a & o & Hv & _ & _ & _ & _ & _ & _ & _ & _ & _ & _ & _ & Ho & _).
  exists q, k, v, a, o. split; [exact Hv | exact Ho].
Defined.

(** X15.  After a [fit] that built its network (the seeding accepted the
    seed, the data has a channel), the weight matrices come out one row
    per output
    feature: W_Q and W_K are 16 by sequence length, W_V is square, W_O
    is horizon by sequence length.  Reading them changes nothing. *)
Theorem weight_matrices_after_fit {torch : Torch} x y (w : world) :
  usable_seed (random_state (this w)) ->
  dim1 x <> 0 ->
  exists W_Q W_K W_V W_O,
    extract_weight_matrices (final (fit x y w))
    = Outcome (Ok (W_Q, W_K, W_V, W_O)) (final (fit x y w)) [] /\
    shape2 W_Q = (16, dim2 x) /\ shape2 W_K = (16, dim2 x) /\
    shape2 W_V = (dim2 x, dim2 x) /\ shape2 W_O = (width y / dim1 x, dim2 x) /\
    well_formed2 W_Q /\ well_formed2 W_K /\ well_formed2 W_V /\ well_formed2 W_O.
Proof.
  intros Hseed Hd.
  destruct (fit_keeps_layout x y w Hseed Hd) as (net & Hn & Hl).
  rewrite layout_fresh_network in Hl. unfold layout in Hl.
  injection Hl as E1 E2 E3 E4 E5 E6 E7 E8 E9 E10.
  rewrite (@extract_weight_matrices_runs _ (final (fit x y w)) net Hn).
  do 4 eexists. split; [reflexivity|].
  repeat split;
    try apply (proj2 (shape_weight_matrix _));
    rewrite (proj1 (shape_weight_matrix _)); congruence.
Qed.

Lemma weight_matrices_after_fit_witness :
  exists W_Q W_K W_V W_O,
    value (extract_weight_matrices (final (fit small_x small_y (small_world 0))))
    = Ok (W_Q, W_K, W_V, W_O) /\
    shape2 W_Q = (16, 3) /\ shape2 W_O = (2, 3).
Proof.
  assert (Hd : dim1 small_x <> 0) by discriminate.
  destruct (@weight_matrices_after_fit small_torch small_x small_y (small_world 0)
              (small_seed_usable 0) Hd)
    as (q & k & v & o & Hrun & Hq & _ & _ & Ho & _).
  exists q, k, v, o. rewrite Hrun. split; [reflexivity|]. split; [exact Hq | exact Ho].
Defined.

(** X16.  On a fitted trainer and a batch that is not empty,
    [generate_heatmaps] shows eleven figures, in this order and under
    these titles: the first sample of the input, of Q, K and V as
    [extract_matrices] returns them, of the attention weights, of the
    attention output and of the output projection, then the four weight
    matrices.  Each one is a full matrix of the stated size (no size
    being zero: what seaborn does with a matrix without entries is not
    modelled).  The trainer is left as [extract_matrices] leaves it. *)
Theorem generate_heatmaps_figures {torch : Torch} x (d : desk) net
    channels seq_len horizon :
  network (this (trainer d)) = Some net ->
  self_use_revin (this (trainer d)) = use_revin net ->
  fits net channels seq_len horizon ->
  dim1 x = channels -> dim2 x = seq_len ->
  items x <> [] ->
  channels <> 0 -> seq_len <> 0 -> horizon <> 0 ->
  out_features (compute_queries net) <> 0 ->
  let hid := out_features (compute_queries net) in
  exists queries keys values att_score out_proj figures,
    value (extract_matrices x (trainer d))
    = Ok (x, queries, keys, values, att_score, out_proj) /\
    generate_heatmaps x d
    = Outcome (Ok tt)
              {| trainer := final (extract_matrices x (trainer d));
                 shown := shown d ++ figures |} [] /\
    figures
    = [ {| title := "Input Matrix (X) for 1 Batch"; heat := first_matrix x |};
        {| title := "Query Matrix (Q) for 1 Batch"; heat := first_matrix queries |};
        {| title := "Key Matrix (K) for 1 Batch"; heat := first_matrix keys |};
        {| title := "Value Matrix (V) for 1 Batch"; heat := first_matrix values |};
        {| title := "Attention Matrix (Q * K^T) for 1 Batch";
           heat := first_matrix (attention_weights_of queries keys) |};
        {| title := "Attention Score (Q*K^T)*V for 1 Batch";
           heat := first_matrix att_score |};
        {| title := "Output Projection for 1 Batch"; heat := first_matrix out_proj |};
        {| title := "Projection Matrix W_Q"; heat := weight_matrix (compute_queries net) |};
        {| title := "Projection Matrix W_K"; heat := weight_matrix (compute_keys net) |};
        {| title := "Projection Matrix W_V"; heat := weight_matrix (compute_values net) |};
        {| title := "Projection Matrix W_O";
           heat := weight_matrix (linear_forecaster net) |} ]%string /\
    map title figures = heatmap_titles /\
    map (fun f => shape2 (heat f)) figures
    = [ (channels, seq_len); (channels, hid); (channels, hid); (channels, seq_len);
        (channels, channels); (channels, seq_len); (channels, horizon);
        (hid, seq_len); (hid, seq_len); (seq_len, seq_len); (horizon, seq_len) ] /\
    Forall (fun f => well_formed2 (heat f)) figures.
Proof.
  intros Hn Hflag Hfits H1 H2 Hne _ _ _ _ hid.
  pose proof (@length_step_normalise net x channels (fits_channels Hfits) H1)
    as (D1 & D2 & Ln). cbv zeta in D1, D2, Ln.
  rewrite (@generate_heatmaps_runs _ x d net channels seq_len horizon
             Hn Hflag Hfits H1 H2 Hne).
  rewrite (@extract_matrices_runs _ x (trainer d) net channels seq_len horizon
             Hn Hflag Hfits H1 H2). cbn [value final].
  unfold heatmaps_of, matrices_of. cbv iota beta.
  set (x_norm := fst (step_normalise net x)) in *.
  do 6 eexists. split; [reflexivity|]. split; [reflexivity|].
  split; [reflexivity|]. split; [reflexivity|].
  destruct (shape_block net x_norm) as (S1 & S2 & S3). cbv zeta in S1, S2, S3.
  destruct Hfits as [Hq Hk Hh Hvi Hvo Hfi Hfo Hc].
  split.
  - cbn [map heat]. rewrite !(proj1 (shape_first_matrix _)), !(proj1 (shape_weight_matrix _)).
    cbn [attention_weights_of softmax_last tensor_div bmm_map transpose12
         step_attention attention_map linear_map dim1 dim2].
    rewrite S1, S2, D1, H1, H2, Hq, Hk, Hvi, Hvo, Hfi, Hfo. fold hid. rewrite <- Hh.
    reflexivity.
  - repeat constructor; cbn [heat];
      first [apply (proj2 (shape_first_matrix _)) | apply (proj2 (shape_weight_matrix _))].
Qed.

Lemma generate_heatmaps_figures_witness :
  map title (shown (final (generate_heatmaps small_x (clean_desk fitted_world))))
  = heatmap_titles.
Proof.
  assert (Hfits : fits small_net 2 3 2) by (constructor; reflexivity).
  assert (Hne : items small_x <> []) by discriminate.
  assert (N2 : 2 <> 0) by discriminate.
  assert (N3 : 3 <> 0) by discriminate.
  assert (N16 : out_features (compute_queries small_net) <> 0) by discriminate.
  destruct (@generate_heatmaps_figures small_torch small_x (clean_desk fitted_world)
              small_net 2 3 2 eq_refl eq_refl Hfits eq_refl eq_refl Hne N2 N3 N2 N16)
    as (q & k & v & a & o & figures & _ & Hrun & _ & Ht & _).
  rewrite Hrun. exact Ht.
Defined.

(** X18.  On an empty batch [generate_heatmaps] raises IndexError when it
    takes the first sample of the input: no figure is shown, though the
    matrices have been extracted. *)
Theorem generate_heatmaps_empty_batch {torch : Torch} x (d : desk) net
    channels seq_len horizon :
  network (this (trainer d)) = Some net ->
  self_use_revin (this (trainer d)) = use_revin net ->
  fits net channels seq_len horizon ->
  dim1 x = channels -> dim2 x = seq_len ->
  items x = [] ->
  generate_heatmaps x d
  = Outcome (Raise IndexError)
            {| trainer := final (extract_matrices x (trainer d)); shown := shown d |} [].
Proof.
  intros Hn Hflag Hfits H1 H2 He.
  pose proof (@length_step_normalise net x channels (fits_channels Hfits) H1)
    as (D1 & D2 & Ln). cbv zeta in D1, D2, Ln.
  unfold generate_heatmaps.
  rewrite (@extract_matrices_runs _ x (trainer d) net channels seq_len horizon Hn Hflag Hfits H1 H2). cbn [final].
  erewrite bind_ok_silent
    by (apply on_trainer_runs; eapply extract_matrices_runs; eauto).
  unfold matrices_of. cbv iota beta.
  set (x_norm := fst (step_normalise net x)) in *.
  assert (Hbmm : bmm (linear_map (compute_queries net) x_norm)
                     (transpose12 (linear_map (compute_keys net) x_norm))
                 = Ok (bmm_map (linear_map (compute_queries net) x_norm)
                               (transpose12 (linear_map (compute_keys net) x_norm)))).
  { unfold bmm. cbn [transpose12 linear_map items dim1 dim2]. rewrite !length_map.
    rewrite (fits_hidden Hfits), !Nat.eqb_refl. reflexivity. }
  rewrite Hbmm, bind_lift_ok.
  erewrite bind_raise; [reflexivity|].
  unfold plot_first, first_sample. rewrite He. reflexivity.
Qed.

Lemma generate_heatmaps_empty_batch_witness :
  value (generate_heatmaps empty_x (clean_desk fitted_world)) = Raise IndexError /\
  shown (final (generate_heatmaps empty_x (clean_desk fitted_world))) = [].
Proof.
  assert (Hfits : fits small_net 2 3 2) by (constructor; reflexivity).
  rewrite (@generate_heatmaps_empty_batch small_torch empty_x (clean_desk fitted_world)
             small_net 2 3 2 eq_refl eq_refl Hfits eq_refl eq_refl eq_refl).
  split; reflexivity.
Defined.

(* ------------------------------------------------------------------ *)
(** * More on the forward pass *)
(* ------------------------------------------------------------------ *)

Lemma self_revin_norm_mismatch x net :
  dim2 x <> num_features (revin net) ->
  self_revin x norm net =
  Outcome (Raise (RuntimeError "channels differ from num_features"))
          (set_revin (set_statistics (Some (fst (statistics_of x)))
                                     (Some (snd (statistics_of x))) (revin net)) net)
          [].
Proof.
  intros Hc. unfold self_revin, zoom, RevIN_call. rewrite bind_get.
  destruct (statistics_of x) as [mu sigma].
  rewrite bind_put. apply Nat.eqb_neq in Hc. rewrite Hc. reflexivity.
Qed.

(** X11.  A batch whose time axis is not as long as the layers expect is
    refused: [forward] raises RuntimeError, whatever else the batch and
    the network are.  Without normalisation the network is untouched and
    the error is the one of the first linear layer. *)
Theorem forward_rejects_length (fused : bool) x flatten_output net :
  dim2 x <> in_features (compute_queries net) ->
  (exists msg, value (forward fused x flatten_output net) = Raise (RuntimeError msg)) /\
  events (forward fused x flatten_output net) = [] /\
  (use_revin net = false ->
   forward fused x flatten_output net
   = Outcome (Raise (RuntimeError "mat1 and mat2 shapes cannot be multiplied")) net []).
Proof.
  intros Hd. split; [|split; [apply forward_silent|]].
  - unfold forward. rewrite bind_get.
    destruct (use_revin net) eqn:Hu.
    + destruct (Nat.eq_dec (dim2 (transpose12 x)) (num_features (revin net))) as [Hc|Hc].
      * erewrite bind_ok_silent
          by (erewrite bind_ok_silent by (apply self_revin_norm; exact Hc); reflexivity).
        unfold Linear_call. cbn [transpose12 normalize apply_statistics dim1 dim2].
        apply Nat.eqb_neq in Hd. rewrite Hd. eexists. reflexivity.
      * erewrite bind_raise; [eexists; reflexivity|].
        erewrite bind_raise; [reflexivity|].
        apply self_revin_norm_mismatch. exact Hc.
    + rewrite bind_ret. unfold Linear_call.
      apply Nat.eqb_neq in Hd. rewrite Hd. eexists. reflexivity.
  - intros Hu. unfold forward. rewrite bind_get, Hu, bind_ret.
    unfold Linear_call. apply Nat.eqb_neq in Hd. rewrite Hd. reflexivity.
Qed.

Lemma forward_rejects_length_witness :
  dim2 long_x <> in_features (compute_queries small_net) /\
  exists msg, value (forward true long_x true small_net) = Raise (RuntimeError msg).
Proof.
  assert (Hd : dim2 long_x <> in_features (compute_queries small_net)) by discriminate.
  split; [exact Hd|].
  exact (proj1 (@forward_rejects_length true long_x true small_net Hd)).
Defined.

(** X12.  Every sample is forecast on its own: the forward pass of a batch
    made of two batches is the forward pass of each, one after the
    other.  Nothing leaks from one sample of a batch to another. *)
Theorem forward_sample_by_sample (fused : bool) net xs1 xs2 channels seq_len horizon :
  fits net channels seq_len horizon ->
  let batch xs := {| dim1 := channels; dim2 := seq_len; items := xs |} in
  exists out1 out2,
    value (forward fused (batch xs1) true net) = Ok out1 /\
    value (forward fused (batch xs2) true net) = Ok out2 /\
    value (forward fused (batch (xs1 ++ xs2)) true net)
    = Ok {| width := channels * horizon; rows := rows out1 ++ rows out2 |} /\
    width out1 = channels * horizon /\ width out2 = channels * horizon.
Proof.
  intros Hfits batch.
  assert (Hsame : same_forecaster net net) by (split; reflexivity).
  assert (Hrun : forall xs,
             value (forward fused (batch xs) true net)
             = Ok {| width := channels * horizon;
                     rows := map (forward_sample net channels seq_len) xs |}).
  { intros xs.
    rewrite (@forward_runs fused net (batch xs) true channels seq_len horizon
               Hfits eq_refl eq_refl).
    cbn [value]. f_equal.
    apply (@forward_steps_by_sample net net (batch xs) channels seq_len horizon
             Hfits Hsame eq_refl eq_refl). }
  do 2 eexists. rewrite !Hrun. cbn [rows width].
  repeat split. now rewrite map_app.
Qed.

Lemma forward_sample_by_sample_witness :
  exists out1 out2,
    value (forward true small_x true small_net) = Ok out1 /\
    value (forward true {| dim1 := 2; dim2 := 3; items := skipn 1 (items three_x) |}
                   true small_net) = Ok out2 /\
    value (forward true three_x true small_net)
    = Ok {| width := 4; rows := rows out1 ++ rows out2 |}.
Proof.
  assert (Hfits : fits small_net 2 3 2) by (constructor; reflexivity).
  destruct (@forward_sample_by_sample true small_net (items small_x)
              (skipn 1 (items three_x)) 2 3 2 Hfits)
    as (o1 & o2 & H1 & H2 & H3 & _).
  exists o1, o2. split; [exact H1|]. split; [exact H2 | exact H3].
Defined.

(* ------------------------------------------------------------------ *)
(** * The attention weights on the screen *)
(* ------------------------------------------------------------------ *)

Section MatrixFacts.
Local Open Scope R_scope.

Lemma entry_map (f : R -> R) r c s i j :
  length s = (r * c)%nat -> (i < r)%nat -> (j < c)%nat ->
  entry c (map f s) i j = f (entry c s i j).
Proof.
  intros Hl Hi Hj. unfold entry.
  rewrite nth_indep with (d' := f 0) by (rewrite length_map, Hl; nia).
  apply map_nth.
Qed.

Lemma row_of_nth (r : list R) : row_of (length r) (fun j => nth j r 0) = r.
Proof.
  apply nth_ext with (d := 0) (d' := 0); [apply length_row_of|].
  intros n Hn. rewrite length_row_of in Hn. now apply nth_row_of.
Qed.

(** Cutting a flat sample into rows undoes laying rows end to end. *)
Lemma rows_of_sample_concat r c (rs : list (list R)) :
  length rs = r -> Forall (fun row => length row = c) rs ->
  rows_of_sample r c (concat rs) = rs.
Proof.
  intros Hl H. unfold rows_of_sample.
  apply nth_ext with (d := []) (d' := []); [now rewrite length_map, length_seq|].
  intros i Hi. rewrite length_map, length_seq in Hi.
  rewrite nth_map_seq by exact Hi.
  assert (Hr : length (nth i rs []) = c).
  { rewrite Forall_forall in H. apply H, nth_In. lia. }
  rewrite (@row_of_ext c _ (fun j => nth j (nth i rs []) 0)).
  - rewrite <- Hr. apply row_of_nth.
  - intros j Hj. unfold entry. apply nth_concat_uniform; auto. lia.
Qed.

Lemma cell_rows_of_sample r c s i j :
  (i < r)%nat -> (j < c)%nat ->
  nth j (nth i (rows_of_sample r c s) []) 0 = entry c s i j.
Proof.
  intros Hi Hj. unfold rows_of_sample.
  rewrite nth_map_seq by exact Hi. now apply nth_row_of.
Qed.

Lemma sum_list_exp_div l c :
  sum_list (map (fun s => exp s / c) l) = sum_list (map exp l) / c.
Proof.
  induction l as [|a l IH]; cbn [map sum_list fold_right].
  - unfold Rdiv. ring.
  - fold (sum_list (map (fun s => exp s / c) l)). fold (sum_list (map exp l)).
    rewrite IH. unfold Rdiv. ring.
Qed.

Lemma sum_list_exp_nonneg l : 0 <= sum_list (map exp l).
Proof.
  induction l as [|a l IH]; cbn [map sum_list fold_right]; [lra|].
  fold (sum_list (map exp l)). pose proof (exp_pos a). lra.
Qed.

(** The softmax of a row that is not empty sums to one. *)
Lemma sum_softmax l : l <> [] -> sum_list (softmax l) = 1.
Proof.
  intros Hne. unfold softmax. rewrite sum_list_exp_div.
  assert (Hpos : 0 < sum_list (map exp l)).
  { destruct l as [|a l]; [congruence|]. cbn [map sum_list fold_right].
    fold (sum_list (map exp l)).
    pose proof (exp_pos a). pose proof (sum_list_exp_nonneg l). lra. }
  unfold Rdiv. apply Rinv_r. lra.
Qed.

(** The attention output of one sample is the softmax of the scaled
    product of queries and transposed keys, times the values. *)
Lemma attention_sample_weights D hid L q0 k0 v0 i j :
  (i < D)%nat -> (j < L)%nat ->
  let scaled := map (fun v => v / sqrt (INR hid))
                    (bmm_sample D hid D q0 (transpose_sample D hid k0)) in
  entry L (attention_sample D D hid L q0 k0 v0) i j
  = sum_upto D
      (fun t => nth t (softmax (row_of D (fun t' => entry D scaled i t'))) 0
                * entry L v0 t j).
Proof.
  intros Hi Hj scaled. unfold attention_sample.
  rewrite entry_tabulate by assumption. cbv zeta.
  replace (row_of D (fun t' => entry D scaled i t'))
    with (row_of D (fun t0 => sum_upto hid (fun a => entry hid q0 i a * entry hid k0 t0 a)
                              / sqrt (INR hid))); [reflexivity|].
  apply row_of_ext. intros t' Ht'. unfold scaled.
  rewrite (@entry_map _ D D) by (try assumption; apply length_tabulate).
  f_equal. unfold bmm_sample. rewrite entry_tabulate by assumption.
  apply sum_upto_ext. intros a Ha. f_equal.
  unfold transpose_sample. now rewrite entry_tabulate.
Qed.
End MatrixFacts.

(** X17.  The attention matrix [generate_heatmaps] computes on its own is the
    one inside the attention call: every row of the fifth figure sums to
    one, and the sixth figure (the attention output) is the fifth times
    the fourth (the values). *)
Theorem attention_heatmaps_consistent {torch : Torch} x (d : desk) net
    channels seq_len horizon :
  network (this (trainer d)) = Some net ->
  self_use_revin (this (trainer d)) = use_revin net ->
  fits net channels seq_len horizon ->
  dim1 x = channels -> dim2 x = seq_len ->
  items x <> [] ->
  channels <> 0 -> seq_len <> 0 -> horizon <> 0 ->
  out_features (compute_queries net) <> 0 ->
  exists X Q K V W S rest,
    map heat (shown (final (generate_heatmaps x d)))
    = map heat (shown d) ++ X :: Q :: K :: V :: W :: S :: rest /\
    (forall row, In row (rows W) -> sum_list row = 1%R) /\
    (forall i j, i < channels -> j < seq_len ->
       cell S i j = sum_upto channels (fun t => (cell W i t * cell V t j)%R)).
Proof.
  intros Hn Hflag Hfits H1 H2 Hne _ _ _ _.
  pose proof (@length_step_normalise net x channels (fits_channels Hfits) H1)
    as (D1 & D2 & Ln). cbv zeta in D1, D2, Ln.
  rewrite (@generate_heatmaps_runs _ x d net channels seq_len horizon
             Hn Hflag Hfits H1 H2 Hne).
  cbn [final shown]. rewrite map_app.
  unfold heatmaps_of, matrices_of. cbv iota beta. cbn [map heat].
  do 7 eexists. split; [reflexivity|].
  set (x_norm := fst (step_normalise net x)) in *.
  destruct (items x_norm) as [|xn0 others] eqn:Hx.
  { destruct (items x); [congruence | discriminate]. }
  destruct Hfits as [Hq Hk Hh Hvi Hvo Hfi Hfo Hc].
  unfold first_matrix, attention_weights_of, cell.
  cbn [softmax_last tensor_div bmm_map transpose12 step_attention attention_map
       linear_map items dim1 dim2 rows].
  rewrite Hx. cbn [map zip_with zip3 combine fst snd hd].
  rewrite D1, H1, Hvo, <- Hh.
  set (hid := out_features (compute_queries net)).
  set (q0 := linear_sample (compute_queries net) channels xn0).
  set (k0 := linear_sample (compute_keys net) channels xn0).
  set (v0 := linear_sample (compute_values net) channels xn0).
  set (scaled := map (fun v => (v / sqrt (INR hid))%R)
                     (bmm_sample channels hid channels q0
                        (transpose_sample channels hid k0))).
  assert (Hrows : rows_of_sample channels channels
                    (concat (map softmax (rows_of_sample channels channels scaled)))
                  = map softmax (rows_of_sample channels channels scaled)).
  { apply rows_of_sample_concat.
    - now rewrite length_map, length_rows_of_sample.
    - apply Forall_forall. intros row Hr. apply in_map_iff in Hr as (r0 & <- & Hr0).
      unfold softmax. rewrite length_map.
      pose proof (well_formed_rows_of_sample channels channels scaled) as Hwf.
      rewrite Forall_forall in Hwf. now apply Hwf. }
  rewrite Hrows. split.
  - intros row Hr. apply in_map_iff in Hr as (r0 & <- & Hr0).
    apply sum_softmax.
    pose proof (well_formed_rows_of_sample channels channels scaled) as Hwf.
    rewrite Forall_forall in Hwf. specialize (Hwf r0 Hr0).
    unfold rows_of_sample in Hr0. apply in_map_iff in Hr0 as (i & _ & Hi).
    apply in_seq in Hi. destruct r0; [cbn [length] in Hwf; lia | discriminate].
  - intros i j Hi Hj.
    rewrite cell_rows_of_sample by assumption.
    rewrite (@attention_sample_weights channels hid seq_len q0 k0 v0 i j Hi Hj).
    cbv zeta. fold scaled.
    apply sum_upto_ext. intros t Ht.
    rewrite cell_rows_of_sample by assumption.
    f_equal. f_equal.
    change (@nil R) with (softmax []) at 1. rewrite map_nth.
    unfold rows_of_sample. now rewrite nth_map_seq.
Qed.

Lemma attention_heatmaps_consistent_witness :
  exists X Q K V W S rest,
    map heat (shown (final (generate_heatmaps small_x (clean_desk fitted_world))))
    = X :: Q :: K :: V :: W :: S :: rest /\
    (forall row, In row (rows W) -> sum_list row = 1%R).
Proof.
  assert (Hfits : fits small_net 2 3 2) by (constructor; reflexivity).
  assert (Hne : items small_x <> []) by discriminate.
  assert (N2 : 2 <> 0) by discriminate.
  assert (N3 : 3 <> 0) by discriminate.
  assert (N16 : out_features (compute_queries small_net) <> 0) by discriminate.
  destruct (@attention_heatmaps_consistent small_torch small_x (clean_desk fitted_world)
              small_net 2 3 2 eq_refl eq_refl Hfits eq_refl eq_refl Hne N2 N3 N2 N16)
    as (X & Q & K & V & W & S & rest & Hshown & Hsum & _).
  exists X, Q, K, V, W, S, rest. split; [exact Hshown | exact Hsum].
Defined.

(* ------------------------------------------------------------------ *)
(** * Shapes that do not fit *)
(* ------------------------------------------------------------------ *)

Section Misfits.
Context {torch : Torch}.

Lemma criterion_call_mismatch out y (w : world) :
  width (data out) <> width y -> width (data out) <> 1 -> width y <> 1 ->
  criterion_call out y w
  = Outcome (Raise (RuntimeError "The size of tensor a must match the size of tensor b"))
            w [Loss].
Proof.
  intros Hne Ho Hy. unfold criterion_call. rewrite bind_emit.
  unfold mse_loss, broadcastable.
  apply Nat.eqb_neq in Hne, Ho, Hy. rewrite Hne, Ho, Hy.
  cbn [orb]. rewrite andb_false_r. reflexivity.
Qed.

Lemma forward_steps_width net x channels seq_len horizon :
  fits net channels seq_len horizon ->
  dim1 x = channels -> dim2 x = seq_len ->
  width (forward_steps net x true) = channels * horizon.
Proof.
  intros Hfits H1 H2.
  assert (Hsame : same_forecaster net net) by (split; reflexivity).
  now rewrite (@forward_steps_by_sample net net x channels seq_len horizon
                 Hfits Hsame H1 H2).
Qed.

(** A batch whose targets are not as wide as the forecast: the batch
    stops at the loss. *)
Lemma train_step_mismatch opt x_batch y_batch (w : world) net channels seq_len horizon :
  network (this w) = Some net ->
  fits net channels seq_len horizon ->
  dim1 x_batch = channels -> dim2 x_batch = seq_len ->
  channels * horizon <> width y_batch -> channels * horizon <> 1 -> width y_batch <> 1 ->
  train_step opt x_batch y_batch w
  = Outcome (Raise (RuntimeError "The size of tensor a must match the size of tensor b"))
            (set_network (Some (after_forward net x_batch)) w)
            [Forward true; Loss].
Proof.
  intros Hn Hfits H1 H2 Hne Ho Hy. unfold train_step.
  erewrite bind_ok by (eapply network_call_runs; eauto).
  erewrite bind_raise
    by (apply criterion_call_mismatch; cbn [data];
        rewrite ?(@forward_steps_width net x_batch channels seq_len horizon Hfits H1 H2);
        assumption).
  reflexivity.
Qed.
End Misfits.

Lemma chunks_first {A} bs (l : list A) :
  l <> [] -> exists others, chunks bs l = firstn bs l :: others.
Proof.
  intros Hne. unfold chunks. destruct l as [|a l']; [congruence|].
  cbn [length]. rewrite chunks_upto_step by discriminate. eexists. reflexivity.
Qed.

(** X2.  With a seed the seeding accepts (or none), targets whose width
    is not channels times a whole horizon are not
    rejected when the network is built, but at the first loss of the
    first epoch: the forecast and the targets cannot be compared.  [fit]
    raises after one forward pass; no parameter has been updated.  (A
    width of 1 on either side would be broadcast instead.) *)
Theorem fit_stops_at_first_loss {torch : Torch} x y (w : world) :
  (forall n g, valid_order n (fst (shuffled n g))) ->
  usable_seed (random_state (this w)) ->
  dim1 x <> 0 ->
  length (rows y) = length (items x) ->
  items x <> [] ->
  batch_size (this w) <> 0 ->
  num_epochs (this w) <> 0 ->
  dim1 x * (width y / dim1 x) <> width y ->
  dim1 x * (width y / dim1 x) <> 1 ->
  width y <> 1 ->
  let ws := seeded_world (random_state (this w)) w in
  value (fit x y w)
  = Raise (RuntimeError "The size of tensor a must match the size of tensor b") /\
  events (fit x y w)
  = seed_calls (random_state (this w))
    ++ [Allocate (dim1 x) (dim2 x) 16 (width y / dim1 x) (self_use_revin (this w));
        Train; Forward true; Loss] /\
  exists net,
    network (this (final (fit x y w))) = Some net /\
    parameters net = parameters (fresh_network x y ws).
Proof.
  intros Hshuffle Hseed Hd Hrows Hne Hbs Hep Hmis Ho Hy ws.
  rewrite fit_runs by exact Hseed. cbv zeta.
  pose proof Hd as Hd'. apply Nat.eqb_neq in Hd'. rewrite Hd'. fold ws.
  unfold DataLoader_init.
  assert (Hn0 : (length (items x) =? 0) = false)
    by (apply Nat.eqb_neq; destruct (items x); [congruence | discriminate]).
  pose proof Hbs as Hbs'. apply Nat.eqb_neq in Hbs'. rewrite Hn0, Hbs'. cbn [andb].
  set (ds := {| examples := x; labels := y |}).
  set (loader := {| dataset_size := length (items x);
                    loader_batch_size := batch_size (this w); shuffle := true |}).
  set (opt := fresh_optimizer x y ws).
  set (w1 := built_world x y ws).
  set (net1 := fresh_network x y ws).
  set (order := fst (shuffled (length (items x)) (torch_rng (rng w1)))).
  set (w2 := set_torch_rng (snd (shuffled (length (items x)) (torch_rng (rng w1)))) w1).
  destruct (Hshuffle (length (items x)) (torch_rng (rng w1))) as [Hlen Hin].
  fold order in Hlen, Hin.
  assert (Hon : order <> []).
  { intros E. rewrite E in Hlen. cbn [length] in Hlen.
    destruct (items x); [congruence | discriminate]. }
  destruct (chunks_first (batch_size (this w)) Hon) as (others & Hchunks).
  assert (Hfirst : Forall (fun i => i < length (items x))
                          (firstn (batch_size (this w)) order)).
  { pose proof (Forall_chunks_upto (batch_size (this w)) (length order) Hin) as Hall.
    fold (chunks (batch_size (this w)) order) in Hall. rewrite Hchunks in Hall.
    now inversion Hall. }
  destruct (fetch_in_range x y Hrows Hfirst) as (xb & yb & Hf & H1 & H2 & H3 & H4).
  assert (Hstep : train_step opt xb yb w2
                  = Outcome (Raise (RuntimeError
                               "The size of tensor a must match the size of tensor b"))
                            (set_network (Some (after_forward net1 xb)) w2)
                            [Forward true; Loss]).
  { apply (@train_step_mismatch _ opt xb yb w2 net1 (dim1 x) (dim2 x) (width y / dim1 x));
      try assumption; try congruence.
    - reflexivity.
    - apply fits_fresh_network. }
  assert (Hepoch : epoch_body ds loader opt 0 w1
                   = Outcome (Raise (RuntimeError
                                "The size of tensor a must match the size of tensor b"))
                             (set_network (Some (after_forward net1 xb)) w2)
                             [Forward true; Loss]).
  { unfold epoch_body.
    erewrite bind_ok by apply batches_of_shuffling.
    fold order w2. rewrite Hchunks.
    erewrite bind_raise; [reflexivity|].
    unfold train_epoch. cbn [for_each].
    erewrite bind_raise; [reflexivity|].
    unfold batch_body. fold ds in Hf. rewrite Hf, bind_lift_ok. cbv iota beta.
    erewrite bind_raise by exact Hstep. reflexivity. }
  assert (Hloop : fit_loop (num_epochs (this w)) ds loader opt w1
                  = Outcome (Raise (RuntimeError
                               "The size of tensor a must match the size of tensor b"))
                            (set_network (Some (after_forward net1 xb)) w2)
                            [Forward true; Loss]).
  { unfold fit_loop. destruct (num_epochs (this w)) as [|k]; [congruence|].
    cbn [seq for_each]. erewrite bind_raise by exact Hepoch. reflexivity. }
  rewrite Hloop. cbn [value final events].
  split; [reflexivity|]. split; [reflexivity|].
  exists (after_forward net1 xb). split; [reflexivity|].
  apply parameters_after_forward.
Qed.

Lemma fit_stops_at_first_loss_witness :
  dim1 small_x * (width odd_y / dim1 small_x) <> width odd_y /\
  value (fit small_x odd_y (small_world 0))
  = Raise (RuntimeError "The size of tensor a must match the size of tensor b").
Proof.
  assert (Hd : dim1 small_x <> 0) by discriminate.
  assert (Hne : items small_x <> []) by discriminate.
  assert (Hbs : batch_size (this (small_world 0)) <> 0) by discriminate.
  assert (Hep : num_epochs (this (small_world 0)) <> 0) by discriminate.
  assert (Hmis : dim1 small_x * (width odd_y / dim1 small_x) <> width odd_y)
    by discriminate.
  assert (Ho : dim1 small_x * (width odd_y / dim1 small_x) <> 1) by discriminate.
  assert (Hy : width odd_y <> 1) by discriminate.
  split; [exact Hmis|].
  exact (proj1 (@fit_stops_at_first_loss small_torch small_x odd_y (small_world 0)
                  small_torch_valid_order (small_seed_usable 0) Hd eq_refl Hne Hbs Hep
                  Hmis Ho Hy)).
Defined.

(** X10.  [forecast] on samples of the wrong length raises RuntimeError at
    the first batch; the network is in evaluation mode by then. *)
Theorem forecast_rejects_length {torch : Torch} x bs (w : world) net :
  network (this w) = Some net ->
  dim2 x <> in_features (compute_queries net) ->
  items x <> [] -> bs <> 0 ->
  (exists msg, value (forecast x bs w) = Raise (RuntimeError msg)) /\
  events (forecast x bs w) = [Eval; Forward false] /\
  exists net',
    network (this (final (forecast x bs w))) = Some net' /\
    training net' = false /\ parameters net' = parameters net.
Proof.
  intros Hn Hd Hne Hbs.
  set (net0 := set_training false net).
  set (w1 := set_network (Some net0) w).
  assert (Hn0 : (length (items x) =? 0) = false)
    by (apply Nat.eqb_neq; destruct (items x); [congruence | discriminate]).
  assert (Hseq : seq 0 (length (items x)) <> [])
    by (destruct (items x); [congruence | discriminate]).
  destruct (chunks_first bs Hseq) as (others & Hchunks).
  rewrite firstn_seq_min in Hchunks.
  assert (Hg : gather (items x) (seq 0 (Nat.min bs (length (items x))))
               = Ok (firstn (Nat.min bs (length (items x))) (skipn 0 (items x))))
    by (apply gather_seq; lia).
  set (xb := {| dim1 := dim1 x; dim2 := dim2 x;
                items := firstn (Nat.min bs (length (items x))) (skipn 0 (items x)) |}).
  destruct (@forward_rejects_length has_fused_attention xb true net0 Hd)
    as ((msg & Hv) & Hev & _).
  assert (Hcall : network_call false xb w1
                  = Outcome (Raise (RuntimeError msg))
                            (set_network
                               (Some (final (forward has_fused_attention xb true net0))) w1)
                            [Forward false]).
  { unfold network_call, self_network. cbn [w1 set_network this network].
    rewrite bind_emit, bind_get.
    erewrite bind_raise;
      [|instantiate (1 := []); instantiate (1 := final (forward has_fused_attention xb true net0));
        instantiate (1 := RuntimeError msg);
        destruct (forward has_fused_attention xb true net0) as [v f e];
        cbn [value events final] in *; now subst].
    reflexivity. }
  assert (Hrun : forecast x bs w
                 = Outcome (Raise (RuntimeError msg))
                           (set_network
                              (Some (final (forward has_fused_attention xb true net0))) w)
                           [Eval; Forward false]).
  { unfold forecast.
    erewrite bind_ok by (apply network_eval_runs; exact Hn). fold net0 w1.
    unfold DataLoader_init. cbn [andb]. apply Nat.eqb_neq in Hbs. rewrite Hbs.
    rewrite bind_lift_ok.
    unfold batches_of. cbn [shuffle dataset_size loader_batch_size]. rewrite bind_ret.
    rewrite Hchunks.
    erewrite bind_raise; [reflexivity|].
    cbn [for_each]. erewrite bind_raise; [reflexivity|].
    rewrite Hg, bind_lift_ok. fold xb.
    erewrite bind_raise by exact Hcall. reflexivity. }
  rewrite Hrun. cbn [value events final].
  split; [eexists; reflexivity|]. split; [reflexivity|].
  eexists. split; [reflexivity|].
  rewrite forward_final. split; [reflexivity|].
  exact (parameters_after_forward net0 xb).
Qed.

Lemma forecast_rejects_length_witness :
  exists msg, value (forecast long_x 256 fitted_world) = Raise (RuntimeError msg).
Proof.
  assert (Hd : dim2 long_x <> in_features (compute_queries small_net)) by discriminate.
  assert (Hne : items long_x <> []) by discriminate.
  assert (Hbs : 256 <> 0) by discriminate.
  exact (proj1 (@forecast_rejects_length small_torch long_x 256 fitted_world small_net
                  eq_refl Hd Hne Hbs)).
Defined.

(* ------------------------------------------------------------------ *)
(** * A seed the seeding refuses *)
(* ------------------------------------------------------------------ *)

(** X19.  A seed outside 0 .. 2**32 - 1 stops [fit] in the seeding: it
    raises ValueError or RuntimeError, has made seeding calls only and
    has built no network; the trainer, with the network of a previous
    [fit], is as it was.  When torch takes the seed (-2**63 .. 2**64 - 1)
    the error is numpy's ValueError, after the calls on torch and on
    random, and before the one on cuda. *)
Theorem fit_rejects_seed {torch : Torch} x y (w : world) s :
  random_state (this w) = Some s ->
  ~ seed_in_range s ->
  (exists msg, value (fit x y w) = Raise (ValueError msg)
               \/ value (fit x y w) = Raise (RuntimeError msg)) /\
  this (final (fit x y w)) = this w /\
  (forall c, In c (events (fit x y w)) ->
             In c [ManualSeed s; RandomSeed s; NumpySeed s]) /\
  ((-9223372036854775808 <= s <= 18446744073709551615)%Z ->
   (exists msg, value (fit x y w) = Raise (ValueError msg)) /\
   events (fit x y w) = [ManualSeed s; RandomSeed s; NumpySeed s]).
Proof.
  intros Hs Hbad.
  assert (Hn : ((0 <=? s) && (s <=? 4294967295))%Z = false).
  { apply andb_false_iff. unfold seed_in_range in Hbad.
    destruct (Z_le_dec 0 s); [right | left]; apply Z.leb_gt; lia. }
  assert (Hfit : fit x y w
                 = Outcome (value (seed_everything (Some s) w))
                           (final (seed_everything (Some s) w))
                           (events (seed_everything (Some s) w)) /\
                 exists e, value (seed_everything (Some s) w) = Raise e).
  { destruct (seed_everything_fails w Hbad) as (e & w' & ev & Hrun & _).
    split; [|exists e; now rewrite Hrun].
    unfold fit, get_self.
    rewrite bind_ok_silent with (a := this w) (s1 := w) by (now rewrite bind_get).
    rewrite Hs. erewrite bind_raise by exact Hrun. now rewrite Hrun. }
  destruct Hfit as [Hfit _]. rewrite Hfit. cbn [value final events].
  unfold seed_everything, torch_manual_seed, np_random_seed. rewrite Hn.
  destruct ((-9223372036854775808 <=? s) && (s <=? 18446744073709551615))%Z eqn:Ht.
  - split; [eexists; left; reflexivity|]. split; [reflexivity|].
    split; [intros c Hc; exact Hc|].
    intros _. split; [eexists; reflexivity | reflexivity].
  - split; [eexists; right; reflexivity|]. split; [reflexivity|].
    split; [intros c Hc; cbn in Hc |- *; tauto|].
    intros [Hlo Hhi]. exfalso.
    apply andb_false_iff in Ht. destruct Ht as [Ht|Ht]; apply Z.leb_gt in Ht; lia.
Qed.

Lemma fit_rejects_seed_witness :
  ~ seed_in_range (-1) /\
  (exists msg,
     value (fit small_x small_y (set_seed (Some (-1)%Z) fitted_world))
     = Raise (ValueError msg)) /\
  network (this (final (fit small_x small_y (set_seed (Some (-1)%Z) fitted_world))))
  = Some small_net.
Proof.
  assert (Hbad : ~ seed_in_range (-1)) by (unfold seed_in_range; lia).
  destruct (@fit_rejects_seed small_torch small_x small_y
              (set_seed (Some (-1)%Z) fitted_world) (-1)%Z eq_refl Hbad)
    as (_ & Hthis & _ & Hnp).
  split; [exact Hbad|]. split.
  - apply Hnp. lia.
  - rewrite Hthis. reflexivity.
Defined.
